(** * SEC filing task pipeline: the Task Assembler and the PDF Finalizer

    A shallow embedding of [assemble_master.py],
    [finalize_pdfs_offline.py] and the filing selection of
    [build_manifest_dual_public.py], and the properties of their selection,
    pairing, naming and retry logic.

    Conventions of the embedding.
    - A Python [str] is a [string]; its characters are read as code points
      below 256, so that [String.compare] is Python's [<] on [str].
    - A Python [int] is a [Z]; an index produced by [enumerate] or [range]
      over a list is a [nat].
    - A manifest cell is text: the tables are the ones [pd.read_csv] gives
      for a file whose required cells are all filled in with non-numeric text.
    - [sort_values] and [list.sort] are a stable sort; [groupby] yields its
      groups by increasing key, each group in the order of the table. The
      sample tables have no two rows with equal sort keys.
    - What raises in the Assembler ([IndexError] of [iloc], [KeyError] of
      [pick_peers] on a frame without rows) is [None].
    - The network, the random generator, the browser and the digest are an
      environment that answers the calls of the Finalizer; the run threads a
      state that holds the table, the files and the trace of the calls. A
      step of the Finalizer returns or raises one of the exceptions that the
      script does not catch ([ValueError] of a negative sleep, [OSError] of
      [exists()], [TypeError] of an assignment to a column that does not take
      text); a run that raises writes no table. *)

From Stdlib Require Import ZArith QArith Lia Lqa Bool Ascii String List Permutation Sorted.
From Stdlib Require Import DecimalString DecimalNat Decimal.
From stdpp Require Import base option list strings gmap.

Local Open Scope Z_scope.

(** ** Python and pandas primitives *)

Module Py.

(** [s[:n]] on a [str]. *)
Definition str_prefix (n : nat) (s : string) : string := String.substring 0 n s.

(** [f"{i:02d}"] for an index [i >= 0]: decimal, padded with zeros on the left
    up to width 2, never truncated. *)
Definition decimal (i : nat) : string := NilEmpty.string_of_uint (Nat.to_uint i).

Definition fmt02 (i : nat) : string :=
  let s := decimal i in
  if (String.length s <? 2)%nat then "0" +:+ s else s.

(** Reading a decimal string back, leading zeros allowed. *)
Definition parse_decimal (s : string) : option nat :=
  Nat.of_uint <$> NilEmpty.uint_of_string s.

(** [l[:k]]: a negative [k] counts from the end. *)
Definition slice_to {A} (k : Z) (l : list A) : list A :=
  if k <? 0 then firstn (length l - Z.to_nat (- k)) l else firstn (Z.to_nat k) l.

(** [range(n)]. *)
Definition range (n : Z) : list Z := map Z.of_nat (seq 0 (Z.to_nat n)).

(** [df.iloc[i]]: a negative [i] counts from the end, out of bounds raises. *)
Definition iloc {A} (l : list A) (i : Z) : option A :=
  let n := Z.of_nat (length l) in
  if 0 <=? i then nth_error l (Z.to_nat i)
  else if - n <=? i then nth_error l (Z.to_nat (n + i))
  else None.

(** [enumerate(l, start=1)]. *)
Definition enumerate1 {A} (l : list A) : list (nat * A) :=
  combine (seq 1 (length l)) l.

(** Comparison of tuples: the first component that differs decides. *)
Definition cmp_then (c1 c2 : comparison) : comparison :=
  match c1 with Eq => c2 | _ => c1 end.

Definition le_of {A} (cmp : A -> A -> comparison) (a b : A) : bool :=
  match cmp a b with Gt => false | _ => true end.

Definition eq_of {A} (cmp : A -> A -> comparison) (a b : A) : bool :=
  match cmp a b with Eq => true | _ => false end.

(** A stable sort: equal elements keep the order they had. *)
Fixpoint insert_sorted {A} (le : A -> A -> bool) (x : A) (l : list A) : list A :=
  match l with
  | [] => [x]
  | y :: l' => if le x y then x :: l else y :: insert_sorted le x l'
  end.

Fixpoint sort_values {A} (le : A -> A -> bool) (l : list A) : list A :=
  match l with
  | [] => []
  | x :: l' => insert_sorted le x (sort_values le l')
  end.

(** [Series.unique()]: the distinct values, in order of first appearance. *)
Fixpoint unique {A} (eqb : A -> A -> bool) (l : list A) : list A :=
  match l with
  | [] => []
  | x :: l' => x :: List.filter (fun y => negb (eqb y x)) (unique eqb l')
  end.

(** [df.groupby(key)]: one group per distinct key, keys increasing, the rows of
    a group in table order. *)
Definition groupby {K A} (cmp : K -> K -> comparison) (key : A -> K)
    (l : list A) : list (K * list A) :=
  map (fun k => (k, List.filter (fun r => eq_of cmp (key r) k) l))
      (sort_values (le_of cmp) (unique (eq_of cmp) (map key l))).

(** [for i in range(0, len(rows)-1, 2): rows[i], rows[i+1]]. *)
Fixpoint pair_up {A} (rows : list A) : list (A * A) :=
  match rows with
  | r1 :: r2 :: rest => (r1, r2) :: pair_up rest
  | _ => []
  end.

(** Whitespace as [str.strip] and the pattern [\s] see it, among the code
    points below 256. *)
Definition is_space (c : ascii) : bool :=
  let n := N_of_ascii c in
  ((9 <=? n) && (n <=? 13) || (28 <=? n) && (n <=? 32) || (n =? 133) || (n =? 160))%N.

Fixpoint lstrip (s : string) : string :=
  match s with
  | String c s' => if is_space c then lstrip s' else s
  | EmptyString => EmptyString
  end.

Definition str_rev (s : string) : string :=
  string_of_list_ascii (rev (list_ascii_of_string s)).

(** [s.strip()]. *)
Definition strip (s : string) : string := str_rev (lstrip (str_rev (lstrip s))).

(** [re.sub(pattern, "", s)] for a pattern that matches the characters (or the
    runs of characters) on which [drop] holds. *)
Fixpoint remove_chars (drop : ascii -> bool) (s : string) : string :=
  match s with
  | String c s' => if drop c then remove_chars drop s' else String c (remove_chars drop s')
  | EmptyString => EmptyString
  end.

(** [s.lower()]. *)
Definition lower_char (c : ascii) : ascii :=
  let n := N_of_ascii c in
  if ((65 <=? n) && (n <=? 90) || (192 <=? n) && (n <=? 222) && negb (n =? 215))%N
  then ascii_of_N (n + 32) else c.

Fixpoint lower (s : string) : string :=
  match s with
  | String c s' => String (lower_char c) (lower s')
  | EmptyString => EmptyString
  end.

(** [needle in hay]. *)
Definition contains (needle hay : string) : bool :=
  match String.index 0 needle hay with Some _ => true | None => false end.

(** [s.replace(old, new)] for a non-empty [old]: the occurrences are met from
    the left and do not overlap; [skip] counts the characters of the
    occurrence just replaced that are still to be passed over. *)
Fixpoint replace_from (old new : string) (skip : nat) (s : string) : string :=
  match s with
  | EmptyString => EmptyString
  | String c s' =>
      match skip with
      | S skip' => replace_from old new skip' s'
      | O => if String.prefix old s
             then new +:+ replace_from old new (String.length old - 1) s'
             else String c (replace_from old new 0 s')
      end
  end.

Definition replace (old new s : string) : string := replace_from old new 0 s.

(** The size in bytes of [s] once encoded as UTF-8. *)
Fixpoint utf8_size (s : string) : Z :=
  match s with
  | String c s' => (if (N_of_ascii c <? 128)%N then 1 else 2) + utf8_size s'
  | EmptyString => 0
  end.

(** [random.random()]: a multiple of [2^-53] in [[0, 1)], read off the bits
    the generator hands out. *)
Definition random_value (bits : N) : Q :=
  Z.of_N (bits mod 2 ^ 53) # 2 ^ 53.

End Py.

(** ** assemble_master.py *)

Module Assembler.
Import Py.

(** One row of a manifest table, with the columns [_require_cols] asks for.
    [Period] is [None] when the table has no such column. *)
Record FilingRecord : Type := {
  Company : string; Ticker : string; Sector : string; Form : string;
  Period : option string; FilingDate : string; Accession : string;
  EdgarIndexURL : string; OpenAsHTMLURL : string
}.

Definition ManifestTable : Type := list FilingRecord.

(** The dict built by [make_row_single] and [make_row_pair]. *)
Record TaskRow : Type := {
  TaskID : string; Status : string; TaskerName : string; Category : string;
  Prompt : string; Answer : string; SupportingFacts : string;
  QA_Reviewer : string; QA_Approval : string; QA_Final_Approval : string;
  Notes : string;
  Company_1 : string; Ticker_1 : string; Sector_1 : string;
  Form_1 : string; Period_1 : string; FilingDate_1 : string;
  Company_2 : string; Ticker_2 : string; Sector_2 : string;
  Form_2 : string; Period_2 : string; FilingDate_2 : string;
  Accession_1 : string; EdgarIndexURL_1 : string; OpenAsHTMLURL_1 : string;
  PDF_filename_1 : string; PDF_checksum_1 : string; PDF_link_1 : string;
  Accession_2 : string; EdgarIndexURL_2 : string; OpenAsHTMLURL_2 : string;
  PDF_filename_2 : string; PDF_checksum_2 : string; PDF_link_2 : string
}.

Definition COLUMNS : list string := [
  "TaskID";"Status";"TaskerName";"Category";"Prompt";"Answer";"SupportingFacts";
  "QA_Reviewer";"QA_Approval";"QA_Final_Approval";"Notes";
  "Company_1";"Ticker_1";"Sector_1";"Form_1";"Period_1";"FilingDate_1";
  "Company_2";"Ticker_2";"Sector_2";"Form_2";"Period_2";"FilingDate_2";
  "Accession_1";"EdgarIndexURL_1";"OpenAsHTMLURL_1";"PDF_filename_1";"PDF_checksum_1";"PDF_link_1";
  "Accession_2";"EdgarIndexURL_2";"OpenAsHTMLURL_2";"PDF_filename_2";"PDF_checksum_2";"PDF_link_2"
].

(** [row[col]] on the dict. *)
Definition row_get (r : TaskRow) (col : string) : option string :=
  let cells := [
    TaskID r; Status r; TaskerName r; Category r; Prompt r; Answer r; SupportingFacts r;
    QA_Reviewer r; QA_Approval r; QA_Final_Approval r; Notes r;
    Company_1 r; Ticker_1 r; Sector_1 r; Form_1 r; Period_1 r; FilingDate_1 r;
    Company_2 r; Ticker_2 r; Sector_2 r; Form_2 r; Period_2 r; FilingDate_2 r;
    Accession_1 r; EdgarIndexURL_1 r; OpenAsHTMLURL_1 r; PDF_filename_1 r; PDF_checksum_1 r; PDF_link_1 r;
    Accession_2 r; EdgarIndexURL_2 r; OpenAsHTMLURL_2 r; PDF_filename_2 r; PDF_checksum_2 r; PDF_link_2 r
  ] in
  snd <$> List.find (fun kv => String.eqb (fst kv) col) (combine COLUMNS cells).

(** [row["TaskID"] = task_id]. *)
Definition set_TaskID (task_id : string) (r : TaskRow) : TaskRow := {|
  TaskID := task_id; Status := Status r; TaskerName := TaskerName r; Category := Category r;
  Prompt := Prompt r; Answer := Answer r; SupportingFacts := SupportingFacts r;
  QA_Reviewer := QA_Reviewer r; QA_Approval := QA_Approval r;
  QA_Final_Approval := QA_Final_Approval r; Notes := Notes r;
  Company_1 := Company_1 r; Ticker_1 := Ticker_1 r; Sector_1 := Sector_1 r;
  Form_1 := Form_1 r; Period_1 := Period_1 r; FilingDate_1 := FilingDate_1 r;
  Company_2 := Company_2 r; Ticker_2 := Ticker_2 r; Sector_2 := Sector_2 r;
  Form_2 := Form_2 r; Period_2 := Period_2 r; FilingDate_2 := FilingDate_2 r;
  Accession_1 := Accession_1 r; EdgarIndexURL_1 := EdgarIndexURL_1 r;
  OpenAsHTMLURL_1 := OpenAsHTMLURL_1 r;
  PDF_filename_1 := PDF_filename_1 r; PDF_checksum_1 := PDF_checksum_1 r;
  PDF_link_1 := PDF_link_1 r;
  Accession_2 := Accession_2 r; EdgarIndexURL_2 := EdgarIndexURL_2 r;
  OpenAsHTMLURL_2 := OpenAsHTMLURL_2 r;
  PDF_filename_2 := PDF_filename_2 r; PDF_checksum_2 := PDF_checksum_2 r;
  PDF_link_2 := PDF_link_2 r
|}.

(** [r.get("Period", "")]. *)
Definition get_Period (r : FilingRecord) : string := default "" (Period r).

Definition make_row_single (task_id cat : string) (r : FilingRecord) : TaskRow := {|
  TaskID := task_id; Status := ""; TaskerName := ""; Category := cat;
  Prompt := ""; Answer := ""; SupportingFacts := "";
  QA_Reviewer := ""; QA_Approval := ""; QA_Final_Approval := ""; Notes := "";
  Company_1 := Company r; Ticker_1 := Ticker r; Sector_1 := Sector r;
  Form_1 := Form r; Period_1 := get_Period r; FilingDate_1 := FilingDate r;
  Company_2 := ""; Ticker_2 := ""; Sector_2 := "";
  Form_2 := ""; Period_2 := ""; FilingDate_2 := "";
  Accession_1 := Accession r; EdgarIndexURL_1 := EdgarIndexURL r;
  OpenAsHTMLURL_1 := OpenAsHTMLURL r;
  PDF_filename_1 := ""; PDF_checksum_1 := ""; PDF_link_1 := "";
  Accession_2 := ""; EdgarIndexURL_2 := ""; OpenAsHTMLURL_2 := "";
  PDF_filename_2 := ""; PDF_checksum_2 := ""; PDF_link_2 := ""
|}.

Definition make_row_pair (task_id cat_label : string) (r1 r2 : FilingRecord) : TaskRow := {|
  TaskID := task_id; Status := ""; TaskerName := ""; Category := cat_label;
  Prompt := ""; Answer := ""; SupportingFacts := "";
  QA_Reviewer := ""; QA_Approval := ""; QA_Final_Approval := ""; Notes := "";
  Company_1 := Company r1; Ticker_1 := Ticker r1; Sector_1 := Sector r1;
  Form_1 := Form r1; Period_1 := get_Period r1; FilingDate_1 := FilingDate r1;
  Company_2 := Company r2; Ticker_2 := Ticker r2; Sector_2 := Sector r2;
  Form_2 := Form r2; Period_2 := get_Period r2; FilingDate_2 := FilingDate r2;
  Accession_1 := Accession r1; EdgarIndexURL_1 := EdgarIndexURL r1;
  OpenAsHTMLURL_1 := OpenAsHTMLURL r1;
  PDF_filename_1 := ""; PDF_checksum_1 := ""; PDF_link_1 := "";
  Accession_2 := Accession r2; EdgarIndexURL_2 := EdgarIndexURL r2;
  OpenAsHTMLURL_2 := OpenAsHTMLURL r2;
  PDF_filename_2 := ""; PDF_checksum_2 := ""; PDF_link_2 := ""
|}.

(** The column [df["Year"] = df["FilingDate"].astype(str).str[:4]]. *)
Definition Year (r : FilingRecord) : string := str_prefix 4 (FilingDate r).

(** *** pick_yoy *)

Definition cmp3 (x y : string * string * string) : comparison :=
  let '(a1, b1, c1) := x in
  let '(a2, b2, c2) := y in
  cmp_then (String.compare a1 a2) (cmp_then (String.compare b1 b2) (String.compare c1 c2)).

Definition cmp2 (x y : string * string) : comparison :=
  cmp_then (String.compare (fst x) (fst y)) (String.compare (snd x) (snd y)).

Definition yoy_key (r : FilingRecord) : string * string * string :=
  (Company r, Ticker r, Sector r).

(** The body of the loop over the groups: the anchor [r1] and its partner
    [r2], or nothing when the loop [continue]s. *)
Definition yoy_pair (grp : list FilingRecord) : option (FilingRecord * FilingRecord) :=
  let years := unique String.eqb (map Year grp) in
  if (length years <? 2)%nat then None
  else
    let grp := sort_values (fun a b => String.leb (FilingDate b) (FilingDate a)) grp in
    match grp with
    | [] => None
    | r1 :: _ =>
        match List.filter (fun r => negb (String.eqb (Year r) (Year r1))) grp with
        | [] => None
        | r2 :: _ => Some (r1, r2)
        end
    end.

Definition yoy_candidates (two_df : ManifestTable)
    : list (string * string * FilingRecord * FilingRecord) :=
  let out :=
    flat_map (fun g : (string * string * string) * list FilingRecord =>
                let '(company, ticker, sector) := fst g in
                match yoy_pair (snd g) with
                | Some (r1, r2) => [(sector, company, r1, r2)]
                | None => []
                end)
             (groupby cmp3 yoy_key two_df) in
  sort_values (le_of (fun x y : string * string * FilingRecord * FilingRecord =>
                        cmp2 (fst (fst x)) (fst (fst y)))) out.

Definition pick_yoy (two_df : ManifestTable) (k : Z) : list TaskRow :=
  map (fun ix : nat * (string * string * FilingRecord * FilingRecord) =>
         let '(i, (_, _, r1, r2)) := ix in
         make_row_pair ("C_YOY_" +:+ fmt02 i) "C (YoY)" r1 r2)
      (enumerate1 (slice_to k (yoy_candidates two_df))).

(** *** pick_peers *)

(** [for j, row in enumerate(out, start=1): row["TaskID"] = f"C_PEER_{j:02d}"]. *)
Definition number_peers (out : list TaskRow) : list TaskRow :=
  map (fun jr : nat * TaskRow => set_TaskID ("C_PEER_" +:+ fmt02 (fst jr)) (snd jr))
      (enumerate1 out).

(** One pairing loop: every pair is appended to [out]; as soon as [out] holds
    [k] rows or more the function returns ([inl]), otherwise the loop runs to
    its end ([inr]). *)
Fixpoint collect_pairs (k : Z) (out : list TaskRow)
    (pairs : list (FilingRecord * FilingRecord)) : list TaskRow + list TaskRow :=
  match pairs with
  | [] => inr out
  | (r1, r2) :: rest =>
      let out := out ++ [make_row_pair "PENDING" "C (Peer)" r1 r2] in
      if Z.of_nat (length out) >=? k then inl (number_peers out)
      else collect_pairs k out rest
  end.

(** The rows left after [df[~df.apply(... in used_companies ...)]]. *)
Definition peer_pool (ab_df : ManifestTable) (used_companies : list (string * string))
    : ManifestTable :=
  List.filter (fun r => negb (existsb (fun u => eq_of cmp2 (Company r, Ticker r) u)
                                      used_companies)) ab_df.

(** Stage 1: the pairs of the nested loops over sector and year, in the order
    the loops meet them. *)
Definition stage1_pairs (df : ManifestTable) : list (FilingRecord * FilingRecord) :=
  flat_map (fun g : string * list FilingRecord =>
              flat_map (fun gy : string * list FilingRecord =>
                          pair_up (sort_values
                                     (fun a b => String.leb (Company a) (Company b))
                                     (snd gy)))
                       (groupby String.compare Year (snd g)))
           (groupby String.compare Sector df).

(** Stage 2: the pairs of the loop over sectors, years mixed. *)
Definition stage2_pairs (df : ManifestTable) : list (FilingRecord * FilingRecord) :=
  flat_map (fun g : string * list FilingRecord =>
              pair_up (sort_values
                         (le_of (fun a b => cmp2 (Year a, Company a) (Year b, Company b)))
                         (snd g)))
           (groupby String.compare Sector df).

(** The two pairing loops of [pick_peers], on the rows that the filter
    leaves. *)
Definition paired_peers (ab_df : ManifestTable) (k : Z)
    (used_companies : list (string * string)) : list TaskRow :=
  let df := peer_pool ab_df used_companies in
  match collect_pairs k [] (stage1_pairs df) with
  | inl out => out
  | inr out =>
      if Z.of_nat (length out) <? k then
        match collect_pairs k out (stage2_pairs df) with
        | inl out => out
        | inr out => slice_to k (number_peers out)
        end
      else slice_to k (number_peers out)
  end.

(** [pick_peers]. On a frame without rows [df.apply(..., axis=1)] gives no
    boolean mask; the selection by it has lost the columns, and
    [df.groupby("Sector")] raises [KeyError]: [None]. *)
Definition pick_peers (ab_df : ManifestTable) (k : Z)
    (used_companies : list (string * string)) : option (list TaskRow) :=
  match ab_df with
  | [] => None
  | _ :: _ => Some (paired_peers ab_df k used_companies)
  end.

(** *** assemble *)

Definition ab_order (a b : FilingRecord) : comparison :=
  cmp_then (String.compare (Sector a) (Sector b))
    (cmp_then (String.compare (Company a) (Company b))
              (String.compare (FilingDate b) (FilingDate a))).

Definition sort_ab (ab : ManifestTable) : ManifestTable :=
  sort_values (le_of ab_order) ab.

Definition a_rows (ab_sorted : ManifestTable) (a_count : Z) : option (list TaskRow) :=
  mapM (fun i => make_row_single ("A_" +:+ fmt02 (Z.to_nat i + 1)) "A" <$> iloc ab_sorted i)
       (range (Z.min a_count (Z.of_nat (length ab_sorted)))).

Definition b_rows (ab_sorted : ManifestTable) (a_count b_count : Z) : option (list TaskRow) :=
  let b_start := Z.min a_count (Z.of_nat (length ab_sorted)) in
  let b_end := Z.min (b_start + b_count) (Z.of_nat (length ab_sorted)) in
  mapM (fun i => make_row_single ("B_" +:+ fmt02 (Z.to_nat i + 1)) "B"
                   <$> iloc ab_sorted (b_start + i))
       (range (Z.max 0 (b_end - b_start))).

(** The members of [used_companies], as the comprehension meets them. *)
Definition used_of (yoy_rows : list TaskRow) : list (string * string) :=
  map (fun r => (Company_1 r, Ticker_1 r)) yoy_rows.

(** [all_rows], given the order [used] in which the set [used_companies]
    happens to store its members. *)
Definition all_rows_with (used : list (string * string)) (ab two : ManifestTable)
    (a_count b_count c_yoy_count c_peer_count : Z) : option (list TaskRow) :=
  let ab_sorted := sort_ab ab in
  a ← a_rows ab_sorted a_count;
  b ← b_rows ab_sorted a_count b_count;
  let yoy_rows := pick_yoy two c_yoy_count in
  peer_rows ← pick_peers ab_sorted c_peer_count used;
  Some (a ++ b ++ yoy_rows ++ peer_rows).

(** [pd.DataFrame(all_rows, columns=COLUMNS)]: the header and, for every row,
    its cells in the order of the header. *)
Record MasterTable : Type := { header : list string; body : list (list string) }.

Definition to_table (all_rows : list TaskRow) : MasterTable :=
  {| header := COLUMNS;
     body := map (fun r => map (fun c => default "" (row_get r c)) COLUMNS) all_rows |}.

(** A Python [set] keeps its members in an order that depends on the hashes
    of the run; any duplicate-free list with the same members is a possible
    layout. *)
Definition set_layout {A} (members layout : list A) : Prop :=
  NoDup layout /\ forall x, In x layout <-> In x members.

(** A run of [assemble]: the table written to [out_path], or [None] when the
    run stops on an exception. *)
Inductive assemble_run (ab two : ManifestTable) (a_count b_count c_yoy_count c_peer_count : Z)
    : option MasterTable -> Prop :=
| Run (used : list (string * string)) :
    set_layout (used_of (pick_yoy two c_yoy_count)) used ->
    assemble_run ab two a_count b_count c_yoy_count c_peer_count
      (to_table <$> all_rows_with used ab two a_count b_count c_yoy_count c_peer_count).

(** The run in which the set lists its members in order of insertion. *)
Definition all_rows (ab two : ManifestTable)
    (a_count b_count c_yoy_count c_peer_count : Z) : option (list TaskRow) :=
  all_rows_with (unique (eq_of cmp2) (used_of (pick_yoy two c_yoy_count)))
                ab two a_count b_count c_yoy_count c_peer_count.

Definition assemble (ab two : ManifestTable)
    (a_count b_count c_yoy_count c_peer_count : Z) : option MasterTable :=
  to_table <$> all_rows ab two a_count b_count c_yoy_count c_peer_count.

End Assembler.

(** ** finalize_pdfs_offline.py *)

Module Finalizer.
Import Py.

Definition BLOCK_SNIPPET : string :=
  "Your Request Originates from an Undeclared Automated Tool".

(** A cell of the table read by [pd.read_csv]. An empty cell reads as NaN. A
    cell read as a number equal to zero or as [False] is falsy: [Falsy] holds
    its [str()]. Any other cell is truthy or a string and stands for its
    [str()]. A row is the mapping from column names to cells; [row.get(col)]
    is the lookup, [None] when the table has no such column. *)
Inductive Cell : Type := NaN | Str (s : string) | Falsy (printed : string).

Abbreviation Row := (gmap string Cell).

Record DataFrame : Type := { columns : list string; rows : list Row }.

(** The characters that the second [re.sub] removes: the double quote (code
    34), the backslash, the slash, the colon, the star, the question mark, the
    angle brackets and the bar. *)
Definition unsafe_chars : list ascii :=
  ascii_of_N 34 :: list_ascii_of_string "\/:*?<>|".

Definition is_unsafe (c : ascii) : bool := existsb (Ascii.eqb c) unsafe_chars.

Definition _sanitize (value : option Cell) : string :=
  match value with
  | None | Some NaN => ""
  | Some (Str s) | Some (Falsy s) =>
      let text := strip s in
      let text := remove_chars is_space text in
      str_prefix 150 (remove_chars is_unsafe text)
  end.

Definition _clean_url (value : option Cell) : string :=
  match value with
  | None | Some NaN => ""
  | Some (Str s) | Some (Falsy s) =>
      let s := strip s in
      if String.eqb s "" || String.eqb (lower s) "nan" then "" else s
  end.

(** [f"{name}_{idx}"]. *)
Definition col (name : string) (idx : nat) : string := name +:+ "_" +:+ decimal idx.

Definition _determine_filename (row : Row) (idx : nat) : string :=
  let parts := [
    _sanitize (row !! "TaskID");
    _sanitize (row !! col "Ticker" idx);
    _sanitize (row !! col "Form" idx);
    _sanitize (row !! col "Period" idx);
    _sanitize (row !! col "FilingDate" idx)
  ] in
  let parts := if (idx =? 2)%nat then parts ++ ["doc2"] else parts in
  let base := String.concat "_" (List.filter (fun p => negb (String.eqb p "")) parts) in
  let base := if String.eqb base "" then "row_" +:+ decimal idx else base in
  base +:+ ".pdf".

(** *** The world around the script

    The remote server, the random generator, the headless browser and the
    digest are outside the program: the [n]-th request, draw or rendering gets
    the [n]-th answer of the environment. Durations are rationals, the
    rounding of floating point is left out.

    Two answers of the environment depend on the versions of Python and of
    pandas and on the file system. [stat_fails] holds of the paths on which
    [Path.exists()] raises [OSError] instead of answering (up to Python 3.11,
    a name longer than the file system allows). [rejects_text] holds of the
    columns to which [df.at[...] = text] raises [TypeError] (under pandas 3,
    the columns that [read_csv] gave a numeric or boolean dtype, those
    with empty cells only included; under pandas 2, none). *)
Inductive Response : Type :=
| Failed                 (* an exception: network, HTTP status, write *)
| Page (text : string).  (* [r.text] of a successful response *)

Record Env : Type := {
  server : nat -> Response;
  rng_bits : nat -> N;
  chromium : nat -> option string;   (* the bytes of the PDF, or an exception *)
  sha256_hex : string -> string;
  stat_fails : string -> bool;
  rejects_text : string -> bool
}.

(** The exceptions that nothing in the script catches. *)
Inductive Exn : Type := ValueError | OSError | TypeError.

Inductive Outcome (A : Type) : Type :=
| Returned (x : A)
| Raised (e : Exn).

Arguments Returned {A} x.
Arguments Raised {A} e.

Inductive Event : Type :=
| Get (url : string)
| Sleep (seconds : Q)
| Render (html pdf : string).

(** The state the run threads through its loops. [unit_of_work] is the row and
    the slot being processed; every call to the outside is recorded in [trace]
    together with it. *)
Record State : Type := {
  df_rows : list Row;
  html_cache : gmap string string;
  outdir : gmap string string;
  failed_rows : list (option Cell * string * string);
  gets : nat;
  draws : nat;
  renders : nat;
  unit_of_work : nat * nat;
  trace : list (nat * nat * Event)
}.

Definition with_df (f : list Row -> list Row) (s : State) : State :=
  {| df_rows := f (df_rows s); html_cache := html_cache s; outdir := outdir s;
     failed_rows := failed_rows s; gets := gets s; draws := draws s;
     renders := renders s; unit_of_work := unit_of_work s; trace := trace s |}.

Definition with_html_cache (f : gmap string string -> gmap string string) (s : State) : State :=
  {| df_rows := df_rows s; html_cache := f (html_cache s); outdir := outdir s;
     failed_rows := failed_rows s; gets := gets s; draws := draws s;
     renders := renders s; unit_of_work := unit_of_work s; trace := trace s |}.

Definition with_outdir (f : gmap string string -> gmap string string) (s : State) : State :=
  {| df_rows := df_rows s; html_cache := html_cache s; outdir := f (outdir s);
     failed_rows := failed_rows s; gets := gets s; draws := draws s;
     renders := renders s; unit_of_work := unit_of_work s; trace := trace s |}.

Definition with_failed_rows (f : list (option Cell * string * string) ->
                                 list (option Cell * string * string)) (s : State) : State :=
  {| df_rows := df_rows s; html_cache := html_cache s; outdir := outdir s;
     failed_rows := f (failed_rows s); gets := gets s; draws := draws s;
     renders := renders s; unit_of_work := unit_of_work s; trace := trace s |}.

Definition with_unit_of_work (u : nat * nat) (s : State) : State :=
  {| df_rows := df_rows s; html_cache := html_cache s; outdir := outdir s;
     failed_rows := failed_rows s; gets := gets s; draws := draws s;
     renders := renders s; unit_of_work := u; trace := trace s |}.

Definition record (e : Event) (s : State) : State :=
  {| df_rows := df_rows s; html_cache := html_cache s; outdir := outdir s;
     failed_rows := failed_rows s; gets := gets s; draws := draws s;
     renders := renders s; unit_of_work := unit_of_work s;
     trace := trace s ++ [(unit_of_work s, e)] |}.

Definition next_get (s : State) : State :=
  {| df_rows := df_rows s; html_cache := html_cache s; outdir := outdir s;
     failed_rows := failed_rows s; gets := S (gets s); draws := draws s;
     renders := renders s; unit_of_work := unit_of_work s; trace := trace s |}.

Definition next_draw (s : State) : State :=
  {| df_rows := df_rows s; html_cache := html_cache s; outdir := outdir s;
     failed_rows := failed_rows s; gets := gets s; draws := S (draws s);
     renders := renders s; unit_of_work := unit_of_work s; trace := trace s |}.

Definition next_render (s : State) : State :=
  {| df_rows := df_rows s; html_cache := html_cache s; outdir := outdir s;
     failed_rows := failed_rows s; gets := gets s; draws := draws s;
     renders := S (renders s); unit_of_work := unit_of_work s; trace := trace s |}.

(** The monad of the run: a step returns a value or raises, and leaves a
    state in both cases; what follows a step that raised is not run. *)
Definition M (A : Type) : Type := State -> Outcome A * State.

Definition ret {A} (x : A) : M A := fun s => (Returned x, s).

Definition raise {A} (e : Exn) : M A := fun s => (Raised e, s).

Definition bind {A B} (m : M A) (f : A -> M B) : M B :=
  fun s => let (o, s') := m s in
           match o with
           | Returned x => f x s'
           | Raised e => (Raised e, s')
           end.

Declare Scope run_scope.
Delimit Scope run_scope with run.
Notation "'do' x <- m ; k" := (bind m (fun x => k))
  (at level 10, x name, m at level 100, k at level 200) : run_scope.
Notation "m ;; k" := (bind m (fun _ => k))
  (at level 100, k at level 200, right associativity) : run_scope.
Local Open Scope run_scope.

Definition modify (f : State -> State) : M unit := fun s => (Returned tt, f s).

(** A value read off the state. *)
Definition read {A} (f : State -> A) : M A := fun s => (Returned (f s), s).

(** [session.get(url, timeout=60)], [raise_for_status()] and [r.text]; the
    exceptions are caught by the caller and are the answer [Failed]. *)
Definition http_get (env : Env) (url : string) : M Response :=
  fun s => (Returned (server env (gets s)), next_get (record (Get url) s)).

(** [random.random()]. *)
Definition random (env : Env) : M Q :=
  fun s => (Returned (random_value (rng_bits env (draws s))), next_draw s).

(** [time.sleep(seconds)]: [ValueError] on a negative duration. *)
Definition sleep (seconds : Q) : M unit :=
  if Qle_bool 0 seconds then modify (record (Sleep seconds)) else raise ValueError.

(** [path.exists()], for a path of the directory [files]. *)
Definition path_exists (env : Env) (files : State -> gmap string string) (path : string)
    : M bool :=
  if stat_fails env path then raise OSError
  else read (fun s => bool_decide (is_Some (files s !! path))).

Definition _download_html_once (env : Env) (url path : string) : M bool :=
  do r <- http_get env url;
  match r with
  | Failed => ret false
  | Page text =>
      if contains (lower BLOCK_SNIPPET) (lower text) then ret false
      else modify (with_html_cache <[path := text]>) ;; ret true
  end.

(** The loop [for attempt in range(1, max_fetch_retries + 2)], on the
    attempts still to be made. *)
Fixpoint retry_loop (env : Env) (url path : string) (sleep_min sleep_max : Q)
    (attempts : list nat) : M bool :=
  match attempts with
  | [] => ret false
  | attempt :: rest =>
      do ok <- _download_html_once env url path;
      if ok then ret true
      else
        do u <- random env;
        let sleep_s := ((sleep_min + u * (sleep_max - sleep_min))
                        + inject_Z (Z.of_nat attempt) * (6 # 10))%Q in
        sleep sleep_s ;;
        retry_loop env url path sleep_min sleep_max rest
  end.

Definition _download_html_with_retries (env : Env) (url path : string)
    (sleep_min sleep_max : Q) (max_fetch_retries : Z) : M bool :=
  retry_loop env url path sleep_min sleep_max
             (seq 1 (Z.to_nat (max_fetch_retries + 2 - 1))).

(** [page.goto(file_url)] and [page.pdf(path=pdf_path, ...)]; every
    exception is caught. *)
Definition _render_local_html (env : Env) (html_path pdf_path : string) : M bool :=
  fun s =>
    let s' := next_render (record (Render html_path pdf_path) s) in
    match chromium env (renders s) with
    | Some bytes => (Returned true, with_outdir <[pdf_path := bytes]> s')
    | None => (Returned false, s')
    end.

(** [_checksum(path)], for a file of the directory of the PDFs. *)
Definition _checksum (env : Env) (path : string) : M string :=
  fun s => match outdir s !! path with
           | Some bytes => (Returned (sha256_hex env bytes), s)
           | None => (Raised OSError, s)
           end.

(** *** main *)

Record Args : Type := {
  overwrite : bool;
  only_missing : bool;
  sleep_min : Q;
  sleep_max : Q;
  max_fetch_retries : Z
}.

(** [max(a, b)] on numbers: [b] when it is the greater, else [a]. *)
Definition py_max (a b : Q) : Q := if Qle_bool b a then a else b.

(** [str(value or "").strip()]: NaN is truthy and prints as [nan]; a zero
    and [False] are falsy and give way to the empty string. *)
Definition filename_mark (value : option Cell) : string :=
  match value with
  | None => ""
  | Some NaN => strip "nan"
  | Some (Str s) => strip s
  | Some (Falsy _) => strip ""
  end.

Definition log_failure (task_id : option Cell) (url reason : string) : M unit :=
  modify (with_failed_rows (fun l => l ++ [(task_id, url, reason)])).

(** [df.at[idx_row, column] = value], for a text [value]: [TypeError] when
    the column does not take text. *)
Definition set_cell (env : Env) (idx_row : nat) (column value : string) : M unit :=
  if rejects_text env column then raise TypeError
  else modify (with_df (alter <[column := Str value]> idx_row)).

(** The body of the loop [for doc_idx in (1, 2)] for one row. *)
Definition process_doc (env : Env) (args : Args) (sleep_min sleep_max : Q)
    (max_fetch_retries : Z) (idx_row : nat) (row : Row) (doc_idx : nat) : M unit :=
  modify (with_unit_of_work (idx_row, doc_idx)) ;;
  let url := _clean_url (row !! col "OpenAsHTMLURL" doc_idx) in
  if String.eqb url "" then ret tt
  else if only_missing args
          && negb (String.eqb (filename_mark (row !! col "PDF_filename" doc_idx)) "")
  then ret tt
  else
    let filename := _determine_filename row doc_idx in
    let pdf_path := filename in
    let html_path := replace ".pdf" ".html" filename in
    let render_step : M unit :=
      do size <- read (fun s => match html_cache s !! html_path with
                                | Some text => utf8_size text
                                | None => 0
                                end);
      if size <? 1024 then
        log_failure (row !! "TaskID") url
                    ("html_too_small(" +:+ decimal (Z.to_nat size) +:+ ")")
      else
        do ok <- _render_local_html env html_path pdf_path;
        do present <- (if ok then path_exists env outdir pdf_path else ret false);
        if present then
          set_cell env idx_row (col "PDF_filename" doc_idx) filename ;;
          do digest <- _checksum env pdf_path;
          set_cell env idx_row (col "PDF_checksum" doc_idx) digest
        else log_failure (row !! "TaskID") url "render_failed" in
    do cached <- path_exists env html_cache html_path;
    let need_download := negb cached || overwrite args in
    if need_download then
      do ok <- _download_html_with_retries env url html_path sleep_min sleep_max
                 max_fetch_retries;
      if negb ok then
        log_failure (row !! "TaskID") url "download_failed_or_blocked"
      else
        do u <- random env;
        sleep (sleep_min + u * (sleep_max - sleep_min))%Q ;;
        render_step
    else render_step.

Fixpoint for_each {A} (body : A -> M unit) (l : list A) : M unit :=
  match l with
  | [] => ret tt
  | x :: l' => body x ;; for_each body l'
  end.

(** [_ensure_cols]. *)
Definition required_columns : list string :=
  ["TaskID"; "OpenAsHTMLURL_1"; "OpenAsHTMLURL_2"; "Ticker_1"; "Form_1"; "FilingDate_1"].

Definition pdf_columns : list string :=
  ["PDF_filename_1"; "PDF_checksum_1"; "PDF_filename_2"; "PDF_checksum_2"].

Definition has_column (df : DataFrame) (c : string) : bool :=
  existsb (String.eqb c) (columns df).

(** [if col not in df.columns: df[col] = ""]. *)
Definition add_missing_column (df : DataFrame) (c : string) : DataFrame :=
  if has_column df c then df
  else {| columns := columns df ++ [c]; rows := map <[c := Str ""]> (rows df) |}.

(** The loop [for col in ("PDF_filename_1", ...)] that completes the table. *)
Definition with_pdf_columns (df : DataFrame) : DataFrame :=
  fold_left add_missing_column pdf_columns df.

(** The loop [for idx_row, row in df.iterrows()]; the rows are the ones of the
    table at the start of the loop. *)
Definition main_loop (env : Env) (args : Args) (sleep_min sleep_max : Q)
    (max_fetch_retries : Z) (table : list Row) : M unit :=
  for_each (fun ir : nat * Row =>
              for_each (process_doc env args sleep_min sleep_max max_fetch_retries
                                    (fst ir) (snd ir))
                       [1; 2]%nat)
           (combine (seq 0 (length table)) table).

Definition initial_state (table : list Row) (cache pdfs : gmap string string) : State :=
  {| df_rows := table; html_cache := cache; outdir := pdfs; failed_rows := [];
     gets := 0; draws := 0; renders := 0; unit_of_work := (0, 0)%nat; trace := [] |}.

(** A run of the script on the table [df], with the files [cache] and [pdfs]
    left by earlier runs: [None] when [_ensure_cols] stops it or an exception
    ends the loop before the table is written, else the columns of the table
    written at the end and the final state. *)
Definition main (env : Env) (args : Args) (df : DataFrame)
    (cache pdfs : gmap string string) : option (list string * State) :=
  let sleep_min' := sleep_min args in
  let sleep_max' := py_max (sleep_min args) (sleep_max args) in
  let max_fetch_retries' := Z.max 0 (max_fetch_retries args) in
  if forallb (has_column df) required_columns then
    let df := with_pdf_columns df in
    match main_loop env args sleep_min' sleep_max' max_fetch_retries' (rows df)
            (initial_state (rows df) cache pdfs) with
    | (Returned _, final) => Some (columns df, final)
    | (Raised _, _) => None
    end
  else None.

End Finalizer.

(** ** build_manifest_dual_public.py *)

Module ManifestBuilder.
Import Py.

(** A scalar of the submissions document. *)
Inductive Json : Type :=
| JNull
| JBool (b : bool)
| JInt (z : Z)
| JStr (s : string).

(** [bool(v)]. *)
Definition truthy (v : Json) : bool :=
  match v with
  | JNull => false
  | JBool b => b
  | JInt z => negb (z =? 0)
  | JStr s => negb (String.eqb s "")
  end.

(** [data["filings"]["recent"]]: five parallel columns; a column the document
    lacks is the empty list. *)
Record Recent : Type := {
  form : list Json;
  filingDate : list Json;
  accessionNumber : list Json;
  reportDate : list Json;
  primaryDocument : list Json
}.

(** The dict appended to [rows]. *)
Record Pick : Type := {
  Form : string;
  FilingDate : string;
  Accession : Json;
  Period : Json;
  PrimaryDocument : Json
}.

Definition Entry : Type := Json * Json * Json * Json * Json.

(** [zip(forms_list, filing_dates, accessions, report_dates, primary_docs)]:
    as long as the shortest column. *)
Fixpoint zip5 (l1 l2 l3 l4 l5 : list Json) : list Entry :=
  match l1, l2, l3, l4, l5 with
  | x1 :: t1, x2 :: t2, x3 :: t3, x4 :: t4, x5 :: t5 =>
      (x1, x2, x3, x4, x5) :: zip5 t1 t2 t3 t4 t5
  | _, _, _, _, _ => []
  end.

(** The row an entry gives, or nothing when one of the two [continue]s is
    taken. *)
Definition pick_of (forms : list string) (min_date : string) (e : Entry) : option Pick :=
  let '(form, fdate, accn, repdate, primary) := e in
  match form, fdate with
  | JStr f, JStr d =>
      if negb (existsb (String.eqb f) forms) then None
      else if String.ltb d min_date then None
      else Some {| Form := f; FilingDate := d; Accession := accn;
                   Period := if truthy repdate then repdate
                             else JStr (if (4 <=? String.length d)%nat
                                        then str_prefix 4 d else "");
                   PrimaryDocument := primary |}
  | _, _ => None
  end.

(** The loop over the entries, with the rows collected so far; it breaks as
    soon as [rows] holds [max_per_company] rows or more. *)
Fixpoint pick_loop (forms : list string) (min_date : string) (max_per_company : Z)
    (rows : list Pick) (entries : list Entry) : list Pick :=
  match entries with
  | [] => rows
  | e :: rest =>
      match pick_of forms min_date e with
      | None => pick_loop forms min_date max_per_company rows rest
      | Some row =>
          let rows := rows ++ [row] in
          if Z.of_nat (length rows) >=? max_per_company then rows
          else pick_loop forms min_date max_per_company rows rest
      end
  end.

Definition pick_filings (recent : Recent) (forms : list string) (min_date : string)
    (max_per_company : Z) : list Pick :=
  pick_loop forms min_date max_per_company []
            (zip5 (form recent) (filingDate recent) (accessionNumber recent)
                  (reportDate recent) (primaryDocument recent)).

End ManifestBuilder.

(** * Vocabulary of the properties, and sample tables *)

Import Py.
Import Assembler.

(** The rows of one category carry the TaskIDs [prefix_01], [prefix_02], ...
    in this order, and the label of the category. *)
Definition numbered (prefix cat : string) (l : list TaskRow) : Prop :=
  map TaskID l = map (fun i => prefix +:+ fmt02 i) (seq 1 (length l)) /\
  Forall (fun r => Category r = cat) l.

Definition peer_row (p : FilingRecord * FilingRecord) : TaskRow :=
  make_row_pair "PENDING" "C (Peer)" (fst p) (snd p).

(** A comparison that orders its arguments. *)
Record Ordering {A} (cmp : A -> A -> comparison) : Prop := {
  ord_refl : forall x, cmp x x = Eq;
  ord_antisym : forall x y, cmp x y = CompOpp (cmp y x);
  ord_lt_trans : forall x y z, cmp x y = Lt -> cmp y z = Lt -> cmp x z = Lt;
  ord_eq_l : forall x y z, cmp x y = Eq -> cmp x z = cmp y z
}.

(** [a >= b] on [str]. *)
Definition str_ge (a b : string) : bool := String.leb b a.

(** A manifest row of the company [c] in sector [s] that filed on [d]. *)
Definition filing (c t s d : string) : FilingRecord :=
  {| Company := c; Ticker := t; Sector := s; Form := "10-K";
     Period := Some (str_prefix 4 d); FilingDate := d;
     Accession := "0000000000-24-000001";
     EdgarIndexURL := "https://www.sec.gov/Archives/edgar/data/1/index.html";
     OpenAsHTMLURL := "https://www.sec.gov/Archives/edgar/data/1/doc.htm" |}.

Definition sample_ab : ManifestTable :=
  [filing "Beta" "BETA" "Tech" "2024-02-01"; filing "Alpha" "ALFA" "Tech" "2024-01-15"].

Definition sample_two : ManifestTable :=
  [filing "Gamma" "GAMA" "Tech" "2024-11-01"; filing "Gamma" "GAMA" "Tech" "2023-11-01";
   filing "Delta" "DELT" "Energy" "2024-10-01"; filing "Delta" "DELT" "Energy" "2023-10-02"].

Definition sample_yoy_row : TaskRow :=
  make_row_pair "C_YOY_02" "C (YoY)"
    (filing "Gamma" "GAMA" "Tech" "2024-11-01") (filing "Gamma" "GAMA" "Tech" "2023-11-01").

(** The TaskID prefix of each category label. *)
Definition category_prefixes : list (string * string) :=
  [("A_", "A"); ("B_", "B"); ("C_YOY_", "C (YoY)"); ("C_PEER_", "C (Peer)")].

(** The rows of the table that carry the label [cat], in table order. *)
Definition rows_of_category (cat : string) (rows : list TaskRow) : list TaskRow :=
  List.filter (fun r => String.eqb (Category r) cat) rows.

(** A manifest of a hundred companies of one sector. *)
Definition hundred_ab : ManifestTable :=
  map (fun i => filing ("Company " +:+ decimal (100 + i)) ("T" +:+ decimal (100 + i))
                       "Tech" "2024-03-01")
      (seq 1 100).

(** What a slot of a row holds: the fields of a manifest row, or nothing. *)
Definition slot1_of (f : FilingRecord) (r : TaskRow) : Prop :=
  Company_1 r = Company f /\ Ticker_1 r = Ticker f /\ Sector_1 r = Sector f /\
  Form_1 r = Form f /\ Period_1 r = get_Period f /\ FilingDate_1 r = FilingDate f /\
  Accession_1 r = Accession f /\ EdgarIndexURL_1 r = EdgarIndexURL f /\
  OpenAsHTMLURL_1 r = OpenAsHTMLURL f.

Definition slot2_of (f : FilingRecord) (r : TaskRow) : Prop :=
  Company_2 r = Company f /\ Ticker_2 r = Ticker f /\ Sector_2 r = Sector f /\
  Form_2 r = Form f /\ Period_2 r = get_Period f /\ FilingDate_2 r = FilingDate f /\
  Accession_2 r = Accession f /\ EdgarIndexURL_2 r = EdgarIndexURL f /\
  OpenAsHTMLURL_2 r = OpenAsHTMLURL f.

Definition slot2_empty (r : TaskRow) : Prop :=
  Company_2 r = "" /\ Ticker_2 r = "" /\ Sector_2 r = "" /\
  Form_2 r = "" /\ Period_2 r = "" /\ FilingDate_2 r = "" /\
  Accession_2 r = "" /\ EdgarIndexURL_2 r = "" /\ OpenAsHTMLURL_2 r = "" /\
  PDF_filename_2 r = "" /\ PDF_checksum_2 r = "" /\ PDF_link_2 r = "".

(** The cells of a row, in the order of the docstring of [assemble_master.py]. *)
Definition cells_in_order (r : TaskRow) : list string := [
  TaskID r; Status r; TaskerName r; Category r; Prompt r; Answer r; SupportingFacts r;
  QA_Reviewer r; QA_Approval r; QA_Final_Approval r; Notes r;
  Company_1 r; Ticker_1 r; Sector_1 r; Form_1 r; Period_1 r; FilingDate_1 r;
  Company_2 r; Ticker_2 r; Sector_2 r; Form_2 r; Period_2 r; FilingDate_2 r;
  Accession_1 r; EdgarIndexURL_1 r; OpenAsHTMLURL_1 r;
  PDF_filename_1 r; PDF_checksum_1 r; PDF_link_1 r;
  Accession_2 r; EdgarIndexURL_2 r; OpenAsHTMLURL_2 r;
  PDF_filename_2 r; PDF_checksum_2 r; PDF_link_2 r
].

(** The columns the spec enumerates: the task fields, the three QA fields and
    the notes, the six filing fields of each slot, the six provenance fields
    of each slot. *)
Definition task_columns : list string :=
  ["TaskID"; "Status"; "TaskerName"; "Category"; "Prompt"; "Answer"; "SupportingFacts"].

Definition qa_columns : list string :=
  ["QA_Reviewer"; "QA_Approval"; "QA_Final_Approval"].

Definition filing_columns (slot : string) : list string :=
  map (fun c => c +:+ "_" +:+ slot)
      ["Company"; "Ticker"; "Sector"; "Form"; "Period"; "FilingDate"].

Definition provenance_columns (slot : string) : list string :=
  map (fun c => c +:+ "_" +:+ slot)
      ["Accession"; "EdgarIndexURL"; "OpenAsHTMLURL"; "PDF_filename"; "PDF_checksum"; "PDF_link"].

Definition enumerated_columns : list string :=
  task_columns ++ qa_columns ++ ["Notes"]
    ++ filing_columns "1" ++ filing_columns "2"
    ++ provenance_columns "1" ++ provenance_columns "2".

(** The two members of [used_companies] for [sample_two]. *)
Definition gamma_key : string * string := ("Gamma", "GAMA").
Definition delta_key : string * string := ("Delta", "DELT").

(** The rows a category can give: the rows of the AB manifest for A, those
    left after A for B, the companies with filings of two years for C (YoY),
    the pairs of the two stages for C (Peer). *)
Definition available_a (ab : ManifestTable) : Z := Z.of_nat (length ab).

Definition available_b (ab : ManifestTable) (a_count : Z) : Z :=
  Z.of_nat (length ab) - Z.min a_count (available_a ab).

Definition available_yoy (two : ManifestTable) : Z :=
  Z.of_nat (length (yoy_candidates two)).

Definition available_peers (ab two : ManifestTable) (c_yoy_count : Z) : Z :=
  let used := unique (eq_of cmp2) (used_of (pick_yoy two c_yoy_count)) in
  let df := peer_pool (sort_ab ab) used in
  Z.of_nat (length (stage1_pairs df) + length (stage2_pairs df)).

(** The number of rows C1 states: what is available in each category, capped
    at what is requested. *)
Definition stated_row_count (ab two : ManifestTable)
    (a_count b_count c_yoy_count c_peer_count : Z) : Z :=
  Z.min a_count (available_a ab)
  + Z.min b_count (available_b ab a_count)
  + Z.min c_yoy_count (available_yoy two)
  + Z.min c_peer_count (available_peers ab two c_yoy_count).

Import Finalizer.

(** The characters of a string, and the strings free of a class of them. *)
Definition chars (s : string) : list ascii := list_ascii_of_string s.

Definition free_of (bad : ascii -> bool) (s : string) : Prop :=
  forall c, In c (chars s) -> bad c = false.

(** The five fields of a slot that make the name, sanitized. *)
Definition sanitized_fields (row : Row) (idx : nat) : list string := [
  _sanitize (row !! "TaskID");
  _sanitize (row !! col "Ticker" idx);
  _sanitize (row !! col "Form" idx);
  _sanitize (row !! col "Period" idx);
  _sanitize (row !! col "FilingDate" idx)
].

Definition non_empty (parts : list string) : list string :=
  List.filter (fun p => negb (String.eqb p "")) parts.

(** A row whose TaskID has the 150 characters the cap allows. *)
Definition long_task_id : string := string_of_list_ascii (repeat "a"%char 150).

Definition long_row : Row :=
  <["TaskID" := Str long_task_id]> (<["Ticker_1" := Str "T"]> ∅).

Definition sample_row : Row :=
  <["TaskID" := Str "A_01"]> (<["Ticker_1" := Str " AA/PL "]>
  (<["Form_1" := Str "10-K"]> (<["FilingDate_1" := Str "2024-11-01"]>
  (<["OpenAsHTMLURL_1" := Str "https://www.sec.gov/Archives/edgar/data/1/doc.htm"]>
  (<["OpenAsHTMLURL_2" := NaN]> (<["PDF_filename_1" := Str "A_01_AAPL_10-K_2024-11-01.pdf"]>
  (<["PDF_checksum_1" := Str "ab12"]> (<["PDF_filename_2" := NaN]>
  (<["PDF_checksum_2" := NaN]> ∅))))))))).

(** An upper bound of the length of a joined list: every part, with a
    separator. *)
Fixpoint joined_length (sep : string) (l : list string) : nat :=
  match l with
  | [] => 0
  | p :: l' => String.length p + String.length sep + joined_length sep l'
  end.

(** A fetch succeeds when the server answers with a page that does not
    carry the block marker. *)
Definition fetch_ok (r : Response) : bool :=
  match r with
  | Failed => false
  | Page text => negb (contains (lower BLOCK_SNIPPET) (lower text))
  end.

(** The randomized part of a sleep, from the draw it uses, and the sleep that
    follows the failed attempt number [attempt]. *)
Definition base_sleep (env : Env) (sleep_min sleep_max : Q) (draw : nat) : Q :=
  (sleep_min + random_value (rng_bits env draw) * (sleep_max - sleep_min))%Q.

Definition retry_sleep (env : Env) (sleep_min sleep_max : Q) (draw attempt : nat) : Q :=
  (base_sleep env sleep_min sleep_max draw + inject_Z (Z.of_nat attempt) * (6 # 10))%Q.

(** The calls to the outside a run made, in order. *)
Definition calls (s : State) : list Event := map snd (trace s).
Arguments calls : simpl never.

(** A server that is down, and a state with no table and no files. *)
Definition offline_env : Env :=
  {| server := fun _ => Failed; rng_bits := fun _ => 0%N;
     chromium := fun _ => None; sha256_hex := fun bytes => bytes;
     stat_fails := fun _ => false; rejects_text := fun _ => false |}.

Definition fresh_state : State := initial_state [] ∅ ∅.

(** The cell of row [i] in column [c]. *)
Definition cell (table : list Row) (i : nat) (c : string) : option Cell :=
  match table !! i with
  | Some row => row !! c
  | None => None
  end.

(** What the work on slot [d] of row [j] may do to the state: record calls
    under its own label, and write the two PDF cells of its slot. *)
Definition touches_only (j d : nat) (s s' : State) : Prop :=
  unit_of_work s = (j, d) ->
  unit_of_work s' = (j, d) /\
  (exists new, trace s' = trace s ++ new /\ forall e, In e new -> fst e = (j, d)) /\
  (forall i c,
     i <> j \/ (c <> col "PDF_filename" d /\ c <> col "PDF_checksum" d) ->
     cell (df_rows s') i c = cell (df_rows s) i c).

Definition quiet (j d : nat) {A} (m : M A) : Prop :=
  forall s, touches_only j d s (snd (m s)).



Definition blank_name_df : DataFrame :=
  {| columns := required_columns ++ pdf_columns;
     rows := [<["PDF_filename_1" := Str " "]> sample_row] |}.


Definition only_missing_args : Args :=
  {| overwrite := false; only_missing := true;
     sleep_min := 8 # 10; sleep_max := 14 # 10; max_fetch_retries := 2 |}.

(** The rows of the AB manifest that [paired_peers] pairs: the sorted manifest
    without the companies of the YoY rows. *)
Definition peer_candidates (ab two : ManifestTable) (c_yoy_count : Z) : ManifestTable :=
  peer_pool (sort_ab ab) (unique (eq_of cmp2) (used_of (pick_yoy two c_yoy_count))).

(** The rows [make_row_single] makes of a list of manifest rows, numbered
    from 1. *)
Definition single_rows (prefix cat : string) (fs : list FilingRecord) : list TaskRow :=
  map (fun jf => make_row_single (prefix +:+ fmt02 (fst jf)) cat (snd jf)) (enumerate1 fs).

(** The order of the sorted AB manifest: [a] may stand before [b] when its
    sector is the lesser one, or in one sector its company is the lesser one,
    or for one company its filing date is not the earlier one. *)
Definition ab_before (a b : FilingRecord) : Prop :=
  String.compare (Sector a) (Sector b) = Lt \/
  (Sector a = Sector b /\
   (String.compare (Company a) (Company b) = Lt \/
    (Company a = Company b /\ str_ge (FilingDate a) (FilingDate b) = true))).

(** The key of the company of a row. *)
Definition company_key (r : TaskRow) : string * string * string :=
  (Company_1 r, Ticker_1 r, Sector_1 r).

(** The file of the HTML cache that a slot uses. *)
Definition html_name (row : Row) (doc_idx : nat) : string :=
  replace ".pdf" ".html" (_determine_filename row doc_idx).

(** The two guards that make the loop pass over a slot: no URL, or a file
    name already there in the [only_missing] mode. *)
Definition skipped (args : Args) (row : Row) (doc_idx : nat) : bool :=
  String.eqb (_clean_url (row !! col "OpenAsHTMLURL" doc_idx)) ""
  || (only_missing args
      && negb (String.eqb (filename_mark (row !! col "PDF_filename" doc_idx)) "")).

(** What can make the work on a slot raise: a path that [exists()] cannot
    examine, a PDF column that does not take text, or settings with which a
    sleep may be negative. *)
Definition may_raise (env : Env) (sleep_min sleep_max : Q) (row : Row) (doc_idx : nat) : Prop :=
  stat_fails env (html_name row doc_idx) = true \/
  stat_fails env (_determine_filename row doc_idx) = true \/
  rejects_text env (col "PDF_filename" doc_idx) = true \/
  rejects_text env (col "PDF_checksum" doc_idx) = true \/
  ~ ((0 <= sleep_min)%Q /\ (sleep_min <= sleep_max)%Q).

(** The reasons that a line of [failed_rows.csv] gives. *)
Definition failure_reason (reason : string) : Prop :=
  reason = "download_failed_or_blocked" \/ reason = "render_failed" \/
  exists size : nat, (size < 1024)%nat /\
                     reason = "html_too_small(" +:+ decimal size +:+ ")".


(** The PDF columns that a table lacks, and a row with the cells of the
    columns [cs] set to the empty string. *)
Definition missing_pdf_columns (df : DataFrame) : list string :=
  List.filter (fun c => negb (has_column df c)) pdf_columns.

Definition fill (cs : list string) (row : Row) : Row :=
  fold_left (fun r c => <[c := Str ""]> r) cs row.

(** A server that answers every request with a page of 1024 bytes, and a
    browser that renders every page. *)
Definition page_text : string := string_of_list_ascii (repeat "a"%char 1024).

Definition online_env : Env :=
  {| server := fun _ => Page page_text; rng_bits := fun _ => 0%N;
     chromium := fun _ => Some "%PDF-1.7"; sha256_hex := fun bytes => bytes;
     stat_fails := fun _ => false; rejects_text := fun _ => false |}.

(** The rows of all the entries of a submissions document that pass the two
    filters of [pick_filings], in the order of the document. *)
Definition matching_filings (recent : ManifestBuilder.Recent) (forms : list string)
    (min_date : string) : list ManifestBuilder.Pick :=
  omap (ManifestBuilder.pick_of forms min_date)
       (ManifestBuilder.zip5 (ManifestBuilder.form recent) (ManifestBuilder.filingDate recent)
          (ManifestBuilder.accessionNumber recent) (ManifestBuilder.reportDate recent)
          (ManifestBuilder.primaryDocument recent)).

(** A submissions document: a current report, then three annual reports, the
    second one without a report date. *)
Definition sample_recent : ManifestBuilder.Recent :=
  {| ManifestBuilder.form :=
       [ManifestBuilder.JStr "8-K"; ManifestBuilder.JStr "10-K";
        ManifestBuilder.JStr "10-K"; ManifestBuilder.JStr "10-K"];
     ManifestBuilder.filingDate :=
       [ManifestBuilder.JStr "2024-12-01"; ManifestBuilder.JStr "2024-11-01";
        ManifestBuilder.JStr "2023-11-03"; ManifestBuilder.JStr "2022-11-01"];
     ManifestBuilder.accessionNumber :=
       [ManifestBuilder.JStr "0000000001-24-000009"; ManifestBuilder.JStr "0000000001-24-000007";
        ManifestBuilder.JStr "0000000001-23-000007"; ManifestBuilder.JStr "0000000001-22-000007"];
     ManifestBuilder.reportDate :=
       [ManifestBuilder.JStr "2024-11-30"; ManifestBuilder.JStr "2024-09-28";
        ManifestBuilder.JStr ""; ManifestBuilder.JStr "2022-09-24"];
     ManifestBuilder.primaryDocument :=
       [ManifestBuilder.JStr "a8k.htm"; ManifestBuilder.JStr "a10k2024.htm";
        ManifestBuilder.JStr "a10k2023.htm"; ManifestBuilder.JStr "a10k2022.htm"] |}.

(** The second annual report of the sample, as [pick_filings] returns it. *)
Definition sample_pick : ManifestBuilder.Pick :=
  {| ManifestBuilder.Form := "10-K"; ManifestBuilder.FilingDate := "2023-11-03";
     ManifestBuilder.Accession := ManifestBuilder.JStr "0000000001-23-000007";
     ManifestBuilder.Period := ManifestBuilder.JStr "2023";
     ManifestBuilder.PrimaryDocument := ManifestBuilder.JStr "a10k2023.htm" |}.

(** * Properties *)

(** ** Facts about the Python primitives *)

Section Formatting.

Lemma parse_decimal_decimal (i : nat) : parse_decimal (decimal i) = Some i.
Proof.
  unfold parse_decimal, decimal.
  rewrite NilEmpty.usu. simpl. f_equal. apply Unsigned.of_to.
Qed.

Lemma parse_decimal_fmt02 (i : nat) : parse_decimal (fmt02 i) = Some i.
Proof.
  unfold fmt02. destruct (String.length (decimal i) <? 2)%nat.
  - pose proof (parse_decimal_decimal i) as H.
    unfold parse_decimal in *. change ("0" +:+ decimal i) with (String "0" (decimal i)).
    simpl. destruct (NilEmpty.uint_of_string (decimal i)) as [d|]; [|discriminate].
    simpl in *. exact H.
  - apply parse_decimal_decimal.
Qed.

Lemma fmt02_inj (i j : nat) : fmt02 i = fmt02 j -> i = j.
Proof.
  intros H. apply (f_equal parse_decimal) in H.
  rewrite !parse_decimal_fmt02 in H. congruence.
Qed.

Lemma append_inj_l (p s1 s2 : string) : p +:+ s1 = p +:+ s2 -> s1 = s2.
Proof. induction p as [|c p IH]; simpl; [auto|]. intros H. injection H. auto. Qed.

Lemma task_id_inj (prefix : string) (i j : nat) :
  prefix +:+ fmt02 i = prefix +:+ fmt02 j -> i = j.
Proof. intros H. apply fmt02_inj. eapply append_inj_l, H. Qed.

Lemma length_append (s1 s2 : string) :
  String.length (s1 +:+ s2) = (String.length s1 + String.length s2)%nat.
Proof. induction s1; simpl; auto. Qed.

End Formatting.

Section Order.

Lemma ascii_compare_trans (a b c : ascii) (o : comparison) :
  Ascii.compare a b = o -> Ascii.compare b c = o -> Ascii.compare a c = o.
Proof.
  unfold Ascii.compare. intros H1 H2.
  destruct o.
  - apply N.compare_eq_iff in H1, H2. apply N.compare_eq_iff. congruence.
  - change (N_of_ascii a < N_of_ascii b)%N in H1.
    change (N_of_ascii b < N_of_ascii c)%N in H2.
    change (N_of_ascii a < N_of_ascii c)%N. lia.
  - change (N_of_ascii a > N_of_ascii b)%N in H1.
    change (N_of_ascii b > N_of_ascii c)%N in H2.
    change (N_of_ascii a > N_of_ascii c)%N. lia.
Qed.

Lemma string_compare_refl (s : string) : String.compare s s = Eq.
Proof.
  induction s as [|c s IH]; simpl; [reflexivity|].
  unfold Ascii.compare. rewrite N.compare_refl. exact IH.
Qed.

Lemma string_compare_lt_trans (s1 s2 s3 : string) :
  String.compare s1 s2 = Lt -> String.compare s2 s3 = Lt -> String.compare s1 s3 = Lt.
Proof.
  revert s2 s3. induction s1 as [|a s1 IH]; intros [|b s2] [|c s3]; simpl;
    try congruence.
  destruct (Ascii.compare a b) eqn:Hab; try discriminate;
    destruct (Ascii.compare b c) eqn:Hbc; try discriminate; intros H1 H2.
  - rewrite (ascii_compare_trans _ _ _ _ Hab Hbc). eauto.
  - apply Ascii.compare_eq_iff in Hab. subst. now rewrite Hbc.
  - apply Ascii.compare_eq_iff in Hbc. subst. now rewrite Hab.
  - now rewrite (ascii_compare_trans _ _ _ _ Hab Hbc).
Qed.

Lemma string_ordering : Ordering String.compare.
Proof.
  split.
  - apply string_compare_refl.
  - apply String.compare_antisym.
  - apply string_compare_lt_trans.
  - intros x y z H. apply String.compare_eq_iff in H. now subst.
Qed.

Lemma le_of_trans {A} (cmp : A -> A -> comparison) (O : Ordering cmp) (x y z : A) :
  le_of cmp x y = true -> le_of cmp y z = true -> le_of cmp x z = true.
Proof.
  unfold le_of. intros H1 H2.
  destruct (cmp x y) eqn:Hxy; try discriminate.
  - now rewrite (ord_eq_l _ O _ _ z Hxy).
  - destruct (cmp y z) eqn:Hyz; try discriminate.
    + assert (Hzy : cmp z y = Eq) by (rewrite (ord_antisym _ O), Hyz; reflexivity).
      assert (H : cmp x z = Lt).
      { rewrite (ord_antisym _ O). rewrite (ord_eq_l _ O _ _ x Hzy).
        rewrite (ord_antisym _ O), Hxy. reflexivity. }
      now rewrite H.
    + now rewrite (ord_lt_trans _ O _ _ _ Hxy Hyz).
Qed.

Lemma string_leb_le_of (s1 s2 : string) : String.leb s1 s2 = le_of String.compare s1 s2.
Proof. reflexivity. Qed.

End Order.

Section Sorting.

Context {A : Type} (le : A -> A -> bool).

Lemma insert_sorted_Permutation (x : A) (l : list A) :
  Permutation (insert_sorted le x l) (x :: l).
Proof.
  induction l as [|y l IH]; simpl; [reflexivity|].
  destruct (le x y); [reflexivity|].
  rewrite IH. apply perm_swap.
Qed.

Lemma sort_values_Permutation (l : list A) : Permutation (sort_values le l) l.
Proof.
  induction l as [|x l IH]; simpl; [reflexivity|].
  rewrite insert_sorted_Permutation. now constructor.
Qed.

Lemma sort_values_In (l : list A) (x : A) : In x (sort_values le l) <-> In x l.
Proof.
  split; apply Permutation_in;
    [apply sort_values_Permutation | symmetry; apply sort_values_Permutation].
Qed.

Lemma length_sort_values (l : list A) : length (sort_values le l) = length l.
Proof. apply Permutation_length, sort_values_Permutation. Qed.

Hypothesis le_total : forall x y, le x y = true \/ le y x = true.
Hypothesis le_trans : forall x y z, le x y = true -> le y z = true -> le x z = true.

Lemma insert_sorted_sorted (x : A) (l : list A) :
  StronglySorted (fun a b => le a b = true) l ->
  StronglySorted (fun a b => le a b = true) (insert_sorted le x l).
Proof.
  induction 1 as [|y l Hl IH Hy]; simpl.
  - repeat constructor.
  - destruct (le x y) eqn:Hxy.
    + constructor; [now constructor|].
      constructor; [exact Hxy|].
      eapply Forall_impl; [exact Hy|]. intros z Hz. eapply le_trans; eauto.
    + constructor; [exact IH|].
      rewrite insert_sorted_Permutation. constructor; [|exact Hy].
      destruct (le_total x y); congruence.
Qed.

Lemma sort_values_sorted (l : list A) :
  StronglySorted (fun a b => le a b = true) (sort_values le l).
Proof.
  induction l; simpl; [constructor | now apply insert_sorted_sorted].
Qed.

(** The first row of a sorted table comes before every row of the table. *)
Lemma sort_values_head (l : list A) (x : A) (t : list A) :
  sort_values le l = x :: t -> forall y, In y l -> le x y = true.
Proof.
  intros Hs y Hy. apply sort_values_In in Hy.
  pose proof (sort_values_sorted l) as S. rewrite Hs in *.
  destruct Hy as [<-|Hy].
  - destruct (le_total x x); assumption.
  - apply StronglySorted_inv in S as [_ S].
    rewrite Forall_forall in S. apply S. now apply list_elem_of_In.
Qed.

End Sorting.

Section Lists.

Context {A : Type}.

Lemma In_firstn (n : nat) (l : list A) (x : A) : In x (firstn n l) -> In x l.
Proof.
  revert l. induction n as [|n IH]; intros [|y l]; simpl; try tauto.
  intros [H|H]; [auto|]. right. now apply IH.
Qed.

Lemma In_slice_to (k : Z) (l : list A) (x : A) : In x (slice_to k l) -> In x l.
Proof. unfold slice_to. destruct (k <? 0); apply In_firstn. Qed.

Lemma In_enumerate1 (l : list A) (i : nat) (x : A) :
  In (i, x) (enumerate1 l) -> In x l.
Proof. apply in_combine_r. Qed.

Lemma In_groupby {K} (cmp : K -> K -> comparison) (key : A -> K) (l : list A)
    (k : K) (g : list A) (x : A) :
  In (k, g) (groupby cmp key l) -> In x g -> In x l /\ cmp (key x) k = Eq.
Proof.
  unfold groupby. intros H Hx.
  apply in_map_iff in H as (k' & [= <- <-] & _).
  apply filter_In in Hx as [Hx E]. split; [exact Hx|].
  unfold eq_of in E. now destruct (cmp (key x) k').
Qed.

Lemma In_pair_up (l : list A) (x y : A) : In (x, y) (pair_up l) -> In x l /\ In y l.
Proof.
  revert x y.
  cut (forall n (l : list A), (length l <= n)%nat ->
         forall x y, In (x, y) (pair_up l) -> In x l /\ In y l).
  { intros H. apply (H (length l)). lia. }
  clear l. induction n as [|n IH]; intros [|a [|b l]] Hlen x y; simpl; try tauto.
  - simpl in Hlen. lia.
  - intros [[= <- <-]|H]; [auto|].
    apply IH in H; [tauto|]. simpl in Hlen. lia.
Qed.

End Lists.

(** ** The Task Assembler *)

Section Numbering.

Lemma map_fst_enumerate1 {A} (l : list A) :
  map fst (enumerate1 l) = seq 1 (length l).
Proof.
  unfold enumerate1. generalize 1%nat.
  induction l as [|x l IH]; intros s; simpl; [reflexivity|]. now rewrite IH.
Qed.

Lemma length_enumerate1 {A} (l : list A) : length (enumerate1 l) = length l.
Proof. unfold enumerate1. rewrite length_combine, length_seq. lia. Qed.

Lemma numbered_of_enumerate1 {A} (prefix cat : string) (f : nat * A -> TaskRow)
    (l : list A) :
  (forall ix, TaskID (f ix) = prefix +:+ fmt02 (fst ix)) ->
  (forall ix, Category (f ix) = cat) ->
  numbered prefix cat (map f (enumerate1 l)).
Proof.
  intros Hid Hcat. split.
  - rewrite length_map, length_enumerate1, <- map_fst_enumerate1.
    rewrite !map_map. apply map_ext. intros ix. apply Hid.
  - apply Forall_forall. intros r Hr. apply list_elem_of_In, in_map_iff in Hr.
    destruct Hr as (ix & <- & _). apply Hcat.
Qed.

Lemma numbered_firstn (prefix cat : string) (n : nat) (l : list TaskRow) :
  numbered prefix cat l -> numbered prefix cat (firstn n l).
Proof.
  intros [Hid Hcat]. split.
  - rewrite <- firstn_map, Hid, firstn_map, length_firstn.
    f_equal. apply take_seq.
  - apply Forall_take, Hcat.
Qed.

(** The rows of a list comprehension over [range], numbered from 1. *)
Lemma numbered_of_range (prefix cat : string) (f : Z -> option TaskRow)
    (n : Z) (l : list TaskRow) :
  (forall i r, f i = Some r ->
     TaskID r = prefix +:+ fmt02 (Z.to_nat i + 1) /\ Category r = cat) ->
  mapM f (range n) = Some l -> numbered prefix cat l.
Proof.
  intros Hf H. apply mapM_Some_1 in H. unfold range in H.
  assert (G : forall (s : nat) (l : list TaskRow) (m : nat),
             Forall2 (fun i r => f i = Some r) (map Z.of_nat (seq s m)) l ->
             map TaskID l = map (fun i => prefix +:+ fmt02 i) (seq (s + 1) (length l)) /\
             Forall (fun r => Category r = cat) l).
  { clear l H. intros s l m. revert s l.
    induction m as [|m IH]; intros s l H; simpl in H.
    - apply Forall2_nil_inv_l in H. subst. split; [reflexivity|constructor].
    - apply Forall2_cons_inv_l in H as (r & l' & Hr & Hl & ->).
      apply Hf in Hr as [Hid Hc]. apply IH in Hl as [Hids Hcs].
      rewrite Nat2Z.id in Hid. simpl. split.
      + rewrite Hid, Hids. replace (S s + 1)%nat with (S (s + 1)) by lia. reflexivity.
      + constructor; assumption. }
  apply (G 0%nat l _ H).
Qed.

End Numbering.

Section Shape.

Lemma a_rows_numbered (ab_sorted : ManifestTable) (a_count : Z) (l : list TaskRow) :
  a_rows ab_sorted a_count = Some l -> numbered "A_" "A" l.
Proof.
  apply numbered_of_range. intros i r H.
  destruct (iloc ab_sorted i); [|discriminate]. injection H as <-. now split.
Qed.

Lemma b_rows_numbered (ab_sorted : ManifestTable) (a_count b_count : Z)
    (l : list TaskRow) :
  b_rows ab_sorted a_count b_count = Some l -> numbered "B_" "B" l.
Proof.
  apply numbered_of_range. intros i r H.
  destruct (iloc ab_sorted _); [|discriminate]. injection H as <-. now split.
Qed.

Lemma pick_yoy_numbered (two_df : ManifestTable) (k : Z) :
  numbered "C_YOY_" "C (YoY)" (pick_yoy two_df k).
Proof.
  apply numbered_of_enumerate1; intros [i [[[s c] r1] r2]]; reflexivity.
Qed.

Lemma number_peers_numbered (out : list TaskRow) :
  Forall (fun r => Category r = "C (Peer)") out ->
  numbered "C_PEER_" "C (Peer)" (number_peers out).
Proof.
  intros H. split.
  - unfold number_peers. rewrite length_map, length_enumerate1.
    rewrite <- map_fst_enumerate1, !map_map. reflexivity.
  - unfold number_peers. apply Forall_forall. intros r Hr.
    apply list_elem_of_In, in_map_iff in Hr. destruct Hr as ([j r'] & <- & Hr).
    simpl. apply In_enumerate1 in Hr. rewrite Forall_forall in H.
    apply H. now apply list_elem_of_In.
Qed.

(** What one pairing loop does: it stops after the pair that brings [out] to
    [k] rows, and after its first pair when [out] already holds [k] rows. *)
Lemma collect_pairs_spec (k : Z) (pairs : list (FilingRecord * FilingRecord))
    (out : list TaskRow) :
  collect_pairs k out pairs =
  let need := Z.to_nat (Z.max 1 (k - Z.of_nat (length out))) in
  if (length pairs <? need)%nat then inr (out ++ map peer_row pairs)
  else inl (number_peers (out ++ map peer_row (firstn need pairs))).
Proof.
  revert out. induction pairs as [|[r1 r2] rest IH]; intros out; simpl.
  - replace (0 <? Z.to_nat (Z.max 1 (k - Z.of_nat (length out))))%nat with true
      by (symmetry; apply Nat.ltb_lt; lia).
    now rewrite app_nil_r.
  - rewrite length_app. simpl length.
    destruct (Z.geb_spec (Z.of_nat (length out + 1)) k) as [Hk|Hk].
    + replace (Z.to_nat (Z.max 1 (k - Z.of_nat (length out)))) with 1%nat by lia.
      reflexivity.
    + rewrite IH. rewrite length_app. simpl length.
      remember (Z.to_nat (Z.max 1 (k - Z.of_nat (length out)))) as need.
      replace (Z.to_nat (Z.max 1 (k - Z.of_nat (length out + 1)))) with (need - 1)%nat
        by lia.
      destruct need as [|need]; [lia|].
      replace (S need - 1)%nat with need by lia.
      change (S (length rest) <? S need)%nat with (length rest <? need)%nat.
      cbv zeta. destruct (length rest <? need)%nat; rewrite <- app_assoc; reflexivity.
Qed.

Lemma peer_rows_Category (ps : list (FilingRecord * FilingRecord)) :
  Forall (fun r => Category r = "C (Peer)") (map peer_row ps).
Proof.
  apply Forall_forall. intros r Hr. apply list_elem_of_In, in_map_iff in Hr.
  now destruct Hr as (p & <- & _).
Qed.

(** The rows [paired_peers] returns: the pairs that were collected, numbered. *)
Lemma paired_peers_inv (ab_df : ManifestTable) (k : Z) (used : list (string * string)) :
  let df := peer_pool ab_df used in
  exists ps : list (FilingRecord * FilingRecord),
    (forall p, In p ps -> In p (stage1_pairs df) \/ In p (stage2_pairs df)) /\
    exists n : nat, paired_peers ab_df k used = firstn n (number_peers (map peer_row ps)).
Proof.
  intros df. unfold paired_peers. fold df.
  rewrite collect_pairs_spec. simpl length. cbv zeta.
  set (need1 := Z.to_nat (Z.max 1 (k - Z.of_nat 0))).
  destruct (length (stage1_pairs df) <? need1)%nat.
  - simpl app.
    destruct (Z.of_nat (length (map peer_row (stage1_pairs df))) <? k).
    + rewrite collect_pairs_spec. cbv zeta.
      set (need2 := Z.to_nat (Z.max 1 (k - _))).
      destruct (length (stage2_pairs df) <? need2)%nat.
      * exists (stage1_pairs df ++ stage2_pairs df). split.
        { intros p Hp. apply in_app_iff in Hp. exact Hp. }
        rewrite map_app. unfold slice_to. destruct (k <? 0); eauto.
      * exists (stage1_pairs df ++ firstn need2 (stage2_pairs df)). split.
        { intros p Hp. apply in_app_iff in Hp as [Hp|Hp]; [auto|].
          right. eapply In_firstn, Hp. }
        rewrite map_app.
        exists (length (number_peers (map peer_row (stage1_pairs df) ++
                                       map peer_row (firstn need2 (stage2_pairs df))))).
        now rewrite firstn_all.
    + exists (stage1_pairs df). split; [auto|].
      unfold slice_to. destruct (k <? 0); eauto.
  - exists (firstn need1 (stage1_pairs df)). split.
    { intros p Hp. left. eapply In_firstn, Hp. }
    exists (length (number_peers (map peer_row (firstn need1 (stage1_pairs df))))).
    now rewrite firstn_all.
Qed.

Lemma paired_peers_numbered (ab_df : ManifestTable) (k : Z) (used : list (string * string)) :
  numbered "C_PEER_" "C (Peer)" (paired_peers ab_df k used).
Proof.
  destruct (paired_peers_inv ab_df k used) as (ps & _ & n & ->).
  apply numbered_firstn, number_peers_numbered, peer_rows_Category.
Qed.

(** [pick_peers] raises on a frame without rows, and on no other. *)
Lemma pick_peers_Some (ab_df : ManifestTable) (k : Z) (used : list (string * string))
    (rows : list TaskRow) :
  pick_peers ab_df k used = Some rows ->
  ab_df <> [] /\ rows = paired_peers ab_df k used.
Proof. destruct ab_df; [discriminate|]. intros [= <-]. split; [discriminate|reflexivity]. Qed.

Lemma pick_peers_of_rows (ab_df : ManifestTable) (k : Z) (used : list (string * string)) :
  ab_df <> [] -> pick_peers ab_df k used = Some (paired_peers ab_df k used).
Proof. destruct ab_df; [congruence|reflexivity]. Qed.

(** The table is the rows of A, B, C (YoY) and C (Peer), in this order. *)
Lemma all_rows_with_inv (used : list (string * string)) (ab two : ManifestTable)
    (a_count b_count c_yoy_count c_peer_count : Z) (rows : list TaskRow) :
  all_rows_with used ab two a_count b_count c_yoy_count c_peer_count = Some rows ->
  exists a b,
    a_rows (sort_ab ab) a_count = Some a /\
    b_rows (sort_ab ab) a_count b_count = Some b /\
    rows = a ++ b ++ pick_yoy two c_yoy_count
             ++ paired_peers (sort_ab ab) c_peer_count used.
Proof.
  unfold all_rows_with. intros H.
  destruct (a_rows (sort_ab ab) a_count) as [a|]; [|discriminate].
  destruct (b_rows (sort_ab ab) a_count b_count) as [b|]; [|discriminate].
  simpl in H.
  destruct (pick_peers (sort_ab ab) c_peer_count used) as [p|] eqn:Hp; [|discriminate].
  apply pick_peers_Some in Hp as [_ ->]. simpl in H. injection H as <-. eauto.
Qed.

End Shape.

Section YoY.

Lemma cmp3_eq (x y : string * string * string) : cmp3 x y = Eq -> x = y.
Proof.
  destruct x as [[a1 b1] c1], y as [[a2 b2] c2]. unfold cmp3, cmp_then.
  destruct (String.compare a1 a2) eqn:Ha; try discriminate.
  destruct (String.compare b1 b2) eqn:Hb; try discriminate.
  intros Hc. apply String.compare_eq_iff in Ha, Hb, Hc. now subst.
Qed.

Lemma date_desc_total (a b : FilingRecord) :
  String.leb (FilingDate b) (FilingDate a) = true \/
  String.leb (FilingDate a) (FilingDate b) = true.
Proof. apply String.leb_total. Qed.

Lemma date_desc_trans (a b c : FilingRecord) :
  String.leb (FilingDate b) (FilingDate a) = true ->
  String.leb (FilingDate c) (FilingDate b) = true ->
  String.leb (FilingDate c) (FilingDate a) = true.
Proof.
  rewrite !string_leb_le_of. intros H1 H2.
  eapply le_of_trans; eauto using string_ordering.
Qed.

(** The anchor and the partner of a group: two rows of the group, of
    different years, the anchor filed last. *)
Lemma yoy_pair_spec (grp : list FilingRecord) (r1 r2 : FilingRecord) :
  yoy_pair grp = Some (r1, r2) ->
  In r1 grp /\ In r2 grp /\ Year r1 <> Year r2 /\
  str_ge (FilingDate r1) (FilingDate r2) = true.
Proof.
  unfold yoy_pair.
  destruct (length (unique String.eqb (map Year grp)) <? 2)%nat; [discriminate|].
  set (le := fun a b : FilingRecord => String.leb (FilingDate b) (FilingDate a)).
  destruct (sort_values le grp) as [|x t] eqn:Hs; [discriminate|].
  destruct (List.filter _ (x :: t)) as [|y t'] eqn:Hf; [discriminate|].
  intros [= <- <-].
  assert (Hx : In x grp) by (apply (sort_values_In le); rewrite Hs; now left).
  assert (Hy : In y (List.filter (fun r => negb (String.eqb (Year r) (Year x))) (x :: t)))
    by (rewrite Hf; now left).
  apply filter_In in Hy as [Hy Hyear].
  assert (Hy' : In y grp) by (apply (sort_values_In le); now rewrite Hs).
  repeat split; auto.
  - intros E. rewrite E, String.eqb_refl in Hyear. discriminate.
  - apply (sort_values_head le date_desc_total date_desc_trans grp x t Hs y Hy').
Qed.

Lemma yoy_candidates_spec (two_df : ManifestTable) (sector company : string)
    (r1 r2 : FilingRecord) :
  In (sector, company, r1, r2) (yoy_candidates two_df) ->
  In r1 two_df /\ In r2 two_df /\ yoy_key r1 = yoy_key r2 /\
  Year r1 <> Year r2 /\ str_ge (FilingDate r1) (FilingDate r2) = true.
Proof.
  unfold yoy_candidates. intros H. apply sort_values_In in H.
  apply in_flat_map in H as ([[[c t] s] grp] & Hg & H). simpl in H.
  destruct (yoy_pair grp) as [[x y]|] eqn:Hp; [|contradiction].
  destruct H as [[= _ _ <- <-]|[]].
  apply yoy_pair_spec in Hp as (Hx & Hy & Hyear & Hdate).
  destruct (In_groupby _ _ _ _ _ _ Hg Hx) as [Hx' Kx].
  destruct (In_groupby _ _ _ _ _ _ Hg Hy) as [Hy' Ky].
  apply cmp3_eq in Kx, Ky. repeat split; auto. congruence.
Qed.

Lemma pick_yoy_spec (two_df : ManifestTable) (k : Z) (r : TaskRow) :
  In r (pick_yoy two_df k) ->
  exists (task_id : string) (r1 r2 : FilingRecord),
    r = make_row_pair task_id "C (YoY)" r1 r2 /\
    In r1 two_df /\ In r2 two_df /\ yoy_key r1 = yoy_key r2 /\
    Year r1 <> Year r2 /\ str_ge (FilingDate r1) (FilingDate r2) = true.
Proof.
  unfold pick_yoy. intros H.
  apply in_map_iff in H as ([i [[[s c] r1] r2]] & <- & H).
  apply In_enumerate1, In_slice_to, yoy_candidates_spec in H.
  eauto 10.
Qed.

End YoY.

Section Categories.

Lemma numbered_Category (prefix cat : string) (l : list TaskRow) (r : TaskRow) :
  numbered prefix cat l -> In r l -> Category r = cat.
Proof.
  intros [_ H] Hr. rewrite Forall_forall in H. apply H. now apply list_elem_of_In.
Qed.

(** A row of the table belongs to the part of the table its label names. *)
Lemma all_rows_with_In (used : list (string * string)) (ab two : ManifestTable)
    (a_count b_count c_yoy_count c_peer_count : Z) (rows : list TaskRow) (r : TaskRow) :
  all_rows_with used ab two a_count b_count c_yoy_count c_peer_count = Some rows ->
  In r rows ->
  exists a b,
    a_rows (sort_ab ab) a_count = Some a /\
    b_rows (sort_ab ab) a_count b_count = Some b /\
    (Category r = "A" /\ In r a \/
     Category r = "B" /\ In r b \/
     Category r = "C (YoY)" /\ In r (pick_yoy two c_yoy_count) \/
     Category r = "C (Peer)" /\ In r (paired_peers (sort_ab ab) c_peer_count used)).
Proof.
  intros H Hr. apply all_rows_with_inv in H as (a & b & Ha & Hb & ->).
  exists a, b. split; [exact Ha|]. split; [exact Hb|].
  rewrite !in_app_iff in Hr. destruct Hr as [Hr|[Hr|[Hr|Hr]]].
  - left. split; [|exact Hr]. eapply numbered_Category, Hr. eapply a_rows_numbered, Ha.
  - right; left. split; [|exact Hr].
    eapply numbered_Category, Hr. eapply b_rows_numbered, Hb.
  - right; right; left. split; [|exact Hr].
    eapply numbered_Category, Hr. apply pick_yoy_numbered.
  - right; right; right. split; [|exact Hr].
    eapply numbered_Category, Hr. apply paired_peers_numbered.
Qed.

End Categories.

(** C3. Every row of the table labelled "C (YoY)" pairs two filings of one
    company: [Company_1] equals [Company_2], the years (the first four
    characters) of [FilingDate_1] and [FilingDate_2] differ, and
    [FilingDate_1 >= FilingDate_2] in the order of strings. *)
Theorem yoy_rows_pair_one_company_over_two_years
    (ab two : ManifestTable) (a_count b_count c_yoy_count c_peer_count : Z)
    (rows : list TaskRow) (r : TaskRow) :
  all_rows ab two a_count b_count c_yoy_count c_peer_count = Some rows ->
  In r rows ->
  Category r = "C (YoY)" ->
  Company_1 r = Company_2 r /\
  str_prefix 4 (FilingDate_1 r) <> str_prefix 4 (FilingDate_2 r) /\
  str_ge (FilingDate_1 r) (FilingDate_2 r) = true.
Proof.
  unfold all_rows. intros H Hr Hcat.
  destruct (all_rows_with_In _ _ _ _ _ _ _ _ _ H Hr) as (a & b & _ & _ & Hcase).
  destruct Hcase as [[E _]|[[E _]|[[_ Hy]|[E _]]]];
    try (rewrite Hcat in E; discriminate).
  apply pick_yoy_spec in Hy as (tid & r1 & r2 & -> & _ & _ & Hkey & Hyear & Hdate).
  simpl. repeat split; auto. unfold yoy_key in Hkey. congruence.
Qed.

Lemma yoy_rows_pair_one_company_over_two_years_witness :
  Company_1 sample_yoy_row = Company_2 sample_yoy_row /\
  str_prefix 4 (FilingDate_1 sample_yoy_row) <> str_prefix 4 (FilingDate_2 sample_yoy_row) /\
  str_ge (FilingDate_1 sample_yoy_row) (FilingDate_2 sample_yoy_row) = true.
Proof.
  apply (yoy_rows_pair_one_company_over_two_years sample_ab sample_two 1 1 2 1
           (default [] (all_rows sample_ab sample_two 1 1 2 1))).
  - vm_compute. reflexivity.
  - vm_compute. tauto.
  - reflexivity.
Defined.

Section TaskIDs.

Lemma fmt02_two_digits (i : nat) : (i < 100)%nat -> String.length (fmt02 i) = 2%nat.
Proof.
  intros H. do 100 (destruct i as [|i]; [reflexivity|]). lia.
Qed.

Lemma numbered_NoDup (prefix cat : string) (l : list TaskRow) :
  numbered prefix cat l -> NoDup (map TaskID l).
Proof.
  intros [-> _]. apply NoDup_fmap_2; [|apply NoDup_seq].
  intros i j. apply task_id_inj.
Qed.

Lemma numbered_prefix (prefix cat : string) (l : list TaskRow) (t : string) :
  numbered prefix cat l -> In t (map TaskID l) -> exists s, t = prefix +:+ s.
Proof.
  intros [-> _] H. apply in_map_iff in H as (i & <- & _). eauto.
Qed.

Lemma rows_of_category_uniform (c cat : string) (l : list TaskRow) :
  Forall (fun r => Category r = c) l ->
  rows_of_category cat l = if String.eqb c cat then l else [].
Proof.
  unfold rows_of_category. induction 1 as [|r l Hr _ IH]; simpl.
  - now destruct (String.eqb c cat).
  - rewrite IH, Hr. now destruct (String.eqb c cat).
Qed.

Lemma rows_of_category_app (cat : string) (l1 l2 : list TaskRow) :
  rows_of_category cat (l1 ++ l2) = rows_of_category cat l1 ++ rows_of_category cat l2.
Proof. apply List.filter_app. Qed.

End TaskIDs.

(** Two TaskIDs that start with the prefixes of two categories differ. *)
Ltac other_prefix :=
  match goal with
  | H1 : numbered _ _ ?l1, H2 : numbered _ _ ?l2,
    I1 : In ?t (map TaskID ?l1), I2 : In ?t (map TaskID ?l2) |- _ =>
      destruct (numbered_prefix _ _ _ _ H1 I1) as [? ->];
      destruct (numbered_prefix _ _ _ _ H2 I2) as [? ?];
      discriminate
  end.

(** C2, as the code has it. The TaskIDs of the table are pairwise distinct;
    the rows of each category carry, in table order, the prefix of the
    category followed by the index 1, 2, 3, ... without gaps, written in
    decimal and padded with a zero to two digits at least; a category of fewer
    than a hundred rows has exactly two digits in every TaskID. *)
Theorem task_ids_distinct_and_numbered
    (ab two : ManifestTable) (a_count b_count c_yoy_count c_peer_count : Z)
    (rows : list TaskRow) :
  all_rows ab two a_count b_count c_yoy_count c_peer_count = Some rows ->
  NoDup (map TaskID rows) /\
  forall prefix cat, In (prefix, cat) category_prefixes ->
    let l := rows_of_category cat rows in
    numbered prefix cat l /\
    ((length l < 100)%nat ->
     forall r, In r l ->
       exists digits, TaskID r = prefix +:+ digits /\ String.length digits = 2%nat).
Proof.
  unfold all_rows. intros H. apply all_rows_with_inv in H as (a & b & Ha & Hb & ->).
  apply a_rows_numbered in Ha. apply b_rows_numbered in Hb.
  pose proof (pick_yoy_numbered two c_yoy_count) as Hy.
  pose proof (paired_peers_numbered (sort_ab ab) c_peer_count
                (unique (eq_of cmp2) (used_of (pick_yoy two c_yoy_count)))) as Hp.
  set (y := pick_yoy two c_yoy_count) in *.
  set (p := paired_peers _ _ _) in *.
  split.
  - rewrite !map_app.
    apply NoDup_app. split; [eapply numbered_NoDup, Ha|]. split.
    { intros t I1 I2. apply list_elem_of_In in I1, I2.
      rewrite !in_app_iff in I2. destruct I2 as [I2|[I2|I2]]; other_prefix. }
    apply NoDup_app. split; [eapply numbered_NoDup, Hb|]. split.
    { intros t I1 I2. apply list_elem_of_In in I1, I2.
      rewrite !in_app_iff in I2. destruct I2 as [I2|I2]; other_prefix. }
    apply NoDup_app. split; [eapply numbered_NoDup, Hy|]. split.
    { intros t I1 I2. apply list_elem_of_In in I1, I2. other_prefix. }
    eapply numbered_NoDup, Hp.
  - intros prefix cat Hin. cbv zeta. set (l := rows_of_category cat _).
    assert (Hl : numbered prefix cat l).
    { subst l. rewrite !rows_of_category_app.
      rewrite (rows_of_category_uniform "A" cat a) by apply Ha.
      rewrite (rows_of_category_uniform "B" cat b) by apply Hb.
      rewrite (rows_of_category_uniform "C (YoY)" cat y) by apply Hy.
      rewrite (rows_of_category_uniform "C (Peer)" cat p) by apply Hp.
      simpl in Hin.
      destruct Hin as [[= <- <-]|[[= <- <-]|[[= <- <-]|[[= <- <-]|[]]]]]; simpl;
        rewrite ?app_nil_r; assumption. }
    split; [exact Hl|]. intros Hlen r Hr.
    destruct Hl as [Hids _].
    apply (in_map TaskID) in Hr. rewrite Hids in Hr.
    apply in_map_iff in Hr as (i & <- & Hi). apply in_seq in Hi.
    exists (fmt02 i). split; [reflexivity|]. apply fmt02_two_digits. lia.
Qed.

Lemma task_ids_distinct_and_numbered_witness :
  NoDup (map TaskID (default [] (all_rows sample_ab sample_two 1 1 2 1))) /\
  forall prefix cat, In (prefix, cat) category_prefixes ->
    let l := rows_of_category cat (default [] (all_rows sample_ab sample_two 1 1 2 1)) in
    numbered prefix cat l /\
    ((length l < 100)%nat ->
     forall r, In r l ->
       exists digits, TaskID r = prefix +:+ digits /\ String.length digits = 2%nat).
Proof.
  apply (task_ids_distinct_and_numbered sample_ab sample_two 1 1 2 1).
  vm_compute. reflexivity.
Defined.

(** C2 as stated fails on a category of a hundred rows: the hundredth row of
    category A is [A_100], three digits after the prefix. *)
Lemma task_id_of_hundredth_row_has_three_digits :
  exists rows r,
    all_rows hundred_ab sample_two 100 0 0 0 = Some rows /\
    In r rows /\ Category r = "A" /\ TaskID r = "A_100" /\
    ~ (exists digits, TaskID r = "A_" +:+ digits /\ String.length digits = 2%nat).
Proof.
  exists (default [] (all_rows hundred_ab sample_two 100 0 0 0)).
  exists (make_row_single "A_100" "A"
            (filing "Company 200" "T200" "Tech" "2024-03-01")).
  split; [vm_compute; reflexivity|].
  split; [apply (nth_error_In _ 99); vm_compute; reflexivity|].
  split; [reflexivity|]. split; [reflexivity|].
  intros (digits & E & L). simpl in E. injection E as E.
  change ("100" = digits) in E. rewrite <- E in L. discriminate L.
Qed.

Section Slots.

Lemma iloc_In {A} (l : list A) (i : Z) (x : A) : iloc l i = Some x -> In x l.
Proof.
  unfold iloc. destruct (0 <=? i); [apply nth_error_In|].
  destruct (_ <=? i); [apply nth_error_In|discriminate].
Qed.

Lemma Forall2_In_r {A B} (R : A -> B -> Prop) (l : list A) (k : list B) (y : B) :
  Forall2 R l k -> In y k -> exists x, In x l /\ R x y.
Proof.
  induction 1 as [|x y' l k Hxy _ IH]; simpl; [tauto|].
  intros [<-|Hy]; [eauto|]. destruct (IH Hy) as (x' & ? & ?). eauto.
Qed.

(** The rows of a comprehension [[make_row_single(id(i), cat, df.iloc[g(i)]) ...]]
    hold rows of [df] in slot 1. *)
Lemma single_rows_spec (df : ManifestTable) (cat : string) (id : Z -> string)
    (g : Z -> Z) (xs : list Z) (rows : list TaskRow) (r : TaskRow) :
  mapM (fun i => make_row_single (id i) cat <$> iloc df (g i)) xs = Some rows ->
  In r rows ->
  exists task_id f, In f df /\ r = make_row_single task_id cat f.
Proof.
  intros H Hr. apply mapM_Some_1 in H.
  destruct (Forall2_In_r _ _ _ _ H Hr) as (i & _ & Hi).
  destruct (iloc df (g i)) as [f|] eqn:E; [|discriminate].
  injection Hi as <-. apply iloc_In in E. eauto.
Qed.

Lemma groupby_group {K A} (cmp : K -> K -> comparison) (key : A -> K) (l : list A)
    (k : K) (g : list A) :
  In (k, g) (groupby cmp key l) ->
  g = List.filter (fun r => eq_of cmp (key r) k) l.
Proof.
  unfold groupby. intros H. apply in_map_iff in H as (k' & [= <- <-] & _). reflexivity.
Qed.

Lemma NoDup_map_filter {A B} (f : A -> B) (p : A -> bool) (l : list A) :
  NoDup (map f l) -> NoDup (map f (List.filter p l)).
Proof.
  induction l as [|x l IH]; simpl; [auto|].
  intros H. apply NoDup_cons in H as [Hx Hl].
  destruct (p x); simpl; [|auto].
  apply NoDup_cons. split; [|auto].
  intros Hin. apply Hx. apply list_elem_of_In in Hin. apply list_elem_of_In.
  apply in_map_iff in Hin as (y & E & Hy). apply filter_In in Hy as [Hy _].
  apply in_map_iff. eauto.
Qed.

Lemma NoDup_map_sort_values {A B} (f : A -> B) (le : A -> A -> bool) (l : list A) :
  NoDup (map f l) -> NoDup (map f (sort_values le l)).
Proof.
  intros H. now rewrite (Permutation_map f (sort_values_Permutation le l)).
Qed.

(** Two rows paired by [pair_up] are two different rows of the list. *)
Lemma pair_up_distinct {A B} (f : A -> B) (l : list A) (x y : A) :
  NoDup (map f l) -> In (x, y) (pair_up l) -> f x <> f y.
Proof.
  revert x y.
  cut (forall n (l : list A), (length l <= n)%nat -> NoDup (map f l) ->
         forall x y, In (x, y) (pair_up l) -> f x <> f y).
  { intros H x y Hnd. apply (H (length l)); [lia|exact Hnd]. }
  clear l. induction n as [|n IH]; intros [|a [|b l]] Hlen Hnd x y; simpl; try tauto.
  - simpl in Hlen. lia.
  - simpl in Hnd. apply NoDup_cons in Hnd as [Ha Hnd].
    intros [[= <- <-]|H].
    + intros E. apply Ha. rewrite E. now left.
    + apply NoDup_cons in Hnd as [_ Hnd].
      apply (IH l); auto. simpl in Hlen. lia.
Qed.

(** The pairs of either stage are made of two rows of the pool; they are
    rows of two companies when no company has two rows in the pool. *)
Lemma stage_pairs_spec (df : ManifestTable) (x y : FilingRecord) :
  In (x, y) (stage1_pairs df) \/ In (x, y) (stage2_pairs df) ->
  In x df /\ In y df /\ (NoDup (map Company df) -> Company x <> Company y).
Proof.
  intros [H|H].
  - unfold stage1_pairs in H.
    apply in_flat_map in H as ([s g] & Hg & H). simpl in H.
    apply in_flat_map in H as ([yr gy] & Hgy & H). simpl in H.
    apply groupby_group in Hg, Hgy. subst gy g.
    pose proof (In_pair_up _ _ _ H) as [Hx Hy].
    apply sort_values_In, filter_In in Hx as [Hx _].
    apply sort_values_In, filter_In in Hy as [Hy _].
    apply filter_In in Hx as [Hx _]. apply filter_In in Hy as [Hy _].
    repeat split; auto. intros Hnd.
    eapply pair_up_distinct; [|exact H].
    now apply NoDup_map_sort_values, NoDup_map_filter, NoDup_map_filter.
  - unfold stage2_pairs in H.
    apply in_flat_map in H as ([s g] & Hg & H). simpl in H.
    apply groupby_group in Hg. subst g.
    pose proof (In_pair_up _ _ _ H) as [Hx Hy].
    apply sort_values_In, filter_In in Hx as [Hx _].
    apply sort_values_In, filter_In in Hy as [Hy _].
    repeat split; auto. intros Hnd.
    eapply pair_up_distinct; [|exact H].
    now apply NoDup_map_sort_values, NoDup_map_filter.
Qed.

Lemma In_number_peers (out : list TaskRow) (r : TaskRow) :
  In r (number_peers out) -> exists task_id r', In r' out /\ r = set_TaskID task_id r'.
Proof.
  unfold number_peers. intros H. apply in_map_iff in H as ([j r'] & <- & H).
  apply In_enumerate1 in H. simpl. eauto.
Qed.

Lemma paired_peers_spec (ab_df : ManifestTable) (k : Z) (used : list (string * string))
    (r : TaskRow) :
  In r (paired_peers ab_df k used) ->
  exists task_id r1 r2,
    r = make_row_pair task_id "C (Peer)" r1 r2 /\
    In r1 ab_df /\ In r2 ab_df /\
    (NoDup (map Company ab_df) -> Company r1 <> Company r2).
Proof.
  intros H. destruct (paired_peers_inv ab_df k used) as (ps & Hps & n & E).
  rewrite E in H. apply In_firstn, In_number_peers in H as (tid & r' & Hr' & ->).
  apply in_map_iff in Hr' as ([r1 r2] & <- & Hp).
  apply Hps, stage_pairs_spec in Hp as (H1 & H2 & Hnd).
  unfold peer_pool in H1, H2, Hnd.
  apply filter_In in H1 as [H1 _]. apply filter_In in H2 as [H2 _].
  exists tid, r1, r2. repeat split; auto.
  intros N. now apply Hnd, NoDup_map_filter.
Qed.

End Slots.

(** C4, as the code has it. A row labelled "A" or "B" holds one row of the AB
    manifest in slot 1 and nothing in slot 2. A row labelled "C (YoY)" holds
    two rows of the TWO manifest, of the same company. A row labelled
    "C (Peer)" holds two rows of the AB manifest; they are rows of two
    different companies when no company has two rows in the AB manifest. *)
Theorem task_rows_fill_their_slots
    (ab two : ManifestTable) (a_count b_count c_yoy_count c_peer_count : Z)
    (rows : list TaskRow) (r : TaskRow) :
  all_rows ab two a_count b_count c_yoy_count c_peer_count = Some rows ->
  In r rows ->
  ((Category r = "A" \/ Category r = "B") /\
   (exists f, In f ab /\ slot1_of f r) /\ slot2_empty r) \/
  (Category r = "C (YoY)" /\
   (exists f1 f2, In f1 two /\ In f2 two /\ slot1_of f1 r /\ slot2_of f2 r) /\
   Company_1 r = Company_2 r) \/
  (Category r = "C (Peer)" /\
   (exists f1 f2, In f1 ab /\ In f2 ab /\ slot1_of f1 r /\ slot2_of f2 r) /\
   (NoDup (map Company ab) -> Company_1 r <> Company_2 r)).
Proof.
  unfold all_rows. intros H Hr.
  destruct (all_rows_with_In _ _ _ _ _ _ _ _ _ H Hr) as (a & b & Ha & Hb & Hcase).
  destruct Hcase as [[E Hin]|[[E Hin]|[[E Hin]|[E Hin]]]].
  - left. split; [auto|].
    destruct (single_rows_spec _ _ _ (fun i => i) _ _ _ Ha Hin) as (tid & f & Hf & ->).
    apply sort_values_In in Hf. split; [exists f|]; repeat split; auto.
  - left. split; [auto|].
    destruct (single_rows_spec _ _ _ _ _ _ _ Hb Hin) as (tid & f & Hf & ->).
    apply sort_values_In in Hf. split; [exists f|]; repeat split; auto.
  - right; left. split; [auto|].
    apply pick_yoy_spec in Hin as (tid & f1 & f2 & -> & H1 & H2 & Hkey & _).
    split; [exists f1, f2; repeat split; auto|].
    simpl. unfold yoy_key in Hkey. congruence.
  - right; right. split; [auto|].
    apply paired_peers_spec in Hin as (tid & f1 & f2 & -> & H1 & H2 & Hnd).
    apply sort_values_In in H1, H2.
    split; [exists f1, f2; repeat split; auto|].
    intros N. simpl. apply Hnd. unfold sort_ab. now apply NoDup_map_sort_values.
Qed.

Lemma task_rows_fill_their_slots_witness :
  ((Category sample_yoy_row = "A" \/ Category sample_yoy_row = "B") /\
   (exists f, In f sample_ab /\ slot1_of f sample_yoy_row) /\ slot2_empty sample_yoy_row) \/
  (Category sample_yoy_row = "C (YoY)" /\
   (exists f1 f2, In f1 sample_two /\ In f2 sample_two /\
                  slot1_of f1 sample_yoy_row /\ slot2_of f2 sample_yoy_row) /\
   Company_1 sample_yoy_row = Company_2 sample_yoy_row) \/
  (Category sample_yoy_row = "C (Peer)" /\
   (exists f1 f2, In f1 sample_ab /\ In f2 sample_ab /\
                  slot1_of f1 sample_yoy_row /\ slot2_of f2 sample_yoy_row) /\
   (NoDup (map Company sample_ab) -> Company_1 sample_yoy_row <> Company_2 sample_yoy_row)).
Proof.
  apply (task_rows_fill_their_slots sample_ab sample_two 1 1 2 1
           (default [] (all_rows sample_ab sample_two 1 1 2 1))).
  - vm_compute. reflexivity.
  - vm_compute. tauto.
Defined.

(** C4 as stated fails on every "C (YoY)" row: its two slots hold the same
    company. *)
Lemma yoy_row_has_one_company_in_both_slots :
  exists rows,
    all_rows sample_ab sample_two 1 1 2 1 = Some rows /\
    In sample_yoy_row rows /\
    Category sample_yoy_row = "C (YoY)" /\
    ~ (Company_1 sample_yoy_row <> Company_2 sample_yoy_row).
Proof.
  exists (default [] (all_rows sample_ab sample_two 1 1 2 1)).
  split; [vm_compute; reflexivity|].
  split; [vm_compute; tauto|].
  split; [reflexivity|]. intros H. now apply H.
Qed.

(** C8, as the code has it. The table written by the Assembler has the 35
    columns the spec enumerates, in that order, and every row of the table
    lists its 35 cells in the same order. *)
Theorem master_table_has_the_enumerated_columns
    (ab two : ManifestTable) (a_count b_count c_yoy_count c_peer_count : Z)
    (t : MasterTable) :
  assemble ab two a_count b_count c_yoy_count c_peer_count = Some t ->
  header t = enumerated_columns /\
  length (header t) = 35%nat /\
  exists rows,
    all_rows ab two a_count b_count c_yoy_count c_peer_count = Some rows /\
    body t = map cells_in_order rows.
Proof.
  unfold assemble. intros H.
  destruct (all_rows ab two a_count b_count c_yoy_count c_peer_count) as [rows|];
    [|discriminate].
  injection H as <-. split; [reflexivity|]. split; [reflexivity|].
  exists rows. split; [reflexivity|]. reflexivity.
Qed.

Lemma master_table_has_the_enumerated_columns_witness :
  header (to_table (default [] (all_rows sample_ab sample_two 1 1 2 1)))
    = enumerated_columns /\
  length (header (to_table (default [] (all_rows sample_ab sample_two 1 1 2 1))))
    = 35%nat /\
  exists rows,
    all_rows sample_ab sample_two 1 1 2 1 = Some rows /\
    body (to_table (default [] (all_rows sample_ab sample_two 1 1 2 1)))
      = map cells_in_order rows.
Proof.
  apply (master_table_has_the_enumerated_columns sample_ab sample_two 1 1 2 1).
  vm_compute. reflexivity.
Defined.

(** C8 as stated fails on the number of columns: the table has 35 of them,
    not 34. *)
Lemma master_table_has_not_34_columns :
  exists t,
    assemble sample_ab sample_two 1 1 2 1 = Some t /\ length (header t) <> 34%nat.
Proof.
  exists (to_table (default [] (all_rows sample_ab sample_two 1 1 2 1))).
  split; [vm_compute; reflexivity|]. vm_compute. discriminate.
Qed.

(** C10. There is an AB manifest and a [peerCount] for which Stage 1 yields
    one pair, fewer than [peerCount], and Stage 2, which pairs the rows of the
    same pool again, yields the same pair: the table has two "C (Peer)" rows
    with the same two companies. *)
Theorem stage2_repeats_a_pair_of_stage1 :
  exists (ab : ManifestTable) (peer_count : Z) (f1 f2 : FilingRecord),
    let df := peer_pool (sort_ab ab) (used_of (pick_yoy sample_two 0)) in
    stage1_pairs df = [(f1, f2)] /\
    (1 <= length (stage1_pairs df))%nat /\
    Z.of_nat (length (stage1_pairs df)) < peer_count /\
    stage2_pairs df = [(f1, f2)] /\
    exists row1 row2,
      all_rows ab sample_two 0 0 0 peer_count = Some [row1; row2] /\
      Category row1 = "C (Peer)" /\ Category row2 = "C (Peer)" /\
      TaskID row1 = "C_PEER_01" /\ TaskID row2 = "C_PEER_02" /\
      Company_1 row1 = Company f1 /\ Company_2 row1 = Company f2 /\
      Company_1 row2 = Company f1 /\ Company_2 row2 = Company f2 /\
      Company f1 <> Company f2.
Proof.
  exists sample_ab, 2.
  exists (filing "Alpha" "ALFA" "Tech" "2024-01-15"),
         (filing "Beta" "BETA" "Tech" "2024-02-01").
  cbv zeta. split; [vm_compute; reflexivity|].
  split; [vm_compute; lia|]. split; [vm_compute; reflexivity|].
  split; [vm_compute; reflexivity|].
  eexists _, _. split; [vm_compute; reflexivity|].
  repeat split; discriminate.
Qed.

Section Determinism.

Lemma peer_pool_layout (ab_df : ManifestTable) (used used' : list (string * string)) :
  (forall x, In x used <-> In x used') -> peer_pool ab_df used = peer_pool ab_df used'.
Proof.
  intros H. unfold peer_pool. apply filter_ext. intros r. f_equal.
  apply eq_true_iff_eq. rewrite !existsb_exists.
  split; intros (u & Hu & E); exists u; split; auto; now apply H.
Qed.

Lemma paired_peers_layout (ab_df : ManifestTable) (k : Z) (used used' : list (string * string)) :
  (forall x, In x used <-> In x used') -> paired_peers ab_df k used = paired_peers ab_df k used'.
Proof. intros H. unfold paired_peers. now rewrite (peer_pool_layout _ _ _ H). Qed.

Lemma pick_peers_layout (ab_df : ManifestTable) (k : Z) (used used' : list (string * string)) :
  (forall x, In x used <-> In x used') -> pick_peers ab_df k used = pick_peers ab_df k used'.
Proof.
  intros H. unfold pick_peers. destruct ab_df; [reflexivity|].
  now rewrite (paired_peers_layout _ _ _ _ H).
Qed.

Lemma cmp2_eq (x y : string * string) : eq_of cmp2 x y = true <-> x = y.
Proof.
  destruct x as [a1 b1], y as [a2 b2]. unfold eq_of, cmp2, cmp_then. simpl. split.
  - destruct (String.compare a1 a2) eqn:Ha; try discriminate.
    destruct (String.compare b1 b2) eqn:Hb; try discriminate.
    apply String.compare_eq_iff in Ha, Hb. now subst.
  - intros [= -> ->]. now rewrite !string_compare_refl.
Qed.

Lemma unique_layout (members : list (string * string)) :
  set_layout members (unique (eq_of cmp2) members).
Proof.
  induction members as [|x l [Hnd Hin]]; simpl.
  - split; [constructor|tauto].
  - assert (F : forall y, In y (List.filter (fun y => negb (eq_of cmp2 y x))
                                 (unique (eq_of cmp2) l)) <-> In y l /\ y <> x).
    { intros y. rewrite filter_In, Hin. apply and_iff_compat_l.
      rewrite negb_true_iff, <- not_true_iff_false, cmp2_eq. tauto. }
    split.
    + constructor.
      * rewrite list_elem_of_In, F. tauto.
      * clear F Hin. induction Hnd as [|y l' Hy Hl IH]; simpl; [constructor|].
        destruct (negb _); [|exact IH]. constructor; [|exact IH].
        rewrite list_elem_of_In, filter_In. rewrite list_elem_of_In in Hy. tauto.
    + intros y. simpl. rewrite F. destruct (decide (y = x)); intuition congruence.
Qed.

(** The function [assemble] is one of the runs. *)
Lemma assemble_is_a_run
    (ab two : ManifestTable) (a_count b_count c_yoy_count c_peer_count : Z) :
  assemble_run ab two a_count b_count c_yoy_count c_peer_count
               (assemble ab two a_count b_count c_yoy_count c_peer_count).
Proof. unfold assemble, all_rows. constructor. apply unique_layout. Qed.

End Determinism.

(** C5. Two runs of the Assembler on the same manifests and the same counts
    write the same table, whatever the order in which the set
    [used_companies] stores its members in either run. *)
Theorem assemble_is_deterministic
    (ab two : ManifestTable) (a_count b_count c_yoy_count c_peer_count : Z)
    (t1 t2 : option MasterTable) :
  assemble_run ab two a_count b_count c_yoy_count c_peer_count t1 ->
  assemble_run ab two a_count b_count c_yoy_count c_peer_count t2 ->
  t1 = t2.
Proof.
  intros [used1 [_ H1]] [used2 [_ H2]]. f_equal.
  unfold all_rows_with.
  rewrite (pick_peers_layout _ _ used1 used2); [reflexivity|].
  intros x. now rewrite H1, H2.
Qed.

Lemma assemble_is_deterministic_witness :
  to_table <$> all_rows_with [gamma_key; delta_key] sample_ab sample_two 1 1 2 1 =
  to_table <$> all_rows_with [delta_key; gamma_key] sample_ab sample_two 1 1 2 1.
Proof.
  apply (assemble_is_deterministic sample_ab sample_two 1 1 2 1); apply Run; split.
  - apply (bool_decide_unpack _). vm_compute. reflexivity.
  - intros x. vm_compute. tauto.
  - apply (bool_decide_unpack _). vm_compute. reflexivity.
  - intros x. vm_compute. tauto.
Defined.

Section RowCount.

Lemma length_range (n : Z) : length (range n) = Z.to_nat n.
Proof. unfold range. now rewrite length_map, length_seq. Qed.

Lemma In_range (n i : Z) : In i (range n) -> 0 <= i < n.
Proof.
  unfold range. intros H. apply in_map_iff in H as (j & <- & H).
  apply in_seq in H. lia.
Qed.

Lemma iloc_is_Some {A} (l : list A) (i : Z) :
  0 <= i < Z.of_nat (length l) -> is_Some (iloc l i).
Proof.
  intros H. unfold iloc. destruct (Z.leb_spec 0 i); [|lia].
  destruct (nth_error l (Z.to_nat i)) eqn:E; [eauto|].
  apply nth_error_None in E. lia.
Qed.

(** A comprehension over [range(n)] whose every [iloc] is in bounds gives [n]
    rows. *)
Lemma length_single_rows (df : ManifestTable) (cat : string) (id : Z -> string)
    (g : Z -> Z) (n : Z) :
  (forall i, 0 <= i < n -> 0 <= g i < Z.of_nat (length df)) ->
  exists rows,
    mapM (fun i => make_row_single (id i) cat <$> iloc df (g i)) (range n) = Some rows /\
    length rows = Z.to_nat n.
Proof.
  intros H.
  destruct (mapM_is_Some_2 (fun i => make_row_single (id i) cat <$> iloc df (g i))
              (range n)) as [rows E].
  - apply Forall_forall. intros i Hi. apply list_elem_of_In, In_range in Hi.
    unfold compose. destruct (iloc_is_Some df (g i) (H i Hi)) as [f ->]. simpl. eauto.
  - exists rows. split; [exact E|].
    apply length_mapM in E. now rewrite <- E, length_range.
Qed.

Lemma length_pick_yoy (two : ManifestTable) (k : Z) :
  0 <= k ->
  Z.of_nat (length (pick_yoy two k)) = Z.min k (available_yoy two).
Proof.
  intros H. unfold pick_yoy, available_yoy, slice_to.
  rewrite length_map, length_enumerate1.
  destruct (Z.ltb_spec k 0); [lia|]. rewrite length_firstn. lia.
Qed.

Lemma length_number_peers (out : list TaskRow) : length (number_peers out) = length out.
Proof. unfold number_peers. now rewrite length_map, length_enumerate1. Qed.

(** With one peer row or more requested, [paired_peers] returns as many rows
    as the two stages can give, and [k] at most. *)
Lemma length_paired_peers (ab_df : ManifestTable) (k : Z) (used : list (string * string)) :
  1 <= k ->
  let df := peer_pool ab_df used in
  Z.of_nat (length (paired_peers ab_df k used)) =
  Z.min k (Z.of_nat (length (stage1_pairs df) + length (stage2_pairs df))).
Proof.
  intros Hk df. unfold paired_peers. fold df.
  rewrite collect_pairs_spec. simpl length. cbv zeta.
  replace (Z.to_nat (Z.max 1 (k - Z.of_nat 0))) with (Z.to_nat k) by lia.
  destruct (Nat.ltb_spec (length (stage1_pairs df)) (Z.to_nat k)) as [H1|H1].
  - simpl app. rewrite length_map.
    destruct (Z.ltb_spec (Z.of_nat (length (stage1_pairs df))) k); [|lia].
    rewrite collect_pairs_spec. rewrite length_map. cbv zeta.
    set (need := Z.to_nat (Z.max 1 (k - Z.of_nat (length (stage1_pairs df))))).
    destruct (Nat.ltb_spec (length (stage2_pairs df)) need) as [H2|H2].
    + unfold slice_to. destruct (Z.ltb_spec k 0); [lia|].
      rewrite length_firstn, length_number_peers, length_app, !length_map. lia.
    + rewrite length_number_peers, length_app, !length_map, length_firstn. lia.
  - rewrite length_number_peers, length_map, length_firstn. lia.
Qed.

End RowCount.

(** The part of C1 that holds. When the AB manifest has a row, the counts of
    A, B and C (YoY) are not negative and one peer row or more is requested,
    the assembly completes and the table has the number of rows C1 states,
    which does not exceed the sum of the counts. *)
Theorem row_count_when_a_peer_row_is_requested
    (ab two : ManifestTable) (a_count b_count c_yoy_count c_peer_count : Z) :
  ab <> [] ->
  0 <= a_count -> 0 <= b_count -> 0 <= c_yoy_count -> 1 <= c_peer_count ->
  exists rows,
    all_rows ab two a_count b_count c_yoy_count c_peer_count = Some rows /\
    Z.of_nat (length rows) = stated_row_count ab two a_count b_count c_yoy_count c_peer_count /\
    Z.of_nat (length rows) <= a_count + b_count + c_yoy_count + c_peer_count.
Proof.
  intros Hab Ha Hb Hy Hp.
  assert (Hn : length (sort_ab ab) = length ab) by apply length_sort_values.
  assert (Hsorted : sort_ab ab <> []).
  { intros E. rewrite E in Hn. destruct ab; [congruence|discriminate]. }
  destruct (length_single_rows (sort_ab ab) "A"
              (fun i => "A_" +:+ fmt02 (Z.to_nat i + 1)) (fun i => i)
              (Z.min a_count (Z.of_nat (length (sort_ab ab))))) as (a & Ea & La).
  { intros i Hi. lia. }
  destruct (length_single_rows (sort_ab ab) "B"
              (fun i => "B_" +:+ fmt02 (Z.to_nat i + 1))
              (fun i => Z.min a_count (Z.of_nat (length (sort_ab ab))) + i)
              (Z.max 0 (Z.min (Z.min a_count (Z.of_nat (length (sort_ab ab))) + b_count)
                              (Z.of_nat (length (sort_ab ab)))
                        - Z.min a_count (Z.of_nat (length (sort_ab ab))))))
    as (b & Eb & Lb).
  { intros i Hi. lia. }
  exists (a ++ b ++ pick_yoy two c_yoy_count
            ++ paired_peers (sort_ab ab) c_peer_count
                 (unique (eq_of cmp2) (used_of (pick_yoy two c_yoy_count)))).
  split.
  - unfold all_rows, all_rows_with, a_rows, b_rows. rewrite Ea. simpl. rewrite Eb.
    simpl. now rewrite (pick_peers_of_rows _ _ _ Hsorted).
  - pose proof (length_pick_yoy two c_yoy_count Hy) as Ly.
    pose proof (length_paired_peers (sort_ab ab) c_peer_count
                  (unique (eq_of cmp2) (used_of (pick_yoy two c_yoy_count))) Hp) as Lp.
    cbv zeta in Lp. rewrite Nat2Z.inj_add in Lp.
    unfold stated_row_count, available_peers, available_b, available_a.
    rewrite !length_app, !Nat2Z.inj_add, Ly, Lp.
    rewrite Hn in La, Lb. clear Ea Eb Ly Lp Hn.
    assert (La' : Z.of_nat (length a) = Z.min a_count (Z.of_nat (length ab))) by lia.
    assert (Lb' : Z.of_nat (length b) =
                  Z.min b_count (Z.of_nat (length ab)
                                 - Z.min a_count (Z.of_nat (length ab)))) by lia.
    rewrite La', Lb'. clear La Lb La' Lb'.
    generalize (Z.of_nat (length ab)) (available_yoy two).
    generalize (Z.of_nat (length (stage1_pairs
      (peer_pool (sort_ab ab)
         (unique (eq_of cmp2) (used_of (pick_yoy two c_yoy_count))))))).
    generalize (Z.of_nat (length (stage2_pairs
      (peer_pool (sort_ab ab)
         (unique (eq_of cmp2) (used_of (pick_yoy two c_yoy_count))))))).
    intros; lia.
Qed.

Lemma row_count_when_a_peer_row_is_requested_witness :
  exists rows,
    all_rows sample_ab sample_two 1 1 2 1 = Some rows /\
    Z.of_nat (length rows) = stated_row_count sample_ab sample_two 1 1 2 1 /\
    Z.of_nat (length rows) <= 1 + 1 + 2 + 1.
Proof.
  apply (row_count_when_a_peer_row_is_requested sample_ab sample_two 1 1 2 1);
    [discriminate|lia..].
Defined.

(** C1 fails when no peer row is requested: the first pair of Stage 1 is
    appended before the count is looked at, and is returned. Two companies of
    one sector and one year, all counts zero: the table has one row, where C1
    states none. *)
Theorem peer_row_returned_when_none_is_requested :
  exists rows,
    all_rows sample_ab sample_two 0 0 0 0 = Some rows /\
    map TaskID rows = ["C_PEER_01"] /\
    stated_row_count sample_ab sample_two 0 0 0 0 = 0 /\
    ~ (Z.of_nat (length rows) <= 0 + 0 + 0 + 0).
Proof.
  exists (default [] (all_rows sample_ab sample_two 0 0 0 0)).
  split; [vm_compute; reflexivity|]. split; [vm_compute; reflexivity|].
  split; [vm_compute; reflexivity|]. vm_compute. intros H. now apply H.
Qed.

(** ** The PDF Finalizer: file names *)

Section Strings.

Lemma chars_append (s1 s2 : string) : chars (s1 +:+ s2) = chars s1 ++ chars s2.
Proof. induction s1 as [|c s1 IH]; simpl; [reflexivity|]. now rewrite <- IH. Qed.

Lemma length_chars (s : string) : length (chars s) = String.length s.
Proof. induction s as [|c s IH]; simpl; [reflexivity|]. now rewrite <- IH. Qed.

Lemma chars_inj (s1 s2 : string) : chars s1 = chars s2 -> s1 = s2.
Proof.
  intros H. rewrite <- (string_of_list_ascii_of_string s1), <- (string_of_list_ascii_of_string s2).
  unfold chars in H. now rewrite H.
Qed.

Lemma chars_remove_chars (drop : ascii -> bool) (s : string) :
  chars (remove_chars drop s) = List.filter (fun c => negb (drop c)) (chars s).
Proof.
  induction s as [|c s IH]; simpl; [reflexivity|].
  destruct (drop c); simpl; [exact IH|]. unfold chars in *. simpl. now rewrite IH.
Qed.

Lemma chars_str_rev (s : string) : chars (str_rev s) = rev (chars s).
Proof. unfold chars, str_rev. apply list_ascii_of_string_of_list_ascii. Qed.

Lemma chars_str_prefix (n : nat) (s : string) : chars (str_prefix n s) = firstn n (chars s).
Proof.
  unfold str_prefix. revert n. induction s as [|c s IH]; intros [|n]; simpl; try reflexivity.
  unfold chars in *. simpl. now rewrite IH.
Qed.

Lemma filter_rev {A} (p : A -> bool) (l : list A) :
  List.filter p (rev l) = rev (List.filter p l).
Proof.
  induction l as [|x l IH]; simpl; [reflexivity|].
  rewrite List.filter_app, IH. simpl. destruct (p x); simpl; [reflexivity|].
  now rewrite app_nil_r.
Qed.

Lemma non_space_lstrip (s : string) :
  List.filter (fun c => negb (is_space c)) (chars (lstrip s)) =
  List.filter (fun c => negb (is_space c)) (chars s).
Proof.
  induction s as [|c s IH]; [reflexivity|].
  change (lstrip (String c s)) with (if is_space c then lstrip s else String c s).
  destruct (is_space c) eqn:E; [|reflexivity].
  change (chars (String c s)) with (c :: chars s).
  cbn [List.filter]. now rewrite E.
Qed.

(** Removing all whitespace makes the [strip] before it redundant. *)
Lemma remove_space_strip (s : string) :
  remove_chars is_space (strip s) = remove_chars is_space s.
Proof.
  apply chars_inj. rewrite !chars_remove_chars. unfold strip.
  rewrite chars_str_rev, filter_rev, non_space_lstrip.
  rewrite chars_str_rev, filter_rev, rev_involutive.
  apply non_space_lstrip.
Qed.

Lemma remove_chars_twice (d1 d2 : ascii -> bool) (s : string) :
  remove_chars d2 (remove_chars d1 s) = remove_chars (fun c => d1 c || d2 c) s.
Proof.
  induction s as [|c s IH]; simpl; [reflexivity|].
  destruct (d1 c); simpl; [exact IH|]. destruct (d2 c); [exact IH|]. now rewrite IH.
Qed.

Lemma free_of_append (bad : ascii -> bool) (s1 s2 : string) :
  free_of bad s1 -> free_of bad s2 -> free_of bad (s1 +:+ s2).
Proof.
  unfold free_of. intros H1 H2 c. rewrite chars_append, in_app_iff. intros [H|H]; auto.
Qed.

Lemma free_of_concat (bad : ascii -> bool) (sep : string) (l : list string) :
  free_of bad sep -> (forall p, In p l -> free_of bad p) ->
  free_of bad (String.concat sep l).
Proof.
  intros Hsep. induction l as [|p [|q l] IH]; intros Hl.
  - intros c [].
  - apply Hl. now left.
  - change (String.concat sep (p :: q :: l)) with (p +:+ sep +:+ String.concat sep (q :: l)).
    apply free_of_append; [apply Hl; now left|].
    apply free_of_append; [exact Hsep|]. apply IH. intros r Hr. apply Hl. now right.
Qed.

Lemma free_of_literal (bad : ascii -> bool) (s : string) :
  forallb (fun c => negb (bad c)) (chars s) = true -> free_of bad s.
Proof.
  intros H c Hc. rewrite forallb_forall in H. apply H in Hc.
  now apply negb_true_iff in Hc.
Qed.

Lemma length_concat (sep : string) (l : list string) :
  (String.length (String.concat sep l) <= joined_length sep l - String.length sep)%nat.
Proof.
  induction l as [|p [|q l] IH].
  - simpl. lia.
  - simpl. lia.
  - change (String.concat sep (p :: q :: l)) with (p +:+ sep +:+ String.concat sep (q :: l)).
    rewrite !length_append. simpl joined_length in *. lia.
Qed.

Lemma joined_length_filter (sep : string) (keep : string -> bool) (l : list string) :
  (joined_length sep (List.filter keep l) <= joined_length sep l)%nat.
Proof.
  induction l as [|p l IH]; simpl; [lia|]. destruct (keep p); simpl; lia.
Qed.

End Strings.

Section Sanitize.

Lemma free_of_remove_chars (bad drop : ascii -> bool) (s : string) :
  (forall c, bad c = true -> drop c = true) -> free_of bad (remove_chars drop s).
Proof.
  intros H c Hc. unfold free_of in *. rewrite chars_remove_chars in Hc.
  apply filter_In in Hc as [_ Hc]. apply negb_true_iff in Hc.
  destruct (bad c) eqn:E; [|reflexivity]. apply H in E. congruence.
Qed.

Lemma free_of_str_prefix (bad : ascii -> bool) (n : nat) (s : string) :
  free_of bad s -> free_of bad (str_prefix n s).
Proof.
  intros H c Hc. rewrite chars_str_prefix in Hc. apply In_firstn in Hc. now apply H.
Qed.

Lemma length_str_prefix (n : nat) (s : string) : (String.length (str_prefix n s) <= n)%nat.
Proof. rewrite <- length_chars, chars_str_prefix, length_firstn. lia. Qed.

(** What [_sanitize] makes of a cell: nothing of an empty one, else its text
    without whitespace and path-unsafe characters, cut to 150 characters. *)
Lemma sanitize_text (s : string) :
  _sanitize (Some (Str s)) =
  str_prefix 150 (remove_chars (fun c => is_space c || is_unsafe c) s).
Proof. unfold _sanitize. now rewrite remove_space_strip, remove_chars_twice. Qed.

Lemma sanitize_safe (value : option Cell) :
  (String.length (_sanitize value) <= 150)%nat /\
  free_of is_space (_sanitize value) /\ free_of is_unsafe (_sanitize value).
Proof.
  assert (H : forall s,
            (String.length (_sanitize (Some (Str s))) <= 150)%nat /\
            free_of is_space (_sanitize (Some (Str s))) /\
            free_of is_unsafe (_sanitize (Some (Str s)))).
  { intros s. rewrite sanitize_text. split; [apply length_str_prefix|].
    split; apply free_of_str_prefix, free_of_remove_chars; intros c ->;
      [reflexivity|apply orb_true_r]. }
  destruct value as [[|s|s]|]; try (repeat split; [simpl; lia|intros c []|intros c []]);
    apply H.
Qed.

Lemma concat_empty (sep : string) (l : list string) :
  (forall p, In p l -> p <> "") -> String.concat sep l = "" -> l = [].
Proof.
  destruct l as [|p [|q l]]; intros H E; [reflexivity| |].
  - simpl in E. exfalso. apply (H p); [now left|exact E].
  - exfalso. apply (H p); [now left|].
    change (String.concat sep (p :: q :: l)) with (p +:+ sep +:+ String.concat sep (q :: l)) in E.
    destruct p; [reflexivity|discriminate].
Qed.

Lemma In_non_empty (parts : list string) (p : string) :
  In p (non_empty parts) -> In p parts /\ p <> "".
Proof.
  unfold non_empty. intros H. apply filter_In in H as [H E]. split; [exact H|].
  intros ->. discriminate.
Qed.

(** The base of the name: the parts that are not empty, joined. *)
Lemma determine_filename_base (row : Row) (idx : nat) :
  _determine_filename row idx =
  (let parts := non_empty (sanitized_fields row idx ++ (if (idx =? 2)%nat then ["doc2"] else [])) in
   match parts with
   | [] => "row_" +:+ decimal idx
   | _ => String.concat "_" parts
   end) +:+ ".pdf".
Proof.
  unfold _determine_filename. fold (sanitized_fields row idx). cbv zeta. f_equal.
  replace (if (idx =? 2)%nat then sanitized_fields row idx ++ ["doc2"]
           else sanitized_fields row idx)
    with (sanitized_fields row idx ++ (if (idx =? 2)%nat then ["doc2"] else []))
    by (destruct (idx =? 2)%nat; [reflexivity|apply app_nil_r]).
  fold (non_empty (sanitized_fields row idx ++ (if (idx =? 2)%nat then ["doc2"] else []))).
  set (parts := non_empty _).
  destruct (String.eqb_spec (String.concat "_" parts) "") as [E|E].
  - apply concat_empty in E; [now rewrite E|].
    intros p Hp. now apply In_non_empty in Hp.
  - destruct parts; [now elim E|reflexivity].
Qed.

Lemma sanitized_fields_safe (row : Row) (idx : nat) (p : string) :
  In p (sanitized_fields row idx) ->
  (String.length p <= 150)%nat /\ free_of is_space p /\ free_of is_unsafe p.
Proof.
  unfold sanitized_fields. simpl.
  intros [<-|[<-|[<-|[<-|[<-|[]]]]]]; apply sanitize_safe.
Qed.

End Sanitize.

(** C7, as the code has it. For a row and a slot, the sanitized fields are the
    TaskID, Ticker, Form, Period and FilingDate of the slot, each without
    whitespace and path-unsafe characters and cut to 150 characters. When one
    of them at least is not empty, the name is the fields that are not empty,
    joined by underscores, followed for slot 2 by the marker [doc2], and by
    [.pdf]. The name has no whitespace and no path-unsafe character. The cap
    is on each field: the name has 763 characters at most. *)
Theorem filename_derivation (row : Row) (idx : nat) :
  idx = 1%nat \/ idx = 2%nat ->
  let fields := non_empty (sanitized_fields row idx) in
  let name := _determine_filename row idx in
  (forall s, _sanitize (Some (Str s)) =
             str_prefix 150 (remove_chars (fun c => is_space c || is_unsafe c) s)) /\
  (forall p, In p fields ->
     (1 <= String.length p <= 150)%nat /\ free_of is_space p /\ free_of is_unsafe p) /\
  (fields <> [] ->
   name = String.concat "_" (fields ++ (if (idx =? 2)%nat then ["doc2"] else []))
          +:+ ".pdf") /\
  free_of is_space name /\ free_of is_unsafe name /\
  (String.length name <= 5 * 150 + 5 + String.length "doc2" + String.length ".pdf")%nat.
Proof.
  intros Hidx fields name.
  assert (Hfields : forall p, In p fields ->
            (1 <= String.length p <= 150)%nat /\ free_of is_space p /\ free_of is_unsafe p).
  { intros p Hp. apply In_non_empty in Hp as [Hp Hne].
    apply sanitized_fields_safe in Hp as (L & S & U).
    repeat split; auto. destruct p; [now elim Hne|simpl; lia]. }
  assert (Hname : name = (if (idx =? 2)%nat then String.concat "_" (fields ++ ["doc2"])
                          else match fields with
                               | [] => "row_" +:+ decimal idx
                               | _ => String.concat "_" fields
                               end) +:+ ".pdf").
  { subst name. rewrite determine_filename_base. cbv zeta. f_equal.
    unfold non_empty. rewrite List.filter_app. fold (non_empty (sanitized_fields row idx)).
    fold fields. destruct Hidx as [-> | ->]; simpl.
    - rewrite app_nil_r. reflexivity.
    - destruct (fields ++ ["doc2"]) eqn:E; [|reflexivity].
      now apply app_eq_nil in E as [_ E]. }
  split; [apply sanitize_text|]. split; [exact Hfields|].
  split.
  { intros Hne. rewrite Hname. destruct (idx =? 2)%nat; [reflexivity|].
    rewrite app_nil_r. destruct fields; [now elim Hne|reflexivity]. }
  assert (Hparts : forall bad, bad = is_space \/ bad = is_unsafe ->
            forall p, In p (fields ++ ["doc2"]) -> free_of bad p).
  { intros bad Hbad p Hp. apply in_app_iff in Hp as [Hp|[<-|[]]].
    - destruct (Hfields p Hp) as (_ & S & U). now destruct Hbad as [-> | ->].
    - apply free_of_literal. now destruct Hbad as [-> | ->]. }
  assert (Hfree : forall bad, bad = is_space \/ bad = is_unsafe -> free_of bad name).
  { intros bad Hbad. rewrite Hname.
    apply free_of_append;
      [|apply free_of_literal; now destruct Hbad as [-> | ->]].
    destruct (idx =? 2)%nat.
    - apply free_of_concat; [apply free_of_literal; now destruct Hbad as [-> | ->]|].
      apply Hparts, Hbad.
    - destruct fields as [|p l] eqn:E.
      + apply free_of_literal. now destruct Hidx as [-> | ->]; destruct Hbad as [-> | ->].
      + apply free_of_concat; [apply free_of_literal; now destruct Hbad as [-> | ->]|].
        intros q Hq. apply (Hparts bad Hbad). apply in_app_iff. now left. }
  split; [apply Hfree; now left|]. split; [apply Hfree; now right|].
  subst name. rewrite determine_filename_base. cbv zeta. rewrite length_append.
  set (parts := sanitized_fields row idx ++ _).
  assert (Hj : (joined_length "_" (non_empty parts) <= 5 * 151 + 5)%nat).
  { etransitivity; [apply joined_length_filter|].
    subst parts. unfold sanitized_fields.
    pose proof (sanitize_safe (row !! "TaskID")) as (L1 & _).
    pose proof (sanitize_safe (row !! col "Ticker" idx)) as (L2 & _).
    pose proof (sanitize_safe (row !! col "Form" idx)) as (L3 & _).
    pose proof (sanitize_safe (row !! col "Period" idx)) as (L4 & _).
    pose proof (sanitize_safe (row !! col "FilingDate" idx)) as (L5 & _).
    destruct (idx =? 2)%nat; simpl; lia. }
  pose proof (length_concat "_" (non_empty parts)) as Hc.
  destruct (non_empty parts) eqn:E.
  - destruct Hidx as [-> | ->]; simpl; lia.
  - simpl String.length in *. lia.
Qed.

Lemma filename_derivation_witness :
  _determine_filename sample_row 1 = "A_01_AAPL_10-K_2024-11-01.pdf" /\
  (String.length (_determine_filename sample_row 1)
     <= 5 * 150 + 5 + String.length "doc2" + String.length ".pdf")%nat.
Proof.
  destruct (filename_derivation sample_row 1) as (_ & _ & Hname & _ & _ & Hlen).
  - left. reflexivity.
  - split; [rewrite Hname; [vm_compute; reflexivity|vm_compute; discriminate]|exact Hlen].
Defined.

(** C7 as stated fails on the length: the cap is on each field, not on the
    name. A TaskID of 150 characters and a ticker of one give a name of 156
    characters, more than the cap and the extension. *)
Lemma filename_longer_than_cap_and_extension :
  String.length (_sanitize (long_row !! "TaskID")) = 150%nat /\
  ~ (String.length (_determine_filename long_row 1) <= 150 + String.length ".pdf")%nat.
Proof.
  split; [vm_compute; reflexivity|].
  assert (E : String.length (_determine_filename long_row 1) = 156%nat)
    by (vm_compute; reflexivity).
  rewrite E. simpl. lia.
Qed.

(** With no field at all, the fallback [row_1.pdf] holds the number of the
    slot, not the index of the row, and slot 2 gets its marker alone. *)
Lemma filename_of_an_empty_slot :
  _determine_filename ∅ 1 = "row_1.pdf" /\ _determine_filename ∅ 2 = "doc2.pdf".
Proof. split; vm_compute; reflexivity. Qed.

(** ** The PDF Finalizer: download with retries *)

Section Retries.

Lemma random_value_range (bits : N) : (0 <= random_value bits /\ random_value bits < 1)%Q.
Proof.
  unfold random_value, Qle, Qlt. cbn [Qnum Qden].
  set (d := (2 ^ 53)%positive).
  assert (H : (bits mod N.pos d < N.pos d)%N) by (apply N.mod_upper_bound; discriminate).
  change (2 ^ 53)%N with (N.pos d).
  generalize dependent (bits mod N.pos d)%N. intros. lia.
Qed.

(** The randomized part of a sleep lies in the configured range. *)
Lemma base_sleep_range (env : Env) (sleep_min sleep_max : Q) (draw : nat) :
  (sleep_min <= sleep_max)%Q ->
  (sleep_min <= base_sleep env sleep_min sleep_max draw <= sleep_max)%Q.
Proof.
  intros H. unfold base_sleep.
  destruct (random_value_range (rng_bits env draw)) as [H0 H1].
  generalize dependent (random_value (rng_bits env draw)). intros u H0 H1.
  split; nra.
Qed.

(** One fetch: a call to the server, whose answer decides; it never raises. *)
Lemma download_once_spec (env : Env) (url path : string) (s : State) :
  let r := _download_html_once env url path s in
  fst r = Returned (fetch_ok (server env (gets s))) /\
  gets (snd r) = S (gets s) /\ draws (snd r) = draws s /\
  calls (snd r) = calls s ++ [Get url].
Proof.
  unfold _download_html_once, bind, http_get, calls, modify, ret. cbn [fst snd].
  destruct (server env (gets s)) as [|text]; cbn.
  - rewrite map_app. auto.
  - destruct (contains _ _); cbn; rewrite map_app; auto.
Qed.

(** With [0 <= sleep_min <= sleep_max] no sleep of the loop is negative. *)
Lemma retry_sleep_nonneg (env : Env) (sleep_min sleep_max : Q) (draw attempt : nat) :
  (0 <= sleep_min)%Q -> (sleep_min <= sleep_max)%Q ->
  Qle_bool 0 (retry_sleep env sleep_min sleep_max draw attempt) = true.
Proof.
  intros H0 H. apply Qle_bool_iff. unfold retry_sleep.
  destruct (base_sleep_range env sleep_min sleep_max draw H) as [Hb _].
  assert (Ha : (0 <= inject_Z (Z.of_nat attempt))%Q).
  { unfold Qle. simpl. lia. }
  generalize dependent (base_sleep env sleep_min sleep_max draw).
  generalize dependent (inject_Z (Z.of_nat attempt)). intros. nra.
Qed.

(** The loop over the attempts [a, a+1, ..., a+n-1]. *)
Lemma retry_loop_spec (env : Env) (url path : string) (sleep_min sleep_max : Q)
    (n a : nat) (s : State) :
  (0 <= sleep_min)%Q -> (sleep_min <= sleep_max)%Q ->
  let r := retry_loop env url path sleep_min sleep_max (seq a n) s in
  exists (ok : bool) (attempts failures : nat),
    fst r = Returned ok /\
    (attempts <= n)%nat /\
    gets (snd r) = (gets s + attempts)%nat /\
    failures = (if ok then attempts - 1 else attempts)%nat /\
    (ok = true ->
       (1 <= attempts)%nat /\ fetch_ok (server env (gets s + attempts - 1)) = true) /\
    (ok = false -> attempts = n) /\
    (forall j, (j < failures)%nat -> fetch_ok (server env (gets s + j)) = false) /\
    calls (snd r) =
      calls s
      ++ flat_map (fun j => [Get url;
                             Sleep (retry_sleep env sleep_min sleep_max (draws s + j) (a + j))])
                  (seq 0 failures)
      ++ (if ok then [Get url] else []).
Proof.
  intros H0 Hle. revert a s. induction n as [|n IH]; intros a s; cbv zeta.
  - exists false, 0%nat, 0%nat. simpl. rewrite app_nil_r.
    split_and!; auto; try lia; discriminate.
  - simpl seq. simpl retry_loop. unfold bind.
    pose proof (download_once_spec env url path s) as (Hok & Hg & Hd & Hc).
    destruct (_download_html_once env url path s) as [o s1]. cbn [fst snd] in Hok, Hg, Hd, Hc.
    subst o. destruct (fetch_ok (server env (gets s))) eqn:Hfetch.
    + exists true, 1%nat, 0%nat. unfold ret. cbn [fst snd]. rewrite Hg, Hc.
      replace (gets s + 1 - 1)%nat with (gets s) by lia.
      split_and!; auto; try lia; try discriminate.
    + unfold random. cbv beta iota.
      change ((sleep_min + random_value (rng_bits env (draws s1)) * (sleep_max - sleep_min)
               + inject_Z (Z.of_nat a) * (6 # 10))%Q)
        with (retry_sleep env sleep_min sleep_max (draws s1) a).
      unfold sleep. rewrite (retry_sleep_nonneg env _ _ _ _ H0 Hle).
      unfold modify. cbv beta iota.
      set (s2 := record _ (next_draw s1)).
      specialize (IH (S a) s2). cbv zeta in IH.
      destruct IH as (ok & k & f & Hr & Hk & Hgets & Hf & Htrue & Hfalse & Hfail & Hcalls).
      assert (Hg2 : gets s2 = S (gets s)) by (subst s2; simpl; exact Hg).
      assert (Hd2 : draws s2 = S (draws s)) by (subst s2; simpl; now rewrite Hd).
      assert (Hc2 : calls s2 = calls s ++ [Get url;
                      Sleep (retry_sleep env sleep_min sleep_max (draws s + 0) (a + 0))]).
      { subst s2. unfold calls, record. simpl. rewrite map_app. simpl.
        fold (calls s1). rewrite Hc, <- app_assoc. simpl.
        now rewrite !Nat.add_0_r, Hd. }
      exists ok, (S k), (S f). rewrite Hgets, Hg2.
      split; [exact Hr|]. split; [lia|]. split; [lia|].
      split.
      { destruct ok; [|lia]. destruct (Htrue eq_refl) as [Hk1 _]. lia. }
      split.
      { intros E. destruct (Htrue E) as [Hk1 Hs]. split; [lia|].
        rewrite Hg2 in Hs.
        now replace (gets s + S k - 1)%nat with (S (gets s) + k - 1)%nat by lia. }
      split; [intros E; f_equal; auto|].
      split.
      { intros [|j] Hj.
        - now rewrite Nat.add_0_r.
        - rewrite <- Nat.add_succ_comm, <- Hg2. apply Hfail. lia. }
      rewrite Hcalls, Hc2, <- !app_assoc. f_equal.
      change (seq 0 (S f)) with (0%nat :: seq 1 f).
      simpl. f_equal. f_equal. f_equal.
      rewrite <- (seq_shift f 0).
      rewrite (flat_map_concat_map _ (map S (seq 0 f))), map_map, <- flat_map_concat_map.
      apply flat_map_ext. intros j. now rewrite Hd, !Nat.add_succ_r.
Qed.

End Retries.




(** Why [sleep_min] must not be negative: with [sleep_min = sleep_max = -5]
    the first sleep is negative, [time.sleep] raises and the download does
    not return. *)
Lemma negative_sleep_raises :
  fst (_download_html_with_retries offline_env "u" "p" (-5 # 1) (-5 # 1) 2 fresh_state)
  = Raised ValueError.
Proof. vm_compute. reflexivity. Qed.

(** ** The PDF Finalizer: the "only missing" mode *)

Section OnlyMissing.

Lemma touches_only_refl (j d : nat) (s : State) : touches_only j d s s.
Proof.
  intros H. split; [exact H|]. split; [|auto].
  exists []. split; [now rewrite app_nil_r|]. intros e [].
Qed.

Lemma touches_only_trans (j d : nat) (s1 s2 s3 : State) :
  touches_only j d s1 s2 -> touches_only j d s2 s3 -> touches_only j d s1 s3.
Proof.
  intros H12 H23 H1. destruct (H12 H1) as (H2 & (n12 & T12 & L12) & C12).
  destruct (H23 H2) as (H3 & (n23 & T23 & L23) & C23).
  split; [exact H3|]. split.
  - exists (n12 ++ n23). split; [now rewrite T23, T12, app_assoc|].
    intros e He. apply in_app_iff in He as [He|He]; auto.
  - intros i c Hic. now rewrite C23, C12.
Qed.

Lemma quiet_ret (j d : nat) {A} (x : A) : quiet j d (ret x).
Proof. intros s. apply touches_only_refl. Qed.

Lemma quiet_bind (j d : nat) {A B} (m : M A) (f : A -> M B) :
  quiet j d m -> (forall x, quiet j d (f x)) -> quiet j d (bind m f).
Proof.
  intros Hm Hf s. unfold bind. specialize (Hm s).
  destruct (m s) as [[x|e] s1]; [|exact Hm].
  eapply touches_only_trans; [exact Hm|apply Hf].
Qed.

Lemma quiet_raise (j d : nat) {A} (e : Exn) : quiet j d (@raise A e).
Proof. intros s. apply touches_only_refl. Qed.

Lemma quiet_read (j d : nat) {A} (f : State -> A) : quiet j d (read f).
Proof. intros s. apply touches_only_refl. Qed.

(** A change of the state that keeps the label and the table, and records
    [new] under the label. *)
Lemma touches_only_record (j d : nat) (s s' : State) (new : list Event) :
  unit_of_work s' = unit_of_work s ->
  df_rows s' = df_rows s ->
  trace s' = trace s ++ map (fun e => (unit_of_work s, e)) new ->
  touches_only j d s s'.
Proof.
  intros Hu Hdf Ht H. split; [congruence|]. split; [|intros; now rewrite Hdf].
  eexists. split; [exact Ht|]. intros e He.
  apply in_map_iff in He as (e' & <- & _). exact H.
Qed.

Lemma quiet_http_get (j d : nat) (env : Env) (url : string) : quiet j d (http_get env url).
Proof. intros s. now apply (touches_only_record _ _ _ _ [Get url]). Qed.

Lemma quiet_random (j d : nat) (env : Env) : quiet j d (random env).
Proof. intros s. apply (touches_only_record _ _ _ _ []); simpl; auto using app_nil_r. Qed.

Lemma quiet_sleep (j d : nat) (seconds : Q) : quiet j d (sleep seconds).
Proof.
  unfold sleep. destruct (Qle_bool 0 seconds); [|apply quiet_raise].
  intros s. now apply (touches_only_record _ _ _ _ [Sleep seconds]).
Qed.

Lemma quiet_path_exists (j d : nat) (env : Env) (files : State -> gmap string string)
    (path : string) :
  quiet j d (path_exists env files path).
Proof.
  unfold path_exists. destruct (stat_fails env path); [apply quiet_raise|apply quiet_read].
Qed.

Lemma quiet_checksum (j d : nat) (env : Env) (path : string) : quiet j d (_checksum env path).
Proof.
  intros s. unfold _checksum. destruct (outdir s !! path); apply touches_only_refl.
Qed.

Lemma quiet_write_html (j d : nat) (path text : string) :
  quiet j d (modify (with_html_cache <[path := text]>)).
Proof. intros s. apply (touches_only_record _ _ _ _ []); simpl; auto using app_nil_r. Qed.

Lemma quiet_log_failure (j d : nat) (task_id : option Cell) (url reason : string) :
  quiet j d (log_failure task_id url reason).
Proof. intros s. apply (touches_only_record _ _ _ _ []); simpl; auto using app_nil_r. Qed.

Lemma quiet_render (j d : nat) (env : Env) (html_path pdf_path : string) :
  quiet j d (_render_local_html env html_path pdf_path).
Proof.
  intros s. unfold _render_local_html.
  destruct (chromium env (renders s));
    now apply (touches_only_record _ _ _ _ [Render html_path pdf_path]).
Qed.

Lemma cell_alter_other (table : list Row) (j i : nat) (c c' : string) (v : Cell) :
  i <> j \/ c' <> c ->
  cell (alter <[c := v]> j table) i c' = cell table i c'.
Proof.
  intros H. unfold cell. destruct (decide (j = i)) as [->|Hne].
  - destruct H as [H|H]; [congruence|].
    rewrite list_lookup_alter_eq. destruct (table !! i); simpl; [|reflexivity].
    now apply lookup_insert_ne.
  - now rewrite list_lookup_alter_ne.
Qed.

Lemma quiet_set_cell (j d : nat) (env : Env) (column value : string) :
  column = col "PDF_filename" d \/ column = col "PDF_checksum" d ->
  quiet j d (set_cell env j column value).
Proof.
  intros Hc. unfold set_cell. destruct (rejects_text env column); [apply quiet_raise|].
  intros s H. split; [exact H|]. split.
  - exists []. split; [simpl; now rewrite app_nil_r|]. intros e [].
  - intros i c Hic. simpl. apply cell_alter_other.
    destruct Hic as [Hi|[H1 H2]]; [now left|right]. destruct Hc; congruence.
Qed.

Lemma quiet_download_once (j d : nat) (env : Env) (url path : string) :
  quiet j d (_download_html_once env url path).
Proof.
  unfold _download_html_once. apply quiet_bind; [apply quiet_http_get|].
  intros [|text]; [apply quiet_ret|].
  destruct (contains _ _); [apply quiet_ret|].
  apply quiet_bind; [apply quiet_write_html|]. intros _. apply quiet_ret.
Qed.

Lemma quiet_retry_loop (j d : nat) (env : Env) (url path : string) (sleep_min sleep_max : Q)
    (attempts : list nat) :
  quiet j d (retry_loop env url path sleep_min sleep_max attempts).
Proof.
  induction attempts as [|attempt rest IH]; simpl; [apply quiet_ret|].
  apply quiet_bind; [apply quiet_download_once|]. intros [|]; [apply quiet_ret|].
  apply quiet_bind; [apply quiet_random|]. intros u.
  apply quiet_bind; [apply quiet_sleep|]. intros _. exact IH.
Qed.

(** The calls of a piece of the run are quiet when its parts are. *)
Ltac quiet_solve :=
  lazymatch goal with
  | |- quiet _ _ (bind _ _) => apply quiet_bind; [quiet_solve | intros ?; quiet_solve]
  | |- quiet _ _ (ret _) => apply quiet_ret
  | |- quiet _ _ (read _) => apply quiet_read
  | |- quiet _ _ (path_exists _ _ _) => apply quiet_path_exists
  | |- quiet _ _ (_checksum _ _) => apply quiet_checksum
  | |- quiet _ _ (log_failure _ _ _) => apply quiet_log_failure
  | |- quiet _ _ (set_cell _ _ _ _) => apply quiet_set_cell; auto
  | |- quiet _ _ (random _) => apply quiet_random
  | |- quiet _ _ (sleep _) => apply quiet_sleep
  | |- quiet _ _ (_render_local_html _ _ _) => apply quiet_render
  | |- quiet _ _ (_download_html_with_retries _ _ _ _ _ _) => apply quiet_retry_loop
  | |- quiet _ _ (if ?c then _ else _) => destruct c; quiet_solve
  | |- quiet _ _ (match ?x with _ => _ end) => destruct x; quiet_solve
  | |- quiet _ _ (fun s => (_, s)) => intros ?; apply touches_only_refl
  end.

(** The work on a slot touches its own label and its own cells only. *)
Lemma process_doc_touches_only (env : Env) (args : Args) (sleep_min sleep_max : Q)
    (max_fetch_retries : Z) (j : nat) (row : Row) (d : nat) (s : State) :
  touches_only j d (with_unit_of_work (j, d) s)
    (snd (process_doc env args sleep_min sleep_max max_fetch_retries j row d s)).
Proof.
  unfold process_doc. unfold bind at 1. unfold modify at 1. cbv beta iota zeta.
  generalize (with_unit_of_work (j, d) s). clear s.
  match goal with
  | |- forall s, touches_only _ _ s (snd (?m s)) => change (quiet j d m)
  end.
  quiet_solve.
Qed.

End OnlyMissing.

Section Resume.

(** A loop that returns has run every step, and every step returned. *)
Lemma for_each_inv {A} (P : State -> Prop) (body : A -> M unit) (l : list A) :
  (forall x, In x l -> forall s, P s -> fst (body x s) = Returned tt -> P (snd (body x s))) ->
  forall s, P s -> fst (for_each body l s) = Returned tt -> P (snd (for_each body l s)).
Proof.
  induction l as [|x l IH]; intros H s Hs; simpl; [intros _; exact Hs|].
  unfold bind. specialize (H x (or_introl eq_refl) s Hs) as Hx.
  destruct (body x s) as [[[]|e] s1]; [|discriminate].
  intros Hr. apply IH; [|apply Hx; reflexivity|exact Hr].
  intros y Hy. apply H. now right.
Qed.

(** A run that writes its table has run the loop to its end. *)
Lemma main_returned (env : Env) (args : Args) (df : DataFrame)
    (cache pdfs : gmap string string) (out_columns : list string) (final : State) :
  main env args df cache pdfs = Some (out_columns, final) ->
  let r := main_loop env args (sleep_min args) (py_max (sleep_min args) (sleep_max args))
             (Z.max 0 (max_fetch_retries args)) (rows (with_pdf_columns df))
             (initial_state (rows (with_pdf_columns df)) cache pdfs) in
  fst r = Returned tt /\ snd r = final.
Proof.
  unfold main. destruct (forallb _ _); [|discriminate]. cbv zeta.
  destruct (main_loop _ _ _ _ _ _ _) as [[[]|e] s1]; [|discriminate].
  intros [= _ <-]. split; reflexivity.
Qed.


Lemma In_iterrows (table : list Row) (j : nat) (r : Row) :
  In (j, r) (combine (seq 0 (length table)) table) -> table !! j = Some r.
Proof.
  cut (forall a, In (j, r) (combine (seq a (length table)) table) ->
                 (a <= j)%nat /\ table !! (j - a)%nat = Some r).
  { intros H Hin. destruct (H 0%nat Hin) as [_ E]. now rewrite Nat.sub_0_r in E. }
  induction table as [|x t IH]; intros a; simpl; [tauto|].
  intros [[= <- <-]|H].
  - split; [lia|]. now rewrite Nat.sub_diag.
  - apply IH in H as [Ha E]. split; [lia|].
    replace (j - a)%nat with (S (j - S a)) by lia. exact E.
Qed.

(** An invariant of the steps that return holds at the end of the loop. *)
Lemma main_loop_inv (env : Env) (args : Args) (sleep_min sleep_max : Q)
    (max_fetch_retries : Z) (P : State -> Prop) (table : list Row) :
  (forall j row d s,
     table !! j = Some row -> d = 1%nat \/ d = 2%nat -> P s ->
     fst (process_doc env args sleep_min sleep_max max_fetch_retries j row d s)
       = Returned tt ->
     P (snd (process_doc env args sleep_min sleep_max max_fetch_retries j row d s))) ->
  forall s, P s ->
  fst (main_loop env args sleep_min sleep_max max_fetch_retries table s) = Returned tt ->
  P (snd (main_loop env args sleep_min sleep_max max_fetch_retries table s)).
Proof.
  intros Hstep s Hs. unfold main_loop. apply (for_each_inv P); [|exact Hs].
  intros [j r] Hjr s1 Hs1. apply In_iterrows in Hjr. cbn [fst snd].
  apply (for_each_inv P); [|exact Hs1].
  intros d Hd s2 Hs2. apply Hstep; auto. simpl in Hd. intuition.
Qed.


Lemma pdf_columns_differ (d slot : nat) :
  d = 1%nat \/ d = 2%nat -> slot = 1%nat \/ slot = 2%nat -> d <> slot ->
  forall c, c = col "PDF_filename" slot \/ c = col "PDF_checksum" slot ->
            c <> col "PDF_filename" d /\ c <> col "PDF_checksum" d.
Proof.
  intros [-> | ->] [-> | ->] Hne c [-> | ->]; try congruence; split; discriminate.
Qed.


End Resume.




(** An empty cell reads as NaN, which is truthy and prints as [nan]: in the
    [only_missing] mode the guard passes over the slot of an empty file name
    as it does over a named one. *)
Lemma empty_filename_cell_is_passed_over (env : Env) (args : Args) (sleep_min sleep_max : Q)
    (max_fetch_retries : Z) (j : nat) (row : Row) (d : nat) (s : State) :
  only_missing args = true ->
  row !! col "PDF_filename" d = Some NaN ->
  process_doc env args sleep_min sleep_max max_fetch_retries j row d s
  = (Returned tt, with_unit_of_work (j, d) s).
Proof.
  intros Hom Hname. unfold process_doc, bind, modify, ret. cbv beta iota zeta.
  destruct (String.eqb _ ""); [reflexivity|].
  rewrite Hom, Hname. reflexivity.
Qed.

(** * Further properties of the code *)

(** ** Peer pairing *)

Section PeerPairs.

Lemma eq_of_string (a b : string) : eq_of String.compare a b = true -> a = b.
Proof.
  unfold eq_of. destruct (String.compare a b) eqn:E; try discriminate.
  intros _. now apply String.compare_eq_iff.
Qed.

Lemma stage1_pairs_same (df : ManifestTable) (x y : FilingRecord) :
  In (x, y) (stage1_pairs df) ->
  In x df /\ In y df /\ Sector x = Sector y /\ Year x = Year y.
Proof.
  unfold stage1_pairs. intros H.
  apply in_flat_map in H as ([s g] & Hg & H). simpl in H.
  apply in_flat_map in H as ([yr gy] & Hgy & H). simpl in H.
  apply groupby_group in Hg, Hgy. subst gy g.
  apply In_pair_up in H as [Hx Hy].
  apply sort_values_In, filter_In in Hx as [Hx Yx].
  apply sort_values_In, filter_In in Hy as [Hy Yy].
  apply filter_In in Hx as [Hx Sx]. apply filter_In in Hy as [Hy Sy].
  apply eq_of_string in Yx, Yy, Sx, Sy. repeat split; auto; congruence.
Qed.

Lemma stage2_pairs_same (df : ManifestTable) (x y : FilingRecord) :
  In (x, y) (stage2_pairs df) -> In x df /\ In y df /\ Sector x = Sector y.
Proof.
  unfold stage2_pairs. intros H.
  apply in_flat_map in H as ([s g] & Hg & H). simpl in H.
  apply groupby_group in Hg. subst g.
  apply In_pair_up in H as [Hx Hy].
  apply sort_values_In, filter_In in Hx as [Hx Sx].
  apply sort_values_In, filter_In in Hy as [Hy Sy].
  apply eq_of_string in Sx, Sy. repeat split; auto; congruence.
Qed.

(** A row of [paired_peers] is a pair of one of the two stages. *)
Lemma paired_peers_pairs (ab_df : ManifestTable) (k : Z) (used : list (string * string))
    (r : TaskRow) :
  In r (paired_peers ab_df k used) ->
  exists task_id r1 r2,
    r = make_row_pair task_id "C (Peer)" r1 r2 /\
    (In (r1, r2) (stage1_pairs (peer_pool ab_df used)) \/
     In (r1, r2) (stage2_pairs (peer_pool ab_df used))).
Proof.
  intros H. destruct (paired_peers_inv ab_df k used) as (ps & Hps & n & E).
  rewrite E in H. apply In_firstn, In_number_peers in H as (tid & r' & Hr' & ->).
  apply in_map_iff in Hr' as ([r1 r2] & <- & Hp). exists tid, r1, r2. auto.
Qed.

(** When Stage 1 has the pairs asked for, they are the rows returned. *)
Lemma paired_peers_stage1 (ab_df : ManifestTable) (k : Z) (used : list (string * string)) :
  1 <= k <= Z.of_nat (length (stage1_pairs (peer_pool ab_df used))) ->
  paired_peers ab_df k used =
  number_peers (map peer_row (firstn (Z.to_nat k) (stage1_pairs (peer_pool ab_df used)))).
Proof.
  intros Hk. unfold paired_peers. rewrite collect_pairs_spec. simpl length. cbv zeta.
  replace (Z.to_nat (Z.max 1 (k - Z.of_nat 0))) with (Z.to_nat k) by lia.
  destruct (Nat.ltb_spec (length (stage1_pairs (peer_pool ab_df used))) (Z.to_nat k));
    [lia|reflexivity].
Qed.

Lemma peer_pool_unused (ab_df : ManifestTable) (used : list (string * string))
    (x : FilingRecord) :
  In x (peer_pool ab_df used) -> In x ab_df /\ ~ In (Company x, Ticker x) used.
Proof.
  unfold peer_pool. intros H. apply filter_In in H as [H E]. split; [exact H|].
  intros Hu. apply negb_true_iff in E.
  assert (T : existsb (fun u => eq_of cmp2 (Company x, Ticker x) u) used = true).
  { apply existsb_exists. exists (Company x, Ticker x). split; [exact Hu|].
    now apply cmp2_eq. }
  congruence.
Qed.

End PeerPairs.

(** X1. The two slots of a "C (Peer)" row hold filings of one sector. *)
Theorem peer_rows_pair_one_sector
    (ab two : ManifestTable) (a_count b_count c_yoy_count c_peer_count : Z)
    (rows : list TaskRow) (r : TaskRow) :
  all_rows ab two a_count b_count c_yoy_count c_peer_count = Some rows ->
  In r rows ->
  Category r = "C (Peer)" ->
  Sector_1 r = Sector_2 r.
Proof.
  unfold all_rows. intros H Hr Hcat.
  destruct (all_rows_with_In _ _ _ _ _ _ _ _ _ H Hr) as (a & b & _ & _ & Hcase).
  destruct Hcase as [[E _]|[[E _]|[[E _]|[_ Hp]]]];
    try (rewrite Hcat in E; discriminate).
  apply paired_peers_pairs in Hp as (tid & r1 & r2 & -> & [Hp|Hp]); simpl.
  - now apply stage1_pairs_same in Hp.
  - now apply stage2_pairs_same in Hp.
Qed.

Lemma peer_rows_pair_one_sector_witness :
  Sector_1 (make_row_pair "C_PEER_01" "C (Peer)"
              (filing "Alpha" "ALFA" "Tech" "2024-01-15")
              (filing "Beta" "BETA" "Tech" "2024-02-01")) =
  Sector_2 (make_row_pair "C_PEER_01" "C (Peer)"
              (filing "Alpha" "ALFA" "Tech" "2024-01-15")
              (filing "Beta" "BETA" "Tech" "2024-02-01")).
Proof.
  apply (peer_rows_pair_one_sector sample_ab sample_two 1 1 2 1
           (default [] (all_rows sample_ab sample_two 1 1 2 1))).
  - vm_compute. reflexivity.
  - vm_compute. tauto.
  - reflexivity.
Defined.

(** X2. No "C (Peer)" row holds, in either slot, the company and ticker of a
    "C (YoY)" row of the same table. *)
Theorem peer_rows_avoid_yoy_companies
    (ab two : ManifestTable) (a_count b_count c_yoy_count c_peer_count : Z)
    (rows : list TaskRow) (p y : TaskRow) :
  all_rows ab two a_count b_count c_yoy_count c_peer_count = Some rows ->
  In p rows -> Category p = "C (Peer)" ->
  In y rows -> Category y = "C (YoY)" ->
  (Company_1 p, Ticker_1 p) <> (Company_1 y, Ticker_1 y) /\
  (Company_2 p, Ticker_2 p) <> (Company_1 y, Ticker_1 y).
Proof.
  unfold all_rows. intros H Hp Cp Hy Cy.
  destruct (all_rows_with_In _ _ _ _ _ _ _ _ _ H Hp) as (a & b & _ & _ & Hcase).
  destruct Hcase as [[E _]|[[E _]|[[E _]|[_ Hp']]]];
    try (rewrite Cp in E; discriminate).
  destruct (all_rows_with_In _ _ _ _ _ _ _ _ _ H Hy) as (a' & b' & _ & _ & Hcase).
  destruct Hcase as [[E _]|[[E _]|[[_ Hy']|[E _]]]];
    try (rewrite Cy in E; discriminate).
  assert (Hused : In (Company_1 y, Ticker_1 y)
                     (unique (eq_of cmp2) (used_of (pick_yoy two c_yoy_count)))).
  { apply (proj2 (unique_layout _)). unfold used_of.
    apply in_map_iff. exists y. auto. }
  apply paired_peers_pairs in Hp' as (tid & r1 & r2 & -> & Hpair).
  assert (Hin : In r1 (peer_pool (sort_ab ab)
                         (unique (eq_of cmp2) (used_of (pick_yoy two c_yoy_count)))) /\
                In r2 (peer_pool (sort_ab ab)
                         (unique (eq_of cmp2) (used_of (pick_yoy two c_yoy_count))))).
  { destruct Hpair as [Hpair|Hpair].
    - apply stage1_pairs_same in Hpair. tauto.
    - apply stage2_pairs_same in Hpair. tauto. }
  destruct Hin as [H1 H2].
  apply peer_pool_unused in H1 as [_ H1]. apply peer_pool_unused in H2 as [_ H2].
  simpl. split; intros E.
  - apply H1. now rewrite E.
  - apply H2. now rewrite E.
Qed.

Lemma peer_rows_avoid_yoy_companies_witness :
  (Company_1 (make_row_pair "C_PEER_01" "C (Peer)"
                (filing "Alpha" "ALFA" "Tech" "2024-01-15")
                (filing "Beta" "BETA" "Tech" "2024-02-01")),
   Ticker_1 (make_row_pair "C_PEER_01" "C (Peer)"
               (filing "Alpha" "ALFA" "Tech" "2024-01-15")
               (filing "Beta" "BETA" "Tech" "2024-02-01")))
    <> (Company_1 sample_yoy_row, Ticker_1 sample_yoy_row) /\
  (Company_2 (make_row_pair "C_PEER_01" "C (Peer)"
                (filing "Alpha" "ALFA" "Tech" "2024-01-15")
                (filing "Beta" "BETA" "Tech" "2024-02-01")),
   Ticker_2 (make_row_pair "C_PEER_01" "C (Peer)"
               (filing "Alpha" "ALFA" "Tech" "2024-01-15")
               (filing "Beta" "BETA" "Tech" "2024-02-01")))
    <> (Company_1 sample_yoy_row, Ticker_1 sample_yoy_row).
Proof.
  apply (peer_rows_avoid_yoy_companies sample_ab sample_two 1 1 2 1
           (default [] (all_rows sample_ab sample_two 1 1 2 1))).
  - vm_compute. reflexivity.
  - vm_compute. tauto.
  - reflexivity.
  - vm_compute. tauto.
  - reflexivity.
Defined.

(** X3. When Stage 1 has as many pairs as requested (one or more), every
    "C (Peer)" row pairs two filings of the same year: the pairs of mixed
    years of Stage 2 come in only when Stage 1 falls short. *)
Theorem peer_rows_share_the_year_when_stage1_suffices
    (ab two : ManifestTable) (a_count b_count c_yoy_count c_peer_count : Z)
    (rows : list TaskRow) (r : TaskRow) :
  1 <= c_peer_count <=
    Z.of_nat (length (stage1_pairs (peer_candidates ab two c_yoy_count))) ->
  all_rows ab two a_count b_count c_yoy_count c_peer_count = Some rows ->
  In r rows ->
  Category r = "C (Peer)" ->
  str_prefix 4 (FilingDate_1 r) = str_prefix 4 (FilingDate_2 r).
Proof.
  unfold all_rows, peer_candidates. intros Hk H Hr Hcat.
  destruct (all_rows_with_In _ _ _ _ _ _ _ _ _ H Hr) as (a & b & _ & _ & Hcase).
  destruct Hcase as [[E _]|[[E _]|[[E _]|[_ Hp]]]];
    try (rewrite Hcat in E; discriminate).
  rewrite (paired_peers_stage1 _ _ _ Hk) in Hp.
  apply In_number_peers in Hp as (tid & r' & Hr' & ->).
  apply in_map_iff in Hr' as ([r1 r2] & <- & Hpair).
  apply In_firstn, stage1_pairs_same in Hpair as (_ & _ & _ & Hyear).
  exact Hyear.
Qed.

Lemma peer_rows_share_the_year_when_stage1_suffices_witness :
  str_prefix 4 (FilingDate_1 (make_row_pair "C_PEER_01" "C (Peer)"
                                (filing "Alpha" "ALFA" "Tech" "2024-01-15")
                                (filing "Beta" "BETA" "Tech" "2024-02-01"))) =
  str_prefix 4 (FilingDate_2 (make_row_pair "C_PEER_01" "C (Peer)"
                                (filing "Alpha" "ALFA" "Tech" "2024-01-15")
                                (filing "Beta" "BETA" "Tech" "2024-02-01"))).
Proof.
  apply (peer_rows_share_the_year_when_stage1_suffices sample_ab sample_two 1 1 2 1
           (default [] (all_rows sample_ab sample_two 1 1 2 1))).
  - vm_compute. split; discriminate.
  - vm_compute. reflexivity.
  - vm_compute. tauto.
  - reflexivity.
Defined.

(** ** Year-over-year pairing *)

Section YoYPairs.

Lemma StronglySorted_filter {A} (R : A -> A -> Prop) (p : A -> bool) (l : list A) :
  StronglySorted R l -> StronglySorted R (List.filter p l).
Proof.
  induction 1 as [|x l Hl IH Hx]; simpl; [constructor|].
  destruct (p x); [|exact IH]. constructor; [exact IH|].
  apply Forall_forall. intros y Hy. apply list_elem_of_In, filter_In in Hy as [Hy _].
  rewrite Forall_forall in Hx. apply Hx. now apply list_elem_of_In.
Qed.

(** The first row kept by a filter of a sorted table comes before every row
    the filter keeps. *)
Lemma filter_sorted_head {A} (le : A -> A -> bool) (p : A -> bool) (l : list A)
    (y : A) (t : list A) :
  (forall x, le x x = true) ->
  StronglySorted (fun a b => le a b = true) l ->
  List.filter p l = y :: t ->
  forall z, In z l -> p z = true -> le y z = true.
Proof.
  intros Hrefl S E z Hz Pz.
  apply (StronglySorted_filter _ p) in S. rewrite E in S.
  assert (Hin : In z (y :: t)) by (rewrite <- E; apply filter_In; auto).
  destruct Hin as [<-|Hin]; [apply Hrefl|].
  apply StronglySorted_inv in S as [_ S]. rewrite Forall_forall in S.
  apply S. now apply list_elem_of_In.
Qed.

Lemma date_desc_refl (a : FilingRecord) : String.leb (FilingDate a) (FilingDate a) = true.
Proof. destruct (String.leb_total (FilingDate a) (FilingDate a)); assumption. Qed.

(** The anchor is the last filing of the group, the partner the last filing
    of another year. *)
Lemma yoy_pair_latest (grp : list FilingRecord) (r1 r2 f : FilingRecord) :
  yoy_pair grp = Some (r1, r2) ->
  In f grp ->
  str_ge (FilingDate r1) (FilingDate f) = true /\
  (Year f <> Year r1 -> str_ge (FilingDate r2) (FilingDate f) = true).
Proof.
  unfold yoy_pair.
  destruct (length (unique String.eqb (map Year grp)) <? 2)%nat; [discriminate|].
  set (le := fun a b : FilingRecord => String.leb (FilingDate b) (FilingDate a)).
  destruct (sort_values le grp) as [|x t] eqn:Hs; [discriminate|].
  destruct (List.filter _ (x :: t)) as [|y t'] eqn:Hf; [discriminate|].
  intros [= <- <-] Hin. split.
  - apply (sort_values_head le date_desc_total date_desc_trans grp x t Hs f Hin).
  - intros Hyear.
    pose proof (sort_values_sorted le date_desc_total date_desc_trans grp) as S.
    rewrite Hs in S.
    apply (filter_sorted_head le _ (x :: t) y t' date_desc_refl S Hf).
    + rewrite <- Hs. now apply sort_values_In.
    + apply negb_true_iff, String.eqb_neq. exact Hyear.
Qed.

Lemma cmp3_refl (x : string * string * string) : cmp3 x x = Eq.
Proof.
  destruct x as [[a b] c]. unfold cmp3, cmp_then. now rewrite !string_compare_refl.
Qed.

Lemma unique_two {A} (eqb : A -> A -> bool) (l : list A) :
  (forall x y, eqb x y = true <-> x = y) ->
  (2 <= length (unique eqb l))%nat ->
  forall y, exists x, In x l /\ x <> y.
Proof.
  intros Heq Hlen y.
  assert (Hsub : forall x, In x (unique eqb l) -> In x l).
  { clear Hlen. induction l as [|a l IH]; simpl; [auto|].
    intros x [H|H]; [auto|]. apply filter_In in H as [H _]. auto. }
  destruct (unique eqb l) as [|a [|b u]] eqn:E; simpl in Hlen; try lia.
  assert (Hab : a <> b).
  { destruct l as [|a' l']; [discriminate|]. simpl in E. injection E as -> E.
    assert (Hb : In b (List.filter (fun y => negb (eqb y a)) (unique eqb l')))
      by (rewrite E; now left).
    apply filter_In in Hb as [_ Hb]. apply negb_true_iff in Hb.
    intros ->. assert (eqb b b = true) by now apply Heq. congruence. }
  destruct (eqb a y) eqn:Eay.
  - apply Heq in Eay. subst y. exists b. split; [apply Hsub; right; now left|auto].
  - exists a. split; [apply Hsub; now left|]. intros Hay. apply Heq in Hay. congruence.
Qed.

Lemma string_eqb_iff (x y : string) : String.eqb x y = true <-> x = y.
Proof. apply String.eqb_eq. Qed.

End YoYPairs.

(** X4. In a "C (YoY)" row, slot 1 holds the latest filing the TWO manifest
    has for the company, and slot 2 the latest one of another year. *)
Theorem yoy_rows_hold_the_latest_filings
    (ab two : ManifestTable) (a_count b_count c_yoy_count c_peer_count : Z)
    (rows : list TaskRow) (r : TaskRow) (f : FilingRecord) :
  all_rows ab two a_count b_count c_yoy_count c_peer_count = Some rows ->
  In r rows ->
  Category r = "C (YoY)" ->
  In f two ->
  yoy_key f = company_key r ->
  str_ge (FilingDate_1 r) (FilingDate f) = true /\
  (str_prefix 4 (FilingDate f) <> str_prefix 4 (FilingDate_1 r) ->
   str_ge (FilingDate_2 r) (FilingDate f) = true).
Proof.
  unfold all_rows. intros H Hr Hcat Hf Hkey.
  destruct (all_rows_with_In _ _ _ _ _ _ _ _ _ H Hr) as (a & b & _ & _ & Hcase).
  destruct Hcase as [[E _]|[[E _]|[[_ Hy]|[E _]]]];
    try (rewrite Hcat in E; discriminate).
  unfold pick_yoy in Hy.
  apply in_map_iff in Hy as ([i [[[s c] r1] r2]] & <- & Hy).
  apply In_enumerate1, In_slice_to in Hy. unfold yoy_candidates in Hy.
  apply sort_values_In in Hy.
  apply in_flat_map in Hy as ([[[c' t'] s'] grp] & Hg & Hy). simpl in Hy.
  destruct (yoy_pair grp) as [[x y]|] eqn:Hp; [|contradiction].
  destruct Hy as [[= _ _ <- <-]|[]].
  pose proof (yoy_pair_spec _ _ _ Hp) as (Hx & _).
  destruct (In_groupby _ _ _ _ _ _ Hg Hx) as [_ Kx]. apply cmp3_eq in Kx.
  assert (Hfg : In f grp).
  { rewrite (groupby_group _ _ _ _ _ Hg). apply filter_In. split; [exact Hf|].
    unfold company_key in Hkey. simpl in Hkey. unfold yoy_key in Kx.
    rewrite Hkey, Kx. unfold eq_of. now rewrite cmp3_refl. }
  apply (yoy_pair_latest _ _ _ _ Hp Hfg).
Qed.

Lemma yoy_rows_hold_the_latest_filings_witness :
  str_ge (FilingDate_1 sample_yoy_row) "2023-11-01" = true /\
  (str_prefix 4 "2023-11-01" <> str_prefix 4 (FilingDate_1 sample_yoy_row) ->
   str_ge (FilingDate_2 sample_yoy_row) "2023-11-01" = true).
Proof.
  apply (yoy_rows_hold_the_latest_filings sample_ab sample_two 1 1 2 1
           (default [] (all_rows sample_ab sample_two 1 1 2 1)) sample_yoy_row
           (filing "Gamma" "GAMA" "Tech" "2023-11-01")).
  - vm_compute. reflexivity.
  - vm_compute. tauto.
  - reflexivity.
  - vm_compute. tauto.
  - reflexivity.
Defined.

(** X5. A group of rows of the TWO manifest gives a YoY pair exactly when its
    filings fall in two distinct years or more: the second [continue] of the
    loop of [pick_yoy] is never taken. *)
Theorem yoy_pair_exists_iff_two_years (grp : list FilingRecord) :
  yoy_pair grp = None <-> (length (unique String.eqb (map Year grp)) < 2)%nat.
Proof.
  unfold yoy_pair.
  destruct (Nat.ltb_spec (length (unique String.eqb (map Year grp))) 2) as [H|H].
  - split; [intros _; exact H|reflexivity].
  - set (le := fun a b : FilingRecord => String.leb (FilingDate b) (FilingDate a)).
    split; [|lia]. intros E. exfalso.
    destruct (sort_values le grp) as [|r1 t] eqn:Hs.
    + apply (f_equal (@length _)) in Hs. rewrite length_sort_values in Hs.
      destruct grp; [simpl in H; lia|discriminate].
    + destruct (unique_two String.eqb (map Year grp) string_eqb_iff H (Year r1))
        as (yr & Hyr & Hne).
      apply in_map_iff in Hyr as (x & <- & Hx).
      apply (sort_values_In le) in Hx. rewrite Hs in Hx.
      assert (Hin : In x (List.filter (fun r => negb (String.eqb (Year r) (Year r1)))
                            (r1 :: t))).
      { apply filter_In. split; [exact Hx|]. now apply negb_true_iff, String.eqb_neq. }
      destruct (List.filter _ (r1 :: t)); [destruct Hin|discriminate].
Qed.

Section OneRowPerCompany.

Lemma NoDup_unique {A} (eqb : A -> A -> bool) (l : list A) :
  (forall x y, eqb x y = true <-> x = y) -> NoDup (unique eqb l).
Proof.
  intros Heq. induction l as [|x l IH]; simpl; [constructor|].
  constructor.
  - rewrite list_elem_of_In, filter_In. intros [_ H].
    apply negb_true_iff in H. assert (eqb x x = true) by now apply Heq. congruence.
  - clear -IH. induction IH as [|y l' Hy Hl IH']; simpl; [constructor|].
    destruct (negb _); [|exact IH']. constructor; [|exact IH'].
    rewrite list_elem_of_In, filter_In. rewrite list_elem_of_In in Hy. tauto.
Qed.

Lemma groupby_keys_NoDup {K A} (cmp : K -> K -> comparison) (key : A -> K) (l : list A) :
  (forall x y, eq_of cmp x y = true <-> x = y) ->
  NoDup (map fst (groupby cmp key l)).
Proof.
  intros Heq. unfold groupby. rewrite map_map. simpl. rewrite map_id.
  rewrite sort_values_Permutation. now apply NoDup_unique.
Qed.

Lemma cmp3_iff (x y : string * string * string) : eq_of cmp3 x y = true <-> x = y.
Proof.
  unfold eq_of. split.
  - destruct (cmp3 x y) eqn:E; try discriminate. intros _. now apply cmp3_eq.
  - intros ->. now rewrite cmp3_refl.
Qed.

(** One element at most per group, that carries the key of its group: the
    elements have distinct keys. *)
Lemma flat_map_keys_NoDup {K G C} (F : K * G -> list C) (ckey : C -> K)
    (groups : list (K * G)) :
  NoDup (map fst groups) ->
  (forall g, In g groups -> (length (F g) <= 1)%nat /\
                            forall c, In c (F g) -> ckey c = fst g) ->
  NoDup (map ckey (flat_map F groups)).
Proof.
  induction groups as [|g groups IH]; simpl; intros Hnd HF; [constructor|].
  apply NoDup_cons in Hnd as [Hg Hnd].
  rewrite map_app. apply NoDup_app.
  destruct (HF g (or_introl eq_refl)) as [Hlen Hkey].
  split; [|split].
  - destruct (F g) as [|c [|c' l]]; simpl in *; try lia; [constructor|].
    apply NoDup_singleton.
  - intros k Hk Hk'. apply list_elem_of_In in Hk, Hk'.
    apply in_map_iff in Hk as (c & <- & Hc).
    apply in_map_iff in Hk' as (c' & E & Hc').
    apply in_flat_map in Hc' as (g' & Hg' & Hc').
    destruct (HF g' (or_intror Hg')) as [_ Hkey'].
    apply Hg. apply list_elem_of_In, in_map_iff. exists g'. split; [|exact Hg'].
    rewrite <- (Hkey' c' Hc'), E. now apply Hkey.
  - apply IH; [exact Hnd|]. intros g' Hg'. apply HF. now right.
Qed.

Lemma NoDup_firstn {A} (n : nat) (l : list A) : NoDup l -> NoDup (firstn n l).
Proof.
  intros H. rewrite <- (firstn_skipn n l) in H. now apply NoDup_app in H as [H _].
Qed.

Lemma NoDup_slice_to {A} (k : Z) (l : list A) : NoDup l -> NoDup (slice_to k l).
Proof. unfold slice_to. destruct (k <? 0); apply NoDup_firstn. Qed.

Lemma map_snd_enumerate1 {A} (l : list A) : map snd (enumerate1 l) = l.
Proof.
  unfold enumerate1. generalize 1%nat.
  induction l as [|x l IH]; intros s; simpl; [reflexivity|]. now rewrite IH.
Qed.

End OneRowPerCompany.

(** X6. No company has two "C (YoY)" rows: the rows of [pick_yoy] have
    pairwise distinct (Company, Ticker, Sector). *)
Theorem yoy_rows_have_distinct_companies (two_df : ManifestTable) (k : Z) :
  NoDup (map company_key (pick_yoy two_df k)).
Proof.
  unfold pick_yoy. rewrite map_map.
  set (ckey := fun c : string * string * FilingRecord * FilingRecord =>
                 yoy_key (snd (fst c))).
  rewrite (map_ext _ (fun ix => ckey (snd ix)))
    by (intros [i [[[s c] r1] r2]]; reflexivity).
  rewrite <- (map_map snd ckey), map_snd_enumerate1.
  unfold slice_to.
  assert (Hnd : NoDup (map ckey (yoy_candidates two_df))).
  { unfold yoy_candidates. rewrite sort_values_Permutation.
    apply flat_map_keys_NoDup; [apply groupby_keys_NoDup, cmp3_iff|].
    intros [[[c t] s] grp] Hg. simpl.
    destruct (yoy_pair grp) as [[r1 r2]|] eqn:Hp; simpl; [|split; [lia|tauto]].
    split; [lia|]. intros c' [<-|[]]. unfold ckey. simpl.
    apply yoy_pair_spec in Hp as (H1 & _).
    destruct (In_groupby _ _ _ _ _ _ Hg H1) as [_ K]. now apply cmp3_eq in K. }
  destruct (k <? 0); rewrite <- firstn_map; now apply NoDup_firstn.
Qed.

(** ** Categories A and B *)

Section SingleRows.

Lemma skipn_nth_error {A} (l : list A) (n : nat) :
  (n < length l)%nat ->
  exists x, nth_error l n = Some x /\ skipn n l = x :: skipn (S n) l.
Proof.
  revert n. induction l as [|a l IH]; intros [|n] H; simpl in *; try lia.
  - eauto.
  - apply IH. lia.
Qed.

(** A comprehension over [range(m)] that reads [df.iloc[s + i]] in bounds
    makes the rows of the [m] rows of [df] that follow the first [s]. *)
Lemma comprehension_rows (df : ManifestTable) (prefix cat : string) (s m : nat) :
  (s + m <= length df)%nat ->
  mapM (fun i => make_row_single (prefix +:+ fmt02 (Z.to_nat i + 1)) cat
                   <$> iloc df (Z.of_nat s + i))
       (range (Z.of_nat m))
  = Some (single_rows prefix cat (firstn m (skipn s df))).
Proof.
  intros Hb. unfold range, single_rows, enumerate1. rewrite Nat2Z.id.
  assert (Hlen : length (firstn m (skipn s df)) = m)
    by (rewrite length_firstn, length_skipn; lia).
  rewrite Hlen. clear Hlen.
  assert (G : forall m j, (s + j + m <= length df)%nat ->
    mapM (fun i => make_row_single (prefix +:+ fmt02 (Z.to_nat i + 1)) cat
                     <$> iloc df (Z.of_nat s + i))
         (map Z.of_nat (seq j m))
    = Some (map (fun jf : nat * FilingRecord =>
                   make_row_single (prefix +:+ fmt02 (fst jf)) cat (snd jf))
                (combine (seq (j + 1) m) (firstn m (skipn (s + j) df))))).
  { clear m Hb. induction m as [|m IH]; intros j Hj; [reflexivity|].
    destruct (skipn_nth_error df (s + j)) as (x & Hx & Hs); [lia|].
    simpl seq. simpl map at 1.
    change (mapM ?f (?a :: ?l)) with (y ← f a; k ← mapM f l; mret (y :: k)).
    assert (Hi : iloc df (Z.of_nat s + Z.of_nat j) = Some x).
    { unfold iloc. destruct (Z.leb_spec 0 (Z.of_nat s + Z.of_nat j)); [|lia].
      now replace (Z.to_nat (Z.of_nat s + Z.of_nat j)) with (s + j)%nat by lia. }
    cbv beta. rewrite Hi. simpl. rewrite (IH (S j)) by lia. simpl.
    rewrite Hs. simpl. rewrite Nat2Z.id.
    replace (s + S j)%nat with (S (s + j)) by lia.
    replace (S j + 1)%nat with (S (j + 1)) by lia. reflexivity. }
  specialize (G m 0%nat). rewrite Nat.add_0_r in G. apply G. lia.
Qed.

Lemma firstn_min_length {A} (l : list A) (k : Z) :
  0 <= k ->
  firstn (Z.to_nat (Z.min k (Z.of_nat (length l)))) l = firstn (Z.to_nat k) l.
Proof.
  intros Hk. destruct (Z.le_gt_cases k (Z.of_nat (length l))).
  - now rewrite Z.min_l.
  - rewrite Z.min_r by lia. rewrite Nat2Z.id, !firstn_all2; auto; lia.
Qed.

Lemma a_rows_prefix (df : ManifestTable) (a_count : Z) :
  0 <= a_count ->
  a_rows df a_count = Some (single_rows "A_" "A" (firstn (Z.to_nat a_count) df)).
Proof.
  intros Ha. unfold a_rows.
  pose proof (comprehension_rows df "A_" "A" 0
                (Z.to_nat (Z.min a_count (Z.of_nat (length df))))) as H.
  rewrite Z2Nat.id in H by lia. change (skipn 0 df) with df in H.
  rewrite firstn_min_length in H by lia.
  rewrite <- H by lia. apply mapM_ext. intros i. reflexivity.
Qed.

Lemma b_rows_next (df : ManifestTable) (a_count b_count : Z) :
  0 <= a_count -> 0 <= b_count ->
  b_rows df a_count b_count =
  Some (single_rows "B_" "B" (firstn (Z.to_nat b_count) (skipn (Z.to_nat a_count) df))).
Proof.
  intros Ha Hb. unfold b_rows. cbv zeta.
  set (n := Z.of_nat (length df)). set (s := Z.min a_count n).
  set (m := Z.max 0 (Z.min (s + b_count) n - s)).
  pose proof (comprehension_rows df "B_" "B" (Z.to_nat s) (Z.to_nat m)) as H.
  rewrite !Z2Nat.id in H by lia.
  rewrite H by lia. f_equal. f_equal.
  destruct (Z.le_gt_cases a_count n).
  - replace s with a_count by lia.
    replace m with (Z.min b_count (Z.of_nat (length (skipn (Z.to_nat a_count) df))))
      by (rewrite length_skipn; lia).
    now apply firstn_min_length.
  - replace s with n by lia. unfold n. rewrite Nat2Z.id.
    rewrite !skipn_all2 by lia. now rewrite !firstn_nil.
Qed.

Lemma iloc_is_Some_iff {A} (l : list A) (i : Z) :
  is_Some (iloc l i) <-> - Z.of_nat (length l) <= i < Z.of_nat (length l).
Proof.
  unfold iloc. destruct (Z.leb_spec 0 i).
  - rewrite <- not_eq_None_Some, nth_error_None. lia.
  - destruct (Z.leb_spec (- Z.of_nat (length l)) i).
    + rewrite <- not_eq_None_Some, nth_error_None. lia.
    + split; [intros [x Hx]; discriminate|lia].
Qed.

End SingleRows.

Section SortedManifest.

Lemma ordering_by {A B} (cmp : B -> B -> comparison) (f : A -> B) :
  Ordering cmp -> Ordering (fun a b => cmp (f a) (f b)).
Proof.
  intros O. split; intros.
  - apply (ord_refl _ O).
  - apply (ord_antisym _ O).
  - eapply (ord_lt_trans _ O); eauto.
  - now apply (ord_eq_l _ O).
Qed.

Lemma ordering_flip {A} (cmp : A -> A -> comparison) :
  Ordering cmp -> Ordering (fun a b => cmp b a).
Proof.
  intros O. split; intros.
  - apply (ord_refl _ O).
  - apply (ord_antisym _ O).
  - eapply (ord_lt_trans _ O); eauto.
  - rewrite (ord_antisym _ O z x), (ord_antisym _ O z y). f_equal.
    symmetry. now apply (ord_eq_l _ O).
Qed.

Lemma ordering_then {A} (c1 c2 : A -> A -> comparison) :
  Ordering c1 -> Ordering c2 -> Ordering (fun a b => cmp_then (c1 a b) (c2 a b)).
Proof.
  intros O1 O2. split.
  - intros x. now rewrite (ord_refl _ O1), (ord_refl _ O2).
  - intros x y. rewrite (ord_antisym _ O1 x y), (ord_antisym _ O2 x y).
    destruct (c1 y x), (c2 y x); reflexivity.
  - intros x y z. unfold cmp_then.
    destruct (c1 x y) eqn:Exy; try discriminate.
    + rewrite (ord_eq_l _ O1 _ _ z Exy). destruct (c1 y z) eqn:Eyz; try discriminate.
      * apply (ord_lt_trans _ O2).
      * reflexivity.
    + intros _. destruct (c1 y z) eqn:Eyz; try discriminate.
      * assert (Ezy : c1 z y = Eq) by (rewrite (ord_antisym _ O1), Eyz; reflexivity).
        intros _. rewrite (ord_antisym _ O1 x z), (ord_eq_l _ O1 _ _ x Ezy).
        now rewrite (ord_antisym _ O1 y x), Exy.
      * intros _. now rewrite (ord_lt_trans _ O1 _ _ _ Exy Eyz).
  - intros x y z. unfold cmp_then. destruct (c1 x y) eqn:Exy; try discriminate.
    intros E2. now rewrite (ord_eq_l _ O1 _ _ z Exy), (ord_eq_l _ O2 _ _ z E2).
Qed.

Lemma ab_order_ordering : Ordering ab_order.
Proof.
  unfold ab_order.
  apply (ordering_then (fun a b => String.compare (Sector a) (Sector b))
           (fun a b => cmp_then (String.compare (Company a) (Company b))
                                (String.compare (FilingDate b) (FilingDate a)))).
  - apply (ordering_by String.compare Sector), string_ordering.
  - apply (ordering_then (fun a b => String.compare (Company a) (Company b))
             (fun a b => String.compare (FilingDate b) (FilingDate a))).
    + apply (ordering_by String.compare Company), string_ordering.
    + apply (ordering_flip (fun a b => String.compare (FilingDate a) (FilingDate b))).
      apply (ordering_by String.compare FilingDate), string_ordering.
Qed.

Lemma le_of_total {A} (cmp : A -> A -> comparison) (O : Ordering cmp) (x y : A) :
  le_of cmp x y = true \/ le_of cmp y x = true.
Proof.
  unfold le_of. rewrite (ord_antisym _ O y x). destruct (cmp x y); auto.
Qed.

Lemma ab_order_before (a b : FilingRecord) :
  le_of ab_order a b = true -> ab_before a b.
Proof.
  unfold le_of, ab_order, ab_before, cmp_then, str_ge, String.leb.
  destruct (String.compare (Sector a) (Sector b)) eqn:Es; try discriminate; [|now left].
  apply String.compare_eq_iff in Es. right. split; [exact Es|].
  destruct (String.compare (Company a) (Company b)) eqn:Ec; try discriminate; [|now left].
  apply String.compare_eq_iff in Ec. right. split; [exact Ec|].
  destruct (String.compare (FilingDate b) (FilingDate a)); auto.
Qed.

(** The sorted manifest has the rows of the manifest, in the order of the
    sort keys. *)
Lemma sort_ab_sorted (ab : ManifestTable) :
  Permutation (sort_ab ab) ab /\ StronglySorted ab_before (sort_ab ab).
Proof.
  split; [apply sort_values_Permutation|].
  pose proof (sort_values_sorted (le_of ab_order)
                (le_of_total ab_order ab_order_ordering)
                (le_of_trans ab_order ab_order_ordering) ab) as S.
  fold (sort_ab ab) in S. induction S as [|x l S IH F]; constructor; [exact IH|].
  eapply List.Forall_impl; [|exact F]. intros y. apply ab_order_before.
Qed.

Lemma sort_ab_nil (ab : ManifestTable) : sort_ab ab = [] <-> ab = [].
Proof.
  pose proof (length_sort_values (le_of ab_order) ab) as Hn. fold (sort_ab ab) in Hn.
  split; intros E.
  - rewrite E in Hn. destruct ab; [reflexivity|discriminate].
  - subst ab. reflexivity.
Qed.

End SortedManifest.

(** X7. With an AB manifest that has a row and counts that are not negative,
    the A rows are the first [a_count] rows of the AB manifest sorted by
    sector, company and filing date (latest first), the B rows the [b_count]
    rows that follow, numbered from 1 in this order; they come first in the
    table, before the YoY rows and the Peer rows. *)
Theorem a_and_b_rows_are_consecutive_rows_of_the_sorted_manifest
    (ab two : ManifestTable) (a_count b_count c_yoy_count c_peer_count : Z) :
  ab <> [] -> 0 <= a_count -> 0 <= b_count ->
  exists (sorted : ManifestTable) (peers : list TaskRow),
    Permutation sorted ab /\
    StronglySorted ab_before sorted /\
    pick_peers sorted c_peer_count
      (unique (eq_of cmp2) (used_of (pick_yoy two c_yoy_count))) = Some peers /\
    all_rows ab two a_count b_count c_yoy_count c_peer_count =
    Some (single_rows "A_" "A" (firstn (Z.to_nat a_count) sorted)
          ++ single_rows "B_" "B"
               (firstn (Z.to_nat b_count) (skipn (Z.to_nat a_count) sorted))
          ++ pick_yoy two c_yoy_count
          ++ peers).
Proof.
  intros Hab Ha Hb.
  assert (Hs : sort_ab ab <> []) by (intros E; apply (proj1 (sort_ab_nil ab)) in E; contradiction).
  exists (sort_ab ab), (paired_peers (sort_ab ab) c_peer_count
                          (unique (eq_of cmp2) (used_of (pick_yoy two c_yoy_count)))).
  destruct (sort_ab_sorted ab) as [Hperm Hsorted].
  split; [exact Hperm|]. split; [exact Hsorted|].
  split; [now apply pick_peers_of_rows|].
  unfold all_rows, all_rows_with.
  rewrite a_rows_prefix by exact Ha. simpl.
  rewrite b_rows_next by assumption. simpl.
  now rewrite (pick_peers_of_rows _ _ _ Hs).
Qed.

Lemma a_and_b_rows_are_consecutive_rows_of_the_sorted_manifest_witness :
  exists (sorted : ManifestTable) (peers : list TaskRow),
    Permutation sorted sample_ab /\
    StronglySorted ab_before sorted /\
    pick_peers sorted 0 (unique (eq_of cmp2) (used_of (pick_yoy sample_two 0)))
      = Some peers /\
    all_rows sample_ab sample_two 1 1 0 0 =
    Some (single_rows "A_" "A" (firstn (Z.to_nat 1) sorted)
          ++ single_rows "B_" "B" (firstn (Z.to_nat 1) (skipn (Z.to_nat 1) sorted))
          ++ pick_yoy sample_two 0
          ++ peers).
Proof.
  apply (a_and_b_rows_are_consecutive_rows_of_the_sorted_manifest
           sample_ab sample_two 1 1 0 0); [discriminate|lia..].
Defined.

(** X8. The assembly raises in two cases and in no other. The AB manifest has
    no row: [pick_peers] raises [KeyError]. Or [a_count] is below minus the
    number of rows of the AB manifest and a B row is requested: [iloc] reads
    before the start of the table and raises [IndexError]. *)
Theorem assemble_raises_iff_b_rows_start_before_the_table
    (ab two : ManifestTable) (a_count b_count c_yoy_count c_peer_count : Z) :
  all_rows ab two a_count b_count c_yoy_count c_peer_count = None <->
  ab = [] \/ (a_count < - Z.of_nat (length ab) /\ 0 < b_count).
Proof.
  unfold all_rows, all_rows_with.
  assert (Hn : length (sort_ab ab) = length ab) by apply length_sort_values.
  assert (Ha : is_Some (a_rows (sort_ab ab) a_count)).
  { unfold a_rows. apply mapM_is_Some_2, Forall_forall. intros i Hi.
    apply list_elem_of_In, In_range in Hi. unfold compose.
    destruct (proj2 (iloc_is_Some_iff (sort_ab ab) i)) as [f ->]; [lia|]. simpl. eauto. }
  destruct Ha as [a ->]. simpl.
  set (n := Z.of_nat (length (sort_ab ab))) in *.
  assert (Hb : is_Some (b_rows (sort_ab ab) a_count b_count) <->
               ~ (a_count < - n /\ 0 < b_count)).
  { unfold b_rows. cbv zeta. fold n. rewrite mapM_is_Some, Forall_forall. split.
    - intros H [H1 H2]. specialize (H 0).
      assert (Hin : In 0 (range (Z.max 0 (Z.min (Z.min a_count n + b_count) n
                                           - Z.min a_count n)))).
      { unfold range. apply in_map_iff. exists 0%nat. split; [reflexivity|].
        apply in_seq. lia. }
      apply list_elem_of_In, H in Hin. unfold compose in Hin.
      destruct (iloc (sort_ab ab) (Z.min a_count n + 0)) as [f|] eqn:E;
        [|destruct Hin; discriminate].
      assert (S : is_Some (iloc (sort_ab ab) (Z.min a_count n + 0))) by eauto.
      apply iloc_is_Some_iff in S. fold n in S. lia.
    - intros H i Hi. apply list_elem_of_In, In_range in Hi. unfold compose.
      destruct (proj2 (iloc_is_Some_iff (sort_ab ab) (Z.min a_count n + i)))
        as [f ->]; [fold n; lia|]. simpl. eauto. }
  unfold n in Hb. rewrite Hn in Hb.
  destruct (b_rows (sort_ab ab) a_count b_count) as [b|]; simpl.
  - destruct (decide (ab = [])) as [Hab|Hab].
    + split; [now left|]. intros _.
      apply (proj2 (sort_ab_nil ab)) in Hab. now rewrite Hab.
    + assert (Hs : sort_ab ab <> []) by (intros E; apply (proj1 (sort_ab_nil ab)) in E; contradiction).
      rewrite (pick_peers_of_rows _ _ _ Hs). simpl.
      split; [discriminate|]. intros [H|H]; [contradiction|].
      exfalso. apply (proj1 Hb); eauto.
  - split; [|reflexivity]. intros _. right.
    destruct (Z.lt_ge_cases a_count (- Z.of_nat (length ab))) as [H1|H1];
      destruct (Z.lt_ge_cases 0 b_count) as [H2|H2]; auto;
      exfalso; assert (S : is_Some (@None (list TaskRow))) by (apply Hb; lia);
      destruct S; discriminate.
Qed.

(** ** Cleaning of cells *)

Section Cleaning.

Lemma filter_firstn_filter {A} (p : A -> bool) (n : nat) (l : list A) :
  List.filter p (firstn n (List.filter p l)) = firstn n (List.filter p l).
Proof.
  revert n. induction l as [|x l IH]; intros n; simpl.
  - now rewrite firstn_nil.
  - destruct (p x) eqn:E; [|apply IH].
    destruct n as [|n]; simpl; [reflexivity|]. now rewrite E, IH.
Qed.

Lemma lstrip_lstrip (s : string) : lstrip (lstrip s) = lstrip s.
Proof.
  induction s as [|c s IH]; [reflexivity|].
  change (lstrip (String c s)) with (if is_space c then lstrip s else String c s).
  destruct (is_space c) eqn:E; [exact IH|].
  change (lstrip (String c s)) with (if is_space c then lstrip s else String c s).
  now rewrite E.
Qed.

(** [lstrip] drops a prefix. *)
Lemma lstrip_suffix (s : string) : exists sp, chars s = sp ++ chars (lstrip s).
Proof.
  induction s as [|c s [sp IH]]; [now exists []|].
  change (lstrip (String c s)) with (if is_space c then lstrip s else String c s).
  destruct (is_space c).
  - exists (c :: sp). change (chars (String c s)) with (c :: chars s). now rewrite IH.
  - now exists [].
Qed.

Lemma lstrip_fixed_head (c : ascii) (s : string) :
  lstrip (String c s) = String c s -> is_space c = false.
Proof.
  change (lstrip (String c s)) with (if is_space c then lstrip s else String c s).
  destruct (is_space c); [|reflexivity]. intros E. exfalso.
  destruct (lstrip_suffix s) as [sp Hsp].
  apply (f_equal (@length _)) in Hsp. rewrite length_app, E in Hsp.
  change (chars (String c s)) with (c :: chars s) in Hsp. simpl in Hsp. lia.
Qed.

Lemma str_rev_involutive (s : string) : str_rev (str_rev s) = s.
Proof.
  apply chars_inj. rewrite !chars_str_rev. apply rev_involutive.
Qed.

(** Stripping the end of a string that has no blank at its start leaves none
    at its start. *)
Lemma lstrip_rstrip (t : string) :
  lstrip t = t -> lstrip (str_rev (lstrip (str_rev t))) = str_rev (lstrip (str_rev t)).
Proof.
  intros Ht. set (q := str_rev (lstrip (str_rev t))).
  destruct (lstrip_suffix (str_rev t)) as [sp Hsp].
  assert (Hq : chars t = chars q ++ rev sp).
  { unfold q. rewrite chars_str_rev, <- rev_app_distr, <- Hsp, chars_str_rev.
    now rewrite rev_involutive. }
  destruct q as [|c q']; [reflexivity|].
  destruct t as [|c' t']; [discriminate|].
  change (chars (String c' t')) with (c' :: chars t') in Hq.
  change (chars (String c q')) with (c :: chars q') in Hq.
  injection Hq as -> _. apply lstrip_fixed_head in Ht.
  change (lstrip (String c q')) with (if is_space c then lstrip q' else String c q').
  now rewrite Ht.
Qed.

(** [strip] is idempotent. *)
Lemma strip_strip (s : string) : strip (strip s) = strip s.
Proof.
  unfold strip at 1.
  assert (H1 : lstrip (strip s) = strip s)
    by (unfold strip; apply lstrip_rstrip, lstrip_lstrip).
  rewrite H1. unfold strip. now rewrite str_rev_involutive, lstrip_lstrip.
Qed.

End Cleaning.

(** X9. Sanitizing is idempotent: a sanitized field has nothing left to
    remove. *)
Theorem sanitize_is_idempotent (value : option Cell) :
  _sanitize (Some (Str (_sanitize value))) = _sanitize value.
Proof.
  assert (H : forall s, _sanitize (Some (Str (_sanitize (Some (Str s)))))
                        = _sanitize (Some (Str s))).
  { intros s. rewrite (sanitize_text (_sanitize (Some (Str s)))), sanitize_text.
    apply chars_inj.
    rewrite !chars_str_prefix, !chars_remove_chars, chars_str_prefix, chars_remove_chars.
    rewrite filter_firstn_filter, firstn_firstn. f_equal. }
  destruct value as [[|s|s]|]; try apply H; vm_compute; reflexivity.
Qed.

(** X10. The URL of a cell is the empty string for a missing cell, a blank
    one and one that reads [nan] in any case; cleaning it again changes
    nothing, and a URL that is kept has no blank at either end. *)
Theorem clean_url_is_idempotent (value : option Cell) :
  _clean_url (Some (Str (_clean_url value))) = _clean_url value /\
  strip (_clean_url value) = _clean_url value /\
  lower (_clean_url value) <> "nan".
Proof.
  assert (Hempty : _clean_url (Some (Str "")) = "" /\ strip "" = "" /\ lower "" <> "nan").
  { split; [vm_compute; reflexivity|]. split; [vm_compute; reflexivity|].
    vm_compute. discriminate. }
  destruct value as [[|s|s]|]; try exact Hempty;
    try change (_clean_url (Some (Falsy s))) with (_clean_url (Some (Str s)));
  unfold _clean_url;
  (destruct (String.eqb (strip s) "" || String.eqb (lower (strip s)) "nan") eqn:E;
   [exact Hempty|]);
  (rewrite !strip_strip, E; split; [reflexivity|]; split; [reflexivity|]);
  apply orb_false_iff in E as [_ E]; now apply String.eqb_neq.
Qed.

(** ** The PDF Finalizer: what a download leaves behind *)

Section Downloads.

Lemma download_once_frame (env : Env) (url path : string) (s : State) :
  let r := _download_html_once env url path s in
  df_rows (snd r) = df_rows s /\ outdir (snd r) = outdir s /\
  failed_rows (snd r) = failed_rows s /\ renders (snd r) = renders s /\
  (fst r = Returned false -> html_cache (snd r) = html_cache s) /\
  (fst r = Returned true -> exists text,
     server env (gets s) = Page text /\
     contains (lower BLOCK_SNIPPET) (lower text) = false /\
     html_cache (snd r) = <[path := text]> (html_cache s)).
Proof.
  unfold _download_html_once, bind, http_get, modify, ret. cbn [fst snd].
  destruct (server env (gets s)) as [|text]; cbn [fst snd].
  - split_and!; auto; discriminate.
  - destruct (contains _ _) eqn:E; cbn [fst snd]; split_and!; auto; try discriminate.
    intros _. exists text. auto.
Qed.

Lemma retry_loop_frame (env : Env) (url path : string) (sleep_min sleep_max : Q)
    (attempts : list nat) (s : State) :
  let r := retry_loop env url path sleep_min sleep_max attempts s in
  df_rows (snd r) = df_rows s /\ outdir (snd r) = outdir s /\
  failed_rows (snd r) = failed_rows s /\ renders (snd r) = renders s /\
  (gets s <= gets (snd r) <= gets s + length attempts)%nat /\
  (fst r = Returned false -> html_cache (snd r) = html_cache s) /\
  (fst r = Returned true -> exists text,
     (1 <= gets (snd r))%nat /\
     server env (gets (snd r) - 1) = Page text /\
     contains (lower BLOCK_SNIPPET) (lower text) = false /\
     html_cache (snd r) = <[path := text]> (html_cache s)).
Proof.
  revert s. induction attempts as [|attempt rest IH]; intros s; cbv zeta.
  - simpl. split_and!; auto; try lia; discriminate.
  - simpl retry_loop. unfold bind.
    pose proof (download_once_frame env url path s) as (Hdf & Ho & Hf & Hr & Hc0 & Hc1).
    pose proof (download_once_spec env url path s) as (Hok & Hg & _).
    destruct (_download_html_once env url path s) as [o s1].
    cbn [fst snd] in Hdf, Ho, Hf, Hr, Hc0, Hc1, Hg, Hok. subst o.
    destruct (fetch_ok (server env (gets s))).
    + unfold ret. cbn [fst snd length]. destruct (Hc1 eq_refl) as (text & Hs & Hb & Hc).
      split_and!; auto; try lia; try discriminate.
      intros _. exists text. rewrite Hg.
      replace (S (gets s) - 1)%nat with (gets s) by lia.
      split_and!; auto; lia.
    + unfold random, sleep. cbv beta iota.
      destruct (Qle_bool 0 _).
      * unfold modify. cbv beta iota. cbn [fst snd length].
        match goal with |- context [retry_loop _ _ _ _ _ rest ?x] => set (s2 := x) end.
        destruct (IH s2) as (Hdf2 & Ho2 & Hf2 & Hr2 & Hg2 & Hc02 & Hc12).
        subst s2.
        cbn [df_rows outdir failed_rows renders gets html_cache record next_draw] in *.
        rewrite Hdf2, Ho2, Hf2, Hr2, Hdf, Ho, Hf, Hr, <- (Hc0 eq_refl).
        split_and!; auto; try lia.
      * unfold raise. cbn. split_and!; auto; try lia; discriminate.
Qed.

(** With [0 <= sleep_min <= sleep_max] the sleep that follows a download is
    not negative. *)
Lemma base_sleep_nonneg (env : Env) (sleep_min sleep_max : Q) (draw : nat) :
  (0 <= sleep_min)%Q -> (sleep_min <= sleep_max)%Q ->
  Qle_bool 0 (base_sleep env sleep_min sleep_max draw) = true.
Proof.
  intros H0 H. apply Qle_bool_iff.
  destruct (base_sleep_range env sleep_min sleep_max draw H) as [Hb _].
  generalize dependent (base_sleep env sleep_min sleep_max draw). intros. nra.
Qed.

End Downloads.


(** ** The PDF Finalizer: the outcome of a slot *)

Section SlotOutcome.

Lemma process_doc_cases (env : Env) (args : Args) (sleep_min sleep_max : Q)
    (max_fetch_retries : Z) (j : nat) (row : Row) (d : nat) (s : State) :
  let r := process_doc env args sleep_min sleep_max max_fetch_retries j row d s in
  let s' := snd r in
  let url := _clean_url (row !! col "OpenAsHTMLURL" d) in
  let filename := _determine_filename row d in
  (exists e, fst r = Raised e /\ skipped args row d = false /\
             may_raise env sleep_min sleep_max row d) \/
  (fst r = Returned tt /\
   ((skipped args row d = true /\ s' = with_unit_of_work (j, d) s) \/
    (skipped args row d = false /\
     (gets s <= gets s' <= gets s + Z.to_nat (max_fetch_retries + 1))%nat /\
     ((exists reason, failure_reason reason /\
         failed_rows s' = failed_rows s ++ [(row !! "TaskID", url, reason)] /\
         df_rows s' = df_rows s /\ outdir s' = outdir s) \/
      (exists bytes text,
         html_cache s' !! html_name row d = Some text /\ 1024 <= utf8_size text /\
         chromium env (renders s) = Some bytes /\
         failed_rows s' = failed_rows s /\
         outdir s' = <[filename := bytes]> (outdir s) /\
         df_rows s' = alter <[col "PDF_checksum" d := Str (sha256_hex env bytes)]> j
                        (alter <[col "PDF_filename" d := Str filename]> j (df_rows s))))))).
Proof.
  intros r s' url filename. subst s'.
  assert (Hr : r = process_doc env args sleep_min sleep_max max_fetch_retries j row d s)
    by reflexivity.
  clearbody r. unfold skipped, may_raise. fold url. fold filename.
  unfold process_doc in Hr. fold url in Hr. fold filename in Hr.
  change (html_name row d) with (replace ".pdf" ".html" filename).
  set (html_path := replace ".pdf" ".html" filename) in *.
  set (fn := col "PDF_filename" d) in *. set (ck := col "PDF_checksum" d) in *.
  unfold bind at 1, modify at 1 in Hr. cbv beta iota in Hr.
  set (s0 := with_unit_of_work (j, d) s) in Hr.
  destruct (String.eqb url "") eqn:Eurl;
    [right; subst r; split; [reflexivity|left; split; reflexivity]|].
  destruct (only_missing args && _) eqn:Eom;
    [right; subst r; split; [reflexivity|left; split; reflexivity]|].
  cbn [orb].
  lazymatch type of Hr with
  | _ = bind _ (fun cached => if _ then _ else ?R) _ => set (render := R) in Hr
  end.
  assert (Hrender : forall s1, let r1 := render s1 in
            (exists e, fst r1 = Raised e /\
                       (stat_fails env filename = true \/ rejects_text env fn = true \/
                        rejects_text env ck = true)) \/
            (fst r1 = Returned tt /\ gets (snd r1) = gets s1 /\
             ((exists reason, failure_reason reason /\
                 failed_rows (snd r1)
                   = failed_rows s1 ++ [(row !! "TaskID", url, reason)] /\
                 df_rows (snd r1) = df_rows s1 /\ outdir (snd r1) = outdir s1) \/
              (exists bytes text,
                 html_cache (snd r1) !! html_path = Some text /\ 1024 <= utf8_size text /\
                 chromium env (renders s1) = Some bytes /\
                 failed_rows (snd r1) = failed_rows s1 /\
                 outdir (snd r1) = <[filename := bytes]> (outdir s1) /\
                 df_rows (snd r1)
                   = alter <[ck := Str (sha256_hex env bytes)]> j
                       (alter <[fn := Str filename]> j (df_rows s1)))))).
  { intros s1. subst render.
    unfold log_failure, set_cell, _checksum, path_exists, _render_local_html, bind, read,
      raise, modify, ret.
    cbv beta iota zeta.
    destruct (html_cache s1 !! html_path) as [text|] eqn:Ec.
    2: { change (0 <? 1024) with true. cbv iota. cbn [fst snd gets with_failed_rows].
         right. split; [reflexivity|]. split; [reflexivity|]. left.
         eexists. split; [|split_and!; reflexivity].
         right. right. exists (Z.to_nat 0). split; [simpl; lia|reflexivity]. }
    destruct (utf8_size text <? 1024) eqn:Esz.
    - cbn [fst snd gets with_failed_rows]. right. split; [reflexivity|].
      split; [reflexivity|]. left.
      eexists. split; [|split_and!; reflexivity].
      right. right. exists (Z.to_nat (utf8_size text)).
      split; [apply Z.ltb_lt in Esz; lia|reflexivity].
    - apply Z.ltb_ge in Esz.
      destruct (chromium env (renders s1)) as [bytes|] eqn:Echr.
      + destruct (stat_fails env filename) eqn:Estat;
          [left; eexists; split; [reflexivity|now left]|].
        cbn [outdir with_outdir next_render record]. rewrite lookup_insert_eq.
        rewrite bool_decide_true by eauto.
        destruct (rejects_text env fn) eqn:Efn;
          [left; eexists; split; [reflexivity|right; now left]|].
        cbn [outdir with_df with_outdir next_render record]. rewrite lookup_insert_eq.
        destruct (rejects_text env ck) eqn:Eck;
          [left; eexists; split; [reflexivity|right; now right]|].
        cbn. right. split; [reflexivity|]. split; [reflexivity|].
        right. exists bytes, text. split_and!; auto.
      + cbn. right. split; [reflexivity|]. split; [reflexivity|]. left.
        eexists. split; [|split_and!; reflexivity]. right. now left. }
  unfold bind at 1, path_exists at 1 in Hr.
  destruct (stat_fails env html_path) eqn:Estat.
  { left. subst r. eexists. split; [reflexivity|]. split; [reflexivity|]. now left. }
  unfold read at 1 in Hr. cbv beta iota in Hr.
  assert (Hlift : forall s1 : State,
            (gets s <= gets s1 <= gets s + Z.to_nat (max_fetch_retries + 1))%nat ->
            renders s1 = renders s -> failed_rows s1 = failed_rows s ->
            df_rows s1 = df_rows s -> outdir s1 = outdir s ->
            r = render s1 ->
            (exists e, fst r = Raised e /\ false = false /\
               (false = true \/ stat_fails env filename = true \/
                rejects_text env fn = true \/ rejects_text env ck = true \/
                ~ ((0 <= sleep_min)%Q /\ (sleep_min <= sleep_max)%Q))) \/
            (fst r = Returned tt /\
             ((false = true /\ snd r = with_unit_of_work (j, d) s) \/
              (false = false /\
               (gets s <= gets (snd r) <= gets s + Z.to_nat (max_fetch_retries + 1))%nat /\
               ((exists reason, failure_reason reason /\
                   failed_rows (snd r) = failed_rows s ++ [(row !! "TaskID", url, reason)] /\
                   df_rows (snd r) = df_rows s /\ outdir (snd r) = outdir s) \/
                (exists bytes text,
                   html_cache (snd r) !! html_path = Some text /\ 1024 <= utf8_size text /\
                   chromium env (renders s) = Some bytes /\
                   failed_rows (snd r) = failed_rows s /\
                   outdir (snd r) = <[filename := bytes]> (outdir s) /\
                   df_rows (snd r)
                     = alter <[ck := Str (sha256_hex env bytes)]> j
                         (alter <[fn := Str filename]> j (df_rows s)))))))).
  { intros s1 Hg Hrn Hf Hdf Ho ->.
    destruct (Hrender s1) as [(e & He & Hcause)|(Hret & Hg1 & Hcases)].
    - left. exists e. split; [exact He|]. split; [reflexivity|]. tauto.
    - right. split; [exact Hret|]. right. split; [reflexivity|].
      rewrite Hg1. split; [exact Hg|].
      rewrite Hrn, Hf, Hdf, Ho in Hcases. exact Hcases. }
  destruct (negb _ || overwrite args) eqn:Eneed;
    [|apply (Hlift s0); auto; simpl; lia].
  unfold bind at 1 in Hr.
  destruct (retry_loop_frame env url html_path sleep_min sleep_max
              (seq 1 (Z.to_nat (max_fetch_retries + 2 - 1))) s0)
    as (Hdf & Ho & Hf & Hrn & Hg & _ & _).
  pose proof (retry_loop_spec env url html_path sleep_min sleep_max
                (Z.to_nat (max_fetch_retries + 2 - 1)) 1 s0) as Hspec.
  fold (_download_html_with_retries env url html_path sleep_min sleep_max max_fetch_retries s0)
    in Hdf, Ho, Hf, Hrn, Hg, Hspec.
  rewrite length_seq in Hg.
  replace (max_fetch_retries + 2 - 1) with (max_fetch_retries + 1) in Hg by lia.
  destruct (_download_html_with_retries env url html_path sleep_min sleep_max
              max_fetch_retries s0) as [[ok|e] s1].
  2: { left. subst r. exists e. split; [reflexivity|]. split; [reflexivity|].
       do 4 right. intros [H0 Hle].
       destruct (Hspec H0 Hle) as (ok & _ & _ & Hret & _). discriminate. }
  clear Hspec.
  cbn [fst snd] in Hdf, Ho, Hf, Hrn, Hg. change (gets s0) with (gets s) in Hg.
  change (renders s0) with (renders s) in Hrn.
  change (df_rows s0) with (df_rows s) in Hdf.
  change (outdir s0) with (outdir s) in Ho.
  change (failed_rows s0) with (failed_rows s) in Hf.
  destruct ok; cbn [negb] in Hr.
  - unfold bind at 1, random at 1 in Hr. cbv beta iota in Hr.
    change ((sleep_min + random_value (rng_bits env (draws s1)) * (sleep_max - sleep_min))%Q)
      with (base_sleep env sleep_min sleep_max (draws s1)) in Hr.
    unfold bind at 1, sleep at 1 in Hr.
    destruct (Qle_bool 0 (base_sleep env sleep_min sleep_max (draws s1))) eqn:Esl.
    + unfold modify at 1 in Hr. cbv beta iota in Hr.
      eapply Hlift; [| | | | |exact Hr]; cbn; auto.
    + left. subst r. eexists. split; [reflexivity|]. split; [reflexivity|].
      do 4 right. intros [H0 Hle].
      rewrite (base_sleep_nonneg env _ _ _ H0 Hle) in Esl. discriminate.
  - subst r. unfold log_failure, modify. cbn. right. split; [reflexivity|]. right.
    split; [reflexivity|]. split; [lia|]. left.
    eexists. split; [now left|]. rewrite Hdf, Ho, Hf. auto.
Qed.

End SlotOutcome.


(** ** The PDF Finalizer: the PDF columns *)

Section PdfColumns.

Lemma fold_add_missing (cs : list string) (df : DataFrame) :
  List.NoDup cs ->
  fold_left add_missing_column cs df =
  {| columns := columns df ++ List.filter (fun c => negb (has_column df c)) cs;
     rows := map (fill (List.filter (fun c => negb (has_column df c)) cs)) (rows df) |}.
Proof.
  revert df. induction cs as [|c cs IH]; intros df Hnd.
  - simpl. rewrite app_nil_r. unfold fill. simpl. rewrite map_id. now destruct df.
  - inversion Hnd as [|? ? Hc Hcs]; subst. simpl fold_left. rewrite (IH _ Hcs).
    unfold add_missing_column. simpl List.filter.
    destruct (has_column df c) eqn:E; simpl negb; cbv iota; [reflexivity|].
    cbn [columns rows].
    assert (Hf : List.filter (fun c' => negb (has_column
                   {| columns := columns df ++ [c];
                      rows := map <[c:=Str ""]> (rows df) |} c')) cs
                 = List.filter (fun c' => negb (has_column df c')) cs).
    { apply List.filter_ext_in. intros c' Hc'. f_equal. unfold has_column. cbn [columns].
      rewrite existsb_app. simpl. rewrite orb_false_r.
      destruct (String.eqb c' c) eqn:Ecc; [|apply orb_false_r].
      apply String.eqb_eq in Ecc. subst. contradiction. }
    rewrite Hf, <- app_assoc, map_map. reflexivity.
Qed.

Lemma pdf_columns_NoDup : List.NoDup pdf_columns.
Proof.
  unfold pdf_columns. repeat constructor; simpl; intuition discriminate.
Qed.

Lemma with_pdf_columns_closed (df : DataFrame) :
  with_pdf_columns df =
  {| columns := columns df ++ missing_pdf_columns df;
     rows := map (fill (missing_pdf_columns df)) (rows df) |}.
Proof. apply fold_add_missing, pdf_columns_NoDup. Qed.

Lemma fill_lookup (cs : list string) (row : Row) (c : string) :
  fill cs row !! c = if existsb (String.eqb c) cs then Some (Str "") else row !! c.
Proof.
  unfold fill. revert row. induction cs as [|c' cs IH]; intros row; [reflexivity|].
  simpl. rewrite IH. destruct (existsb (String.eqb c) cs); [now rewrite orb_true_r|].
  rewrite orb_false_r. destruct (String.eqb c c') eqn:E.
  - apply String.eqb_eq in E. subst. apply lookup_insert_eq.
  - apply String.eqb_neq in E. apply lookup_insert_ne. congruence.
Qed.

Lemma cell_with_pdf_columns (df : DataFrame) (i : nat) (c : string) :
  ~ In c pdf_columns ->
  cell (rows (with_pdf_columns df)) i c = cell (rows df) i c.
Proof.
  intros Hc. rewrite with_pdf_columns_closed. cbn [rows]. unfold cell.
  rewrite list_lookup_fmap. destruct (rows df !! i) as [row|]; [|reflexivity].
  simpl. rewrite fill_lookup.
  destruct (existsb _ _) eqn:E; [|reflexivity].
  apply existsb_exists in E as (c' & Hc' & E). apply String.eqb_eq in E. subst c'.
  unfold missing_pdf_columns in Hc'. apply filter_In in Hc' as [Hc' _]. contradiction.
Qed.

Lemma length_with_pdf_columns (df : DataFrame) :
  length (rows (with_pdf_columns df)) = length (rows df).
Proof. rewrite with_pdf_columns_closed. cbn [rows]. apply length_map. Qed.

End PdfColumns.

(** X13. The table that the run works on has the columns of the input in
    their order, followed by the PDF columns that the input lacks, in the
    order [PDF_filename_1], [PDF_checksum_1], [PDF_filename_2],
    [PDF_checksum_2]. It has the same number of rows; a cell of an added
    column is the empty string, every other cell is as in the input. *)
Theorem missing_pdf_columns_are_added_empty (df : DataFrame) :
  columns (with_pdf_columns df) = columns df ++ missing_pdf_columns df /\
  length (rows (with_pdf_columns df)) = length (rows df) /\
  forall (i : nat) (row : Row) (c : string),
    rows df !! i = Some row ->
    cell (rows (with_pdf_columns df)) i c =
      if existsb (String.eqb c) (missing_pdf_columns df) then Some (Str "") else row !! c.
Proof.
  split; [now rewrite with_pdf_columns_closed|].
  split; [apply length_with_pdf_columns|].
  intros i row c Hrow. rewrite with_pdf_columns_closed. cbn [rows]. unfold cell.
  rewrite list_lookup_fmap, Hrow. simpl. apply fill_lookup.
Qed.

(** ** The PDF Finalizer: invariants of a run *)

Section RunInvariants.

Variables (env : Env) (args : Args) (sleep_min sleep_max : Q) (max_fetch_retries : Z).


(** What a step that returns does. *)
Lemma process_doc_returned (j : nat) (row : Row) (d : nat) (s : State) :
  let r := process_doc env args sleep_min sleep_max max_fetch_retries j row d s in
  let s' := snd r in
  let url := _clean_url (row !! col "OpenAsHTMLURL" d) in
  let filename := _determine_filename row d in
  fst r = Returned tt ->
  (skipped args row d = true /\ s' = with_unit_of_work (j, d) s) \/
  (skipped args row d = false /\
   (gets s <= gets s' <= gets s + Z.to_nat (max_fetch_retries + 1))%nat /\
   ((exists reason, failure_reason reason /\
       failed_rows s' = failed_rows s ++ [(row !! "TaskID", url, reason)] /\
       df_rows s' = df_rows s /\ outdir s' = outdir s) \/
    (exists bytes text,
       html_cache s' !! html_name row d = Some text /\ 1024 <= utf8_size text /\
       chromium env (renders s) = Some bytes /\
       failed_rows s' = failed_rows s /\
       outdir s' = <[filename := bytes]> (outdir s) /\
       df_rows s' = alter <[col "PDF_checksum" d := Str (sha256_hex env bytes)]> j
                      (alter <[col "PDF_filename" d := Str filename]> j (df_rows s))))).
Proof.
  intros r s' url filename Hret.
  destruct (process_doc_cases env args sleep_min sleep_max max_fetch_retries j row d s)
    as [(e & He & _)|(_ & H)]; [|exact H].
  fold r in He. congruence.
Qed.

Lemma process_doc_df_rows (j : nat) (row : Row) (d : nat) (s : State) :
  let r := process_doc env args sleep_min sleep_max max_fetch_retries j row d s in
  fst r = Returned tt ->
  length (df_rows (snd r)) = length (df_rows s) /\
  forall i c, c <> col "PDF_filename" d -> c <> col "PDF_checksum" d ->
              cell (df_rows (snd r)) i c = cell (df_rows s) i c.
Proof.
  intros r Hret.
  destruct (process_doc_returned j row d s Hret)
    as [[_ E]|(_ & _ & [(reason & _ & _ & E & _)|(bytes & text & _ & _ & _ & _ & _ & E)])];
    fold r in E; rewrite E; cbn [df_rows with_unit_of_work]; auto.
  split; [now rewrite !length_alter|].
  intros i c H1 H2. rewrite !cell_alter_other; auto.
Qed.

Lemma process_doc_other_slot (i slot j d : nat) (row : Row) (s : State) :
  d = 1%nat \/ d = 2%nat -> slot = 1%nat \/ slot = 2%nat -> (j, d) <> (i, slot) ->
  forall c, c = col "PDF_filename" slot \/ c = col "PDF_checksum" slot ->
  cell (df_rows (snd (process_doc env args sleep_min sleep_max max_fetch_retries j row d s))) i c
  = cell (df_rows s) i c.
Proof.
  intros Hd Hslot Hne c Hc.
  destruct (process_doc_touches_only env args sleep_min sleep_max max_fetch_retries j row d s
              eq_refl) as (_ & _ & Hcells).
  rewrite Hcells; [reflexivity|].
  destruct (decide (i = j)) as [->|]; [right|now left].
  apply (pdf_columns_differ d slot); auto; congruence.
Qed.

Lemma pdf_column_of_slot (d : nat) :
  d = 1%nat \/ d = 2%nat ->
  In (col "PDF_filename" d) pdf_columns /\ In (col "PDF_checksum" d) pdf_columns /\
  col "PDF_filename" d <> col "PDF_checksum" d.
Proof. intros [-> | ->]; vm_compute; intuition discriminate. Qed.


End RunInvariants.

(** X14. A run keeps the number of rows of the table, and changes no cell
    outside the four PDF columns. *)
Theorem run_changes_only_the_pdf_cells
    (env : Env) (args : Args) (df : DataFrame) (cache pdfs : gmap string string)
    (out_columns : list string) (final : State) :
  main env args df cache pdfs = Some (out_columns, final) ->
  length (df_rows final) = length (rows df) /\
  forall i c, ~ In c pdf_columns -> cell (df_rows final) i c = cell (rows df) i c.
Proof.
  intros Hmain. apply main_returned in Hmain as [Hret <-].
  set (table := rows (with_pdf_columns df)) in *.
  set (P := fun s : State =>
              length (df_rows s) = length table /\
              forall i c, ~ In c pdf_columns -> cell (df_rows s) i c = cell table i c).
  assert (HP : P (snd (main_loop env args (sleep_min args)
                         (py_max (sleep_min args) (sleep_max args))
                         (Z.max 0 (max_fetch_retries args)) table
                         (initial_state table cache pdfs)))).
  { apply main_loop_inv; [|split; reflexivity|exact Hret].
    intros j row d s _ Hd [Hlen Hcells] Hstep.
    destruct (process_doc_df_rows env args (sleep_min args)
                (py_max (sleep_min args) (sleep_max args))
                (Z.max 0 (max_fetch_retries args)) j row d s Hstep) as [Hl Hc].
    destruct (pdf_column_of_slot d Hd) as (H1 & H2 & _).
    split; [congruence|]. intros i c Hc'. rewrite Hc; auto; congruence. }
  destruct HP as [Hlen Hcells]. split.
  - rewrite Hlen. apply length_with_pdf_columns.
  - intros i c Hc. rewrite Hcells by exact Hc. now apply cell_with_pdf_columns.
Qed.

Lemma run_changes_only_the_pdf_cells_witness :
  cell (df_rows (default fresh_state
                   (snd <$> main offline_env only_missing_args blank_name_df ∅ ∅)))
       0 "Ticker_1" = Some (Str " AA/PL ").
Proof.
  destruct (run_changes_only_the_pdf_cells offline_env only_missing_args blank_name_df ∅ ∅
              (required_columns ++ pdf_columns)
              (default fresh_state
                 (snd <$> main offline_env only_missing_args blank_name_df ∅ ∅)))
    as [_ H].
  - vm_compute. reflexivity.
  - rewrite H; [vm_compute; reflexivity|]. vm_compute. intuition discriminate.
Defined.







(** X18. At the end of a run the two PDF cells of a slot are either the ones
    of the table the run started from, or they hold the file name derived for
    the slot and the digest of a PDF that the browser rendered; in that case
    a file of that name is in the directory of the PDFs. *)
Theorem pdf_cells_hold_the_rendered_file
    (env : Env) (args : Args) (df : DataFrame) (cache pdfs : gmap string string)
    (out_columns : list string) (final : State) (i slot : nat) (row : Row) :
  main env args df cache pdfs = Some (out_columns, final) ->
  rows (with_pdf_columns df) !! i = Some row ->
  slot = 1%nat \/ slot = 2%nat ->
  (cell (df_rows final) i (col "PDF_filename" slot) = row !! col "PDF_filename" slot /\
   cell (df_rows final) i (col "PDF_checksum" slot) = row !! col "PDF_checksum" slot) \/
  (exists (k : nat) (bytes : string),
     chromium env k = Some bytes /\
     is_Some (outdir final !! _determine_filename row slot) /\
     cell (df_rows final) i (col "PDF_filename" slot)
       = Some (Str (_determine_filename row slot)) /\
     cell (df_rows final) i (col "PDF_checksum" slot) = Some (Str (sha256_hex env bytes))).
Proof.
  intros Hmain Hrow Hslot. apply main_returned in Hmain as [Hret <-].
  set (table := rows (with_pdf_columns df)) in *.
  set (fn := col "PDF_filename" slot). set (ck := col "PDF_checksum" slot).
  set (name := _determine_filename row slot).
  set (P := fun s : State =>
     length (df_rows s) = length table /\
     ((cell (df_rows s) i fn = row !! fn /\ cell (df_rows s) i ck = row !! ck) \/
      (exists (k : nat) (bytes : string),
         chromium env k = Some bytes /\ is_Some (outdir s !! name) /\
         cell (df_rows s) i fn = Some (Str name) /\
         cell (df_rows s) i ck = Some (Str (sha256_hex env bytes))))).
  assert (HP : P (snd (main_loop env args (sleep_min args)
                         (py_max (sleep_min args) (sleep_max args))
                         (Z.max 0 (max_fetch_retries args)) table
                         (initial_state table cache pdfs)))); [|exact (proj2 HP)].
  apply main_loop_inv; [| |exact Hret].
  2: { split; [reflexivity|]. left. unfold cell. simpl. now rewrite Hrow. }
  intros j r d s Hjr Hd [Hlen Hs] Hstep.
  pose proof (process_doc_returned env args (sleep_min args)
                (py_max (sleep_min args) (sleep_max args))
                (Z.max 0 (max_fetch_retries args)) j r d s Hstep) as Hcases.
  pose proof (process_doc_df_rows env args (sleep_min args)
                (py_max (sleep_min args) (sleep_max args))
                (Z.max 0 (max_fetch_retries args)) j r d s Hstep) as [Hl _].
  cbv zeta in Hcases.
  set (s' := snd (process_doc env args (sleep_min args)
                    (py_max (sleep_min args) (sleep_max args))
                    (Z.max 0 (max_fetch_retries args)) j r d s)) in *.
  split; [congruence|].
  assert (Hout : is_Some (outdir s !! name) -> is_Some (outdir s' !! name)).
  { destruct Hcases as [[_ E]|(_ & _ & [(reason & _ & _ & _ & E)|
                                        (bytes & text & _ & _ & _ & _ & E & _)])];
      rewrite E; auto.
    intros H. apply lookup_insert_is_Some'. now right. }
  destruct (decide ((j, d) = (i, slot))) as [[= -> ->]|Hne].
  - assert (r = row) as -> by congruence.
    destruct Hcases as [[_ E]|(_ & _ & [(reason & _ & _ & E & _)|
                                        (bytes & text & _ & _ & Hchr & _ & Ho & E)])].
    + destruct Hs as [Hs|(k & b & Hk & Hn & Hs)]; [left|right; exists k, b];
        rewrite E; cbn [df_rows with_unit_of_work]; auto.
    + destruct Hs as [Hs|(k & b & Hk & Hn & Hs)]; [left|right; exists k, b];
        rewrite E; auto.
    + right. exists (renders s), bytes. split; [exact Hchr|].
      split; [rewrite Ho; apply lookup_insert_is_Some'; now left|].
      destruct (pdf_column_of_slot slot Hslot) as (_ & _ & Hdiff).
      assert (Hi : is_Some (df_rows s !! i)).
      { apply lookup_lt_is_Some. rewrite Hlen. apply lookup_lt_is_Some. eauto. }
      destruct Hi as [r0 Hr0].
      rewrite E. unfold cell. rewrite !list_lookup_alter_eq, Hr0. simpl.
      fold fn ck name. split.
      * rewrite lookup_insert_ne by (intros Heq; apply Hdiff; symmetry; exact Heq).
        apply lookup_insert_eq.
      * apply lookup_insert_eq.
  - assert (Hfn : cell (df_rows s') i fn = cell (df_rows s) i fn)
      by (apply (process_doc_other_slot _ _ _ _ _ i slot); auto).
    assert (Hck : cell (df_rows s') i ck = cell (df_rows s) i ck)
      by (apply (process_doc_other_slot _ _ _ _ _ i slot); auto).
    rewrite Hfn, Hck.
    destruct Hs as [Hs|(k & b & Hk & Hn & Hs)]; [now left|right; exists k, b; auto].
Qed.

Lemma pdf_cells_hold_the_rendered_file_witness :
  cell (df_rows (default fresh_state
                   (snd <$> main online_env only_missing_args blank_name_df ∅ ∅)))
       0 (col "PDF_filename" 1) = Some (Str "A_01_AAPL_10-K_2024-11-01.pdf").
Proof.
  destruct (pdf_cells_hold_the_rendered_file online_env only_missing_args blank_name_df ∅ ∅
              (required_columns ++ pdf_columns)
              (default fresh_state
                 (snd <$> main online_env only_missing_args blank_name_df ∅ ∅))
              0 1 (<["PDF_filename_1" := Str " "]> sample_row))
    as [[Hf _]|(k & bytes & _ & _ & Hf & _)].
  - vm_compute. reflexivity.
  - reflexivity.
  - left. reflexivity.
  - exfalso. vm_compute in Hf. discriminate.
  - rewrite Hf. vm_compute. reflexivity.
Defined.

(** ** The manifest builder: the filings of a company *)

Section Picks.

Import ManifestBuilder.

Lemma pick_loop_spec (forms : list string) (min_date : string) (max_per_company : Z)
    (entries : list Entry) (rows : list Pick) :
  (length rows < Z.to_nat (Z.max 1 max_per_company))%nat ->
  pick_loop forms min_date max_per_company rows entries
  = rows ++ firstn (Z.to_nat (Z.max 1 max_per_company) - length rows)
                   (omap (pick_of forms min_date) entries).
Proof.
  revert rows. induction entries as [|e rest IH]; intros rows Hlen.
  - simpl. now rewrite firstn_nil, app_nil_r.
  - simpl pick_loop. simpl omap.
    destruct (pick_of forms min_date e) as [row|]; [|now apply IH].
    cbv zeta. rewrite length_app. simpl length.
    destruct (Z.of_nat (length rows + 1) >=? max_per_company) eqn:E.
    + rewrite Z.geb_leb in E. apply Z.leb_le in E.
      replace (Z.to_nat (Z.max 1 max_per_company) - length rows)%nat with 1%nat by lia.
      reflexivity.
    + rewrite Z.geb_leb in E. apply Z.leb_gt in E.
      rewrite IH by (rewrite length_app; simpl; lia).
      rewrite length_app, <- app_assoc. simpl. f_equal.
      replace (Z.to_nat (Z.max 1 max_per_company) - length rows)%nat
        with (S (Z.to_nat (Z.max 1 max_per_company) - (length rows + 1))) by lia.
      reflexivity.
Qed.

Lemma pick_filings_spec (recent : Recent) (forms : list string) (min_date : string)
    (max_per_company : Z) :
  pick_filings recent forms min_date max_per_company
  = firstn (Z.to_nat (Z.max 1 max_per_company)) (matching_filings recent forms min_date).
Proof.
  unfold pick_filings. rewrite pick_loop_spec by (simpl; lia).
  simpl. now rewrite Nat.sub_0_r.
Qed.

Lemma pick_of_spec (forms : list string) (min_date : string) (e : Entry) (p : Pick) :
  pick_of forms min_date e = Some p ->
  e.1.1.1.1 = JStr (Form p) /\ e.1.1.1.2 = JStr (FilingDate p) /\
  Accession p = e.1.1.2 /\ PrimaryDocument p = e.2 /\
  In (Form p) forms /\
  String.ltb (FilingDate p) min_date = false /\
  Period p = (if truthy e.1.2 then e.1.2
              else JStr (if (4 <=? String.length (FilingDate p))%nat
                         then str_prefix 4 (FilingDate p) else "")).
Proof.
  destruct e as [[[[f d] a] r] pd]. unfold pick_of.
  destruct f as [| | |f]; try discriminate. destruct d as [| | |d]; try discriminate.
  destruct (existsb (String.eqb f) forms) eqn:Ef; [|discriminate].
  destruct (String.ltb d min_date) eqn:Ed; [discriminate|].
  simpl. intros [= <-]. simpl. split_and!; auto.
  apply existsb_exists in Ef as (f' & Hf' & Ef). apply String.eqb_eq in Ef. now subst.
Qed.

End Picks.

(** X19. [pick_filings] returns the first [max(1, max_per_company)] entries of
    the document that pass the two filters, in the order of the document: a
    limit of zero or less still gives one filing. *)
Theorem pick_filings_takes_the_first_matches
    (recent : ManifestBuilder.Recent) (forms : list string) (min_date : string)
    (max_per_company : Z) :
  ManifestBuilder.pick_filings recent forms min_date max_per_company
  = firstn (Z.to_nat (Z.max 1 max_per_company)) (matching_filings recent forms min_date).
Proof. apply pick_filings_spec. Qed.

(** X20. Every filing that [pick_filings] returns has one of the requested
    forms and a filing date that is not before the minimum date; its period
    is empty only when the filing date has fewer than four characters. *)
Theorem picked_filings_match_the_form_and_the_date
    (recent : ManifestBuilder.Recent) (forms : list string) (min_date : string)
    (max_per_company : Z) (p : ManifestBuilder.Pick) :
  In p (ManifestBuilder.pick_filings recent forms min_date max_per_company) ->
  In (ManifestBuilder.Form p) forms /\
  str_ge (ManifestBuilder.FilingDate p) min_date = true /\
  (ManifestBuilder.truthy (ManifestBuilder.Period p) = false ->
   (String.length (ManifestBuilder.FilingDate p) < 4)%nat).
Proof.
  rewrite pick_filings_spec. intros Hp. apply In_firstn in Hp.
  unfold matching_filings in Hp. apply list_elem_of_In in Hp.
  apply list_elem_of_omap in Hp as (e & _ & He).
  apply pick_of_spec in He as (_ & _ & _ & _ & Hf & Hd & Hper).
  split; [exact Hf|]. split.
  - unfold str_ge, String.leb. unfold String.ltb in Hd.
    rewrite String.compare_antisym.
    destruct (String.compare (ManifestBuilder.FilingDate p) min_date); simpl;
      auto; discriminate.
  - rewrite Hper. destruct (ManifestBuilder.truthy e.1.2) eqn:Et; [congruence|].
    destruct (4 <=? String.length (ManifestBuilder.FilingDate p))%nat eqn:El.
    + apply Nat.leb_le in El. simpl. intros H. apply negb_false_iff, String.eqb_eq in H.
      apply (f_equal chars) in H. rewrite chars_str_prefix in H.
      apply (f_equal (@length _)) in H. rewrite length_firstn, length_chars in H.
      change (length (chars "")) with 0%nat in H. lia.
    + intros _. now apply Nat.leb_gt in El.
Qed.

Lemma picked_filings_match_the_form_and_the_date_witness :
  In (ManifestBuilder.Form sample_pick) ["10-K"] /\
  str_ge (ManifestBuilder.FilingDate sample_pick) "2023-10-01" = true /\
  (ManifestBuilder.truthy (ManifestBuilder.Period sample_pick) = false ->
   (String.length (ManifestBuilder.FilingDate sample_pick) < 4)%nat).
Proof.
  apply (picked_filings_match_the_form_and_the_date sample_recent ["10-K"] "2023-10-01" 2
           sample_pick).
  vm_compute. right. left. reflexivity.
Defined.

(** X21. The filing that the AB manifest gets for a company (limit 1) is the
    first of the filings that the TWO manifest gets for it (limit 2). *)
Theorem ab_filing_is_the_first_of_the_two
    (recent : ManifestBuilder.Recent) (forms : list string) (min_date : string) :
  ManifestBuilder.pick_filings recent forms min_date 1
  = firstn 1 (ManifestBuilder.pick_filings recent forms min_date 2).
Proof.
  rewrite !pick_filings_spec. change (Z.to_nat (Z.max 1 1)) with 1%nat.
  change (Z.to_nat (Z.max 1 2)) with 2%nat. now rewrite firstn_firstn.
Qed.
